(** * A shallow embedding of the WhatsApp chat parser and analytics core

    Python [str] values are lists of Unicode code points ([list Z]); byte
    strings are lists of integers in [0, 255].  Python's built-in string
    operations used by the code ([str.isspace], [str.strip], [str.split],
    [str.lower], the [in] operator, [int] on decimal digits) and the parts
    of [re], [datetime.strptime] and [bytes.decode] that the code relies on
    are embedded first, then [services/parser.py] and the analytics of
    [services/analyzer.py] and [services/analyzer_extended.py]. *)

From Stdlib Require Import ZArith QArith List String Ascii Bool Lia Sorting.Permutation Sorting.Sorted.
Import ListNotations.
Open Scope Z_scope.

(** ** Python strings *)

Module PyStr.

Definition pystr := list Z.

(** ASCII literal helper: a Rocq string literal as a Python [str]. *)
Fixpoint str (s : string) : pystr :=
  match s with
  | EmptyString => []
  | String c r => Z.of_nat (nat_of_ascii c) :: str r
  end.

(** [str.isspace] for one code point (CPython's [_PyUnicode_IsWhitespace]
    table, which is also the class [\s] of [re] on [str] patterns). *)
Definition is_space (c : Z) : bool :=
  ((9 <=? c) && (c <=? 13)) || ((28 <=? c) && (c <=? 32)) ||
  (c =? 133) || (c =? 160) || (c =? 5760) ||
  ((8192 <=? c) && (c <=? 8202)) || (c =? 8232) || (c =? 8233) ||
  (c =? 8239) || (c =? 8287) || (c =? 12288).

(** The code points of value zero of every run of decimal digits (general
    category Nd); each run is ten consecutive code points 0..9.  This is the
    class [\d] of [re] on [str] patterns and what [int] accepts as digits. *)
Definition decimal_zeros : list Z := [48; 1632; 1776; 1984; 2406; 2534; 2662; 2790; 2918; 3046; 3174; 3302; 3430; 3558; 3664; 3792; 3872; 4160; 4240; 6112; 6160; 6470; 6608; 6784; 6800; 6992; 7088; 7232; 7248; 42528; 43216; 43264; 43472; 43504; 43600; 44016; 65296; 66720; 68912; 69734; 69872; 69942; 70096; 70384; 70736; 70864; 71248; 71360; 71472; 71904; 72016; 72784; 73040; 73120; 92768; 92864; 93008; 120782; 120792; 120802; 120812; 120822; 123200; 123632; 125264; 130032].

Definition decimal_value (c : Z) : option Z :=
  match find (fun z => (z <=? c) && (c <=? z + 9)) decimal_zeros with
  | Some z => Some (c - z)
  | None => None
  end.

Definition is_decimal (c : Z) : bool :=
  match decimal_value c with Some _ => true | None => false end.

(** [str.lower]: the simple lowercase mapping as runs
    (first, last, stride, offset), plus the one code point with a
    multi-character lowercase form (U+0130 lowers to "i" U+0307).
    CPython's context-dependent final sigma is not represented: it only
    chooses between two Greek letters. *)
Definition lower_runs : list (Z * Z * Z * Z) :=
  [(65, 90, 1, 32);
  (192, 214, 1, 32);
  (216, 222, 1, 32);
  (256, 302, 2, 1);
  (306, 310, 2, 1);
  (313, 327, 2, 1);
  (330, 374, 2, 1);
  (376, 376, 1, -121);
  (377, 381, 2, 1);
  (385, 385, 1, 210);
  (386, 388, 2, 1);
  (390, 390, 1, 206);
  (391, 391, 1, 1);
  (393, 394, 1, 205);
  (395, 395, 1, 1);
  (398, 398, 1, 79);
  (399, 399, 1, 202);
  (400, 400, 1, 203);
  (401, 401, 1, 1);
  (403, 403, 1, 205);
  (404, 404, 1, 207);
  (406, 406, 1, 211);
  (407, 407, 1, 209);
  (408, 408, 1, 1);
  (412, 412, 1, 211);
  (413, 413, 1, 213);
  (415, 415, 1, 214);
  (416, 420, 2, 1);
  (422, 422, 1, 218);
  (423, 423, 1, 1);
  (425, 425, 1, 218);
  (428, 428, 1, 1);
  (430, 430, 1, 218);
  (431, 431, 1, 1);
  (433, 434, 1, 217);
  (435, 437, 2, 1);
  (439, 439, 1, 219);
  (440, 440, 1, 1);
  (444, 444, 1, 1);
  (452, 452, 1, 2);
  (453, 453, 1, 1);
  (455, 455, 1, 2);
  (456, 456, 1, 1);
  (458, 458, 1, 2);
  (459, 475, 2, 1);
  (478, 494, 2, 1);
  (497, 497, 1, 2);
  (498, 500, 2, 1);
  (502, 502, 1, -97);
  (503, 503, 1, -56);
  (504, 542, 2, 1);
  (544, 544, 1, -130);
  (546, 562, 2, 1);
  (570, 570, 1, 10795);
  (571, 571, 1, 1);
  (573, 573, 1, -163);
  (574, 574, 1, 10792);
  (577, 577, 1, 1);
  (579, 579, 1, -195);
  (580, 580, 1, 69);
  (581, 581, 1, 71);
  (582, 590, 2, 1);
  (880, 882, 2, 1);
  (886, 886, 1, 1);
  (895, 895, 1, 116);
  (902, 902, 1, 38);
  (904, 906, 1, 37);
  (908, 908, 1, 64);
  (910, 911, 1, 63);
  (913, 929, 1, 32);
  (931, 939, 1, 32);
  (975, 975, 1, 8);
  (984, 1006, 2, 1);
  (1012, 1012, 1, -60);
  (1015, 1015, 1, 1);
  (1017, 1017, 1, -7);
  (1018, 1018, 1, 1);
  (1021, 1023, 1, -130);
  (1024, 1039, 1, 80);
  (1040, 1071, 1, 32);
  (1120, 1152, 2, 1);
  (1162, 1214, 2, 1);
  (1216, 1216, 1, 15);
  (1217, 1229, 2, 1);
  (1232, 1326, 2, 1);
  (1329, 1366, 1, 48);
  (4256, 4293, 1, 7264);
  (4295, 4295, 1, 7264);
  (4301, 4301, 1, 7264);
  (5024, 5103, 1, 38864);
  (5104, 5109, 1, 8);
  (7312, 7354, 1, -3008);
  (7357, 7359, 1, -3008);
  (7680, 7828, 2, 1);
  (7838, 7838, 1, -7615);
  (7840, 7934, 2, 1);
  (7944, 7951, 1, -8);
  (7960, 7965, 1, -8);
  (7976, 7983, 1, -8);
  (7992, 7999, 1, -8);
  (8008, 8013, 1, -8);
  (8025, 8031, 2, -8);
  (8040, 8047, 1, -8);
  (8072, 8079, 1, -8);
  (8088, 8095, 1, -8);
  (8104, 8111, 1, -8);
  (8120, 8121, 1, -8);
  (8122, 8123, 1, -74);
  (8124, 8124, 1, -9);
  (8136, 8139, 1, -86);
  (8140, 8140, 1, -9);
  (8152, 8153, 1, -8);
  (8154, 8155, 1, -100);
  (8168, 8169, 1, -8);
  (8170, 8171, 1, -112);
  (8172, 8172, 1, -7);
  (8184, 8185, 1, -128);
  (8186, 8187, 1, -126);
  (8188, 8188, 1, -9);
  (8486, 8486, 1, -7517);
  (8490, 8490, 1, -8383);
  (8491, 8491, 1, -8262);
  (8498, 8498, 1, 28);
  (8544, 8559, 1, 16);
  (8579, 8579, 1, 1);
  (9398, 9423, 1, 26);
  (11264, 11311, 1, 48);
  (11360, 11360, 1, 1);
  (11362, 11362, 1, -10743);
  (11363, 11363, 1, -3814);
  (11364, 11364, 1, -10727);
  (11367, 11371, 2, 1);
  (11373, 11373, 1, -10780);
  (11374, 11374, 1, -10749);
  (11375, 11375, 1, -10783);
  (11376, 11376, 1, -10782);
  (11378, 11378, 1, 1);
  (11381, 11381, 1, 1);
  (11390, 11391, 1, -10815);
  (11392, 11490, 2, 1);
  (11499, 11501, 2, 1);
  (11506, 11506, 1, 1);
  (42560, 42604, 2, 1);
  (42624, 42650, 2, 1);
  (42786, 42798, 2, 1);
  (42802, 42862, 2, 1);
  (42873, 42875, 2, 1);
  (42877, 42877, 1, -35332);
  (42878, 42886, 2, 1);
  (42891, 42891, 1, 1);
  (42893, 42893, 1, -42280);
  (42896, 42898, 2, 1);
  (42902, 42920, 2, 1);
  (42922, 42922, 1, -42308);
  (42923, 42923, 1, -42319);
  (42924, 42924, 1, -42315);
  (42925, 42925, 1, -42305);
  (42926, 42926, 1, -42308);
  (42928, 42928, 1, -42258);
  (42929, 42929, 1, -42282);
  (42930, 42930, 1, -42261);
  (42931, 42931, 1, 928);
  (42932, 42946, 2, 1);
  (42948, 42948, 1, -48);
  (42949, 42949, 1, -42307);
  (42950, 42950, 1, -35384);
  (42951, 42953, 2, 1);
  (42960, 42960, 1, 1);
  (42966, 42968, 2, 1);
  (42997, 42997, 1, 1);
  (65313, 65338, 1, 32);
  (66560, 66599, 1, 40);
  (66736, 66771, 1, 40);
  (66928, 66938, 1, 39);
  (66940, 66954, 1, 39);
  (66956, 66962, 1, 39);
  (66964, 66965, 1, 39);
  (68736, 68786, 1, 64);
  (71840, 71871, 1, 32);
  (93760, 93791, 1, 32);
  (125184, 125217, 1, 34)].

Definition lower_char (c : Z) : list Z :=
  if c =? 304 then [105; 775] else
  match find (fun '(lo, hi, st, _) =>
                (lo <=? c) && (c <=? hi) && (Z.modulo (c - lo) st =? 0)) lower_runs with
  | Some (_, _, _, d) => [c + d]
  | None => [c]
  end.

Definition py_lower (s : pystr) : pystr := flat_map lower_char s.

(** [str.strip()] with no argument. *)
Fixpoint lstrip (s : pystr) : pystr :=
  match s with
  | c :: r => if is_space c then lstrip r else s
  | [] => []
  end.

Definition strip (s : pystr) : pystr := rev (lstrip (rev (lstrip s))).

(** [str.split()] with no argument: maximal runs of non-whitespace. *)
Fixpoint split_ws_aux (cur : pystr) (s : pystr) : list pystr :=
  match s with
  | [] => match cur with [] => [] | _ => [rev cur] end
  | c :: r =>
      if is_space c
      then match cur with
           | [] => split_ws_aux [] r
           | _ => rev cur :: split_ws_aux [] r
           end
      else split_ws_aux (c :: cur) r
  end.

Definition split_ws (s : pystr) : list pystr := split_ws_aux [] s.

(** [str.split(sep)] for a one-character separator. *)
Fixpoint split_on_aux (sep : Z) (cur : pystr) (s : pystr) : list pystr :=
  match s with
  | [] => [rev cur]
  | c :: r => if c =? sep then rev cur :: split_on_aux sep [] r
              else split_on_aux sep (c :: cur) r
  end.

Definition split_on (sep : Z) (s : pystr) : list pystr := split_on_aux sep [] s.

Fixpoint str_eqb (a b : pystr) : bool :=
  match a, b with
  | [], [] => true
  | x :: a', y :: b' => (x =? y) && str_eqb a' b'
  | _, _ => false
  end.

Fixpoint prefixb (p s : pystr) : bool :=
  match p, s with
  | [], _ => true
  | x :: p', y :: s' => (x =? y) && prefixb p' s'
  | _, [] => false
  end.

(** The [in] operator on strings: substring test. *)
Fixpoint is_substring (p s : pystr) : bool :=
  prefixb p s || match s with [] => false | _ :: s' => is_substring p s' end.

(** [s.index(c)] for a character known to occur; [None] if absent. *)
Fixpoint index_of (c : Z) (s : pystr) : option nat :=
  match s with
  | [] => None
  | x :: r => if x =? c then Some O else option_map S (index_of c r)
  end.

(** [int(s)] on a string of decimal digits, surrounding whitespace allowed. *)
Definition py_int (s : pystr) : option Z :=
  match strip s with
  | [] => None
  | ds => fold_left (fun acc c =>
                       match acc, decimal_value c with
                       | Some v, Some d => Some (10 * v + d)
                       | _, _ => None
                       end) ds (Some 0)
  end.

End PyStr.

(** ** [bytes.decode('utf-8', errors='ignore')]

    A well-formed sequence is decoded; every maximal ill-formed subpart
    (an invalid lead byte, or a lead byte with the valid continuation bytes
    that follow it, or a truncated sequence at the end) is dropped. *)

Module Utf8.

Definition in_range (lo hi b : Z) : bool := (lo <=? b) && (b <=? hi).

(** For a lead byte: the range allowed for the second byte and the number
    of continuation bytes. *)
Definition lead_info (b0 : Z) : option (Z * Z * nat) :=
  if in_range 194 223 b0 then Some (128, 191, 1%nat)
  else if b0 =? 224 then Some (160, 191, 2%nat)
  else if in_range 225 236 b0 || in_range 238 239 b0 then Some (128, 191, 2%nat)
  else if b0 =? 237 then Some (128, 159, 2%nat)
  else if b0 =? 240 then Some (144, 191, 3%nat)
  else if in_range 241 243 b0 then Some (128, 191, 3%nat)
  else if b0 =? 244 then Some (128, 143, 3%nat)
  else None.

Fixpoint decode_aux (fuel : nat) (bs : list Z) : list Z :=
  match fuel with
  | O => []
  | S f =>
    match bs with
    | [] => []
    | b0 :: r =>
      if b0 <? 128 then b0 :: decode_aux f r else
      match lead_info b0 with
      | None => decode_aux f r
      | Some (lo, hi, n) =>
        match r with
        | [] => []
        | b1 :: r1 =>
          if negb (in_range lo hi b1) then decode_aux f r else
          match n with
          | 1%nat => (Z.lor (Z.shiftl (Z.land b0 31) 6) (Z.land b1 63)) :: decode_aux f r1
          | _ =>
            match r1 with
            | [] => []
            | b2 :: r2 =>
              if negb (in_range 128 191 b2) then decode_aux f r1 else
              match n with
              | 2%nat => Z.lor (Z.shiftl (Z.land b0 15) 12)
                          (Z.lor (Z.shiftl (Z.land b1 63) 6) (Z.land b2 63)) :: decode_aux f r2
              | _ =>
                match r2 with
                | [] => []
                | b3 :: r3 =>
                  if negb (in_range 128 191 b3) then decode_aux f r2 else
                  Z.lor (Z.shiftl (Z.land b0 7) 18)
                    (Z.lor (Z.shiftl (Z.land b1 63) 12)
                      (Z.lor (Z.shiftl (Z.land b2 63) 6) (Z.land b3 63))) :: decode_aux f r3
                end
              end
            end
          end
        end
      end
    end
  end.

Definition decode_ignore (bs : list Z) : PyStr.pystr := decode_aux (List.length bs) bs.

End Utf8.

(** ** Backtracking regular expressions

    A matcher returns every way it can match a prefix of the input, in the
    order Python's backtracking engine tries them; the first element is the
    match that [re.match] reports, with the consumed text and the rest of
    the input ([line[match.end():]]). *)

Module Re.
Import PyStr.

Definition RP (A : Type) := pystr -> list (A * pystr).

Definition eps : RP pystr := fun s => [([], s)].

Definition chr_if (p : Z -> bool) : RP pystr :=
  fun s => match s with
           | c :: r => if p c then [([c], r)] else []
           | [] => []
           end.

Definition lit (c : Z) : RP pystr := chr_if (Z.eqb c).
Definition crange (lo hi : Z) : RP pystr := chr_if (fun c => (lo <=? c) && (c <=? hi)).
Definition digit : RP pystr := chr_if is_decimal.
Definition space : RP pystr := chr_if is_space.

Definition cat (p q : RP pystr) : RP pystr :=
  fun s => flat_map (fun '(t, r) => map (fun '(t', r') => (t ++ t', r')) (q r)) (p s).

Definition alt {A} (p q : RP A) : RP A := fun s => p s ++ q s.

Definition word (w : pystr) : RP pystr := fold_right (fun c acc => cat (lit c) acc) eps w.

(** Greedy [p{mn,mx}]: one more repetition is tried before stopping. *)
Fixpoint rep (p : RP pystr) (mn mx : nat) : RP pystr :=
  match mx with
  | O => match mn with O => eps | S _ => fun _ => [] end
  | S mx' =>
    fun s =>
      let more := cat p (rep p (pred mn) mx') s in
      match mn with
      | O => more ++ [([], s)]
      | S _ => more
      end
  end.

Definition opt (p : RP pystr) : RP pystr := rep p 0 1.

(** Greedy [p*] and [p+] for single-character [p]: at most [length s]
    repetitions are possible. *)
Definition star (p : RP pystr) : RP pystr := fun s => rep p 0 (List.length s) s.
Definition plus (p : RP pystr) : RP pystr := fun s => rep p 1 (List.length s) s.

(** [pre (g1) mid (g2) post] with its two groups captured. *)
Definition groups2 (pre g1 mid g2 post : RP pystr) : RP (pystr * pystr) :=
  fun s =>
    flat_map (fun '(_, r0) =>
    flat_map (fun '(a, r1) =>
    flat_map (fun '(_, r2) =>
    flat_map (fun '(b, r3) =>
    map (fun '(_, r4) => ((a, b), r4)) (post r3)) (g2 r2)) (mid r1)) (g1 r0)) (pre s).

Definition re_match {A} (p : RP A) (s : pystr) : option (A * pystr) := hd_error (p s).

Fixpoint suffixes (s : pystr) : list pystr :=
  match s with
  | [] => [[]]
  | _ :: r => s :: suffixes r
  end.

(** [bool(re.search(p, s))]. *)
Definition re_search_bool {A} (p : RP A) (s : pystr) : bool :=
  existsb (fun suf => match p suf with [] => false | _ => true end) (suffixes s).

End Re.

(** ** [datetime.datetime] values (second resolution: every datetime in this
    program comes from [strptime] on formats without [%f]). *)

Module DateTime.

Record datetime := mkdatetime {
  year : Z; month : Z; day : Z; hour : Z; minute : Z; second : Z }.

Definition is_leap (y : Z) : bool :=
  (y mod 4 =? 0) && (negb (y mod 100 =? 0) || (y mod 400 =? 0)).

Definition days_in_month (y m : Z) : Z :=
  if m =? 2 then (if is_leap y then 29 else 28)
  else if (m =? 4) || (m =? 6) || (m =? 9) || (m =? 11) then 30
  else 31.

(** [_days_before_month]. *)
Definition days_before_month (y m : Z) : Z :=
  nth (Z.to_nat m) [0; 0; 31; 59; 90; 120; 151; 181; 212; 243; 273; 304; 334] 0
  + (if (m >? 2) && is_leap y then 1 else 0).

(** [_days_before_year]. *)
Definition days_before_year (y : Z) : Z :=
  let y' := y - 1 in y' * 365 + y' / 4 - y' / 100 + y' / 400.

(** [date.toordinal()]: 0001-01-01 is day 1. *)
Definition toordinal (d : datetime) : Z :=
  days_before_year (year d) + days_before_month (year d) (month d) + day d.

Definition seconds_of_day (d : datetime) : Z :=
  hour d * 3600 + minute d * 60 + second d.

(** [(b - a).total_seconds()]. *)
Definition total_seconds (b a : datetime) : Z :=
  (toordinal b - toordinal a) * 86400 + (seconds_of_day b - seconds_of_day a).

(** The constructor checks of [datetime(year, month, day, hour, minute,
    second)]. *)
Definition valid (d : datetime) : bool :=
  (1 <=? year d) && (year d <=? 9999) && (1 <=? month d) && (month d <=? 12) &&
  (1 <=? day d) && (day d <=? days_in_month (year d) (month d)) &&
  (0 <=? hour d) && (hour d <=? 23) && (0 <=? minute d) && (minute d <=? 59) &&
  (0 <=? second d) && (second d <=? 59).

Fixpoint lex_ltb (xs ys : list Z) : bool :=
  match xs, ys with
  | x :: xs', y :: ys' => (x <? y) || ((x =? y) && lex_ltb xs' ys')
  | _, _ => false
  end.

(** Datetime comparison [a < b]: lexicographic on the fields. *)
Definition ltb (a b : datetime) : bool :=
  lex_ltb [year a; month a; day a; hour a; minute a; second a]
          [year b; month b; day b; hour b; minute b; second b].

(** Python's [min] and [max] on a non-empty list: the running value is
    replaced only by a strictly smaller (larger) item. *)
Definition py_min (x : datetime) (xs : list datetime) : datetime :=
  fold_left (fun cur y => if ltb y cur then y else cur) xs x.

Definition py_max (x : datetime) (xs : list datetime) : datetime :=
  fold_left (fun cur y => if ltb cur y then y else cur) xs x.

End DateTime.

(** ** [datetime.strptime] (CPython's [_strptime], C locale)

    The format is compiled to a regular expression: each directive becomes
    its group, each run of whitespace becomes [\s+], every other character
    is literal (the formats used here have only punctuation as literals, on
    which [re.IGNORECASE] has no effect).  [format_regex.match] must reach
    the end of the data, else "unconverted data remains". *)

Module Strptime.
Import PyStr Re DateTime.

Inductive fmt_tok := Dir (c : Z) | FLit (c : Z) | FWs.

Fixpoint fmt_chars (f : pystr) : list fmt_tok :=
  match f with
  | [] => []
  | c :: r =>
    if c =? 37 then
      match r with
      | d :: r' => Dir d :: fmt_chars r'
      | [] => [FLit c]
      end
    else if is_space c then FWs :: fmt_chars r
    else FLit c :: fmt_chars r
  end.

(** Adjacent whitespace collapses into one [\s+]. *)
Fixpoint collapse_ws (ts : list fmt_tok) : list fmt_tok :=
  match ts with
  | FWs :: ((FWs :: _) as r) => collapse_ws r
  | t :: r => t :: collapse_ws r
  | [] => []
  end.

Definition fmt_tokens (f : pystr) : list fmt_tok := collapse_ws (fmt_chars f).

Definition ch (c : ascii) : Z := Z.of_nat (nat_of_ascii c).

(** An ASCII lowercase letter under [re.IGNORECASE]. *)
Definition lit_ci (c : Z) : RP pystr := chr_if (fun x => (x =? c) || (x =? c - 32)).

(** The directive regexes of [TimeRE]. *)
Definition directive_re (d : Z) : option (RP pystr) :=
  if d =? ch "d" then Some
    (alt (cat (lit (ch "3")) (crange (ch "0") (ch "1")))
    (alt (cat (crange (ch "1") (ch "2")) digit)
    (alt (cat (lit (ch "0")) (crange (ch "1") (ch "9")))
    (alt (crange (ch "1") (ch "9"))
         (cat (lit (ch " ")) (crange (ch "1") (ch "9")))))))
  else if d =? ch "H" then Some
    (alt (cat (lit (ch "2")) (crange (ch "0") (ch "3")))
    (alt (cat (crange (ch "0") (ch "1")) digit) digit))
  else if (d =? ch "I") || (d =? ch "m") then Some
    (alt (cat (lit (ch "1")) (crange (ch "0") (ch "2")))
    (alt (cat (lit (ch "0")) (crange (ch "1") (ch "9"))) (crange (ch "1") (ch "9"))))
  else if d =? ch "M" then Some
    (alt (cat (crange (ch "0") (ch "5")) digit) digit)
  else if d =? ch "S" then Some
    (alt (cat (lit (ch "6")) (crange (ch "0") (ch "1")))
    (alt (cat (crange (ch "0") (ch "5")) digit) digit))
  else if d =? ch "y" then Some (cat digit digit)
  else if d =? ch "Y" then Some (cat digit (cat digit (cat digit digit)))
  else if d =? ch "p" then Some
    (alt (cat (lit_ci (ch "a")) (lit_ci (ch "m"))) (cat (lit_ci (ch "p")) (lit_ci (ch "m"))))
  else None.

(** A token matcher yields the captured groups (directive, text). *)
Definition tok_re (t : fmt_tok) : RP (list (Z * pystr)) :=
  match t with
  | Dir d => match directive_re d with
             | Some p => fun s => map (fun '(txt, r) => ([(d, txt)], r)) (p s)
             | None => fun _ => []
             end
  | FLit c => fun s => map (fun '(_, r) => ([], r)) (lit c s)
  | FWs => fun s => map (fun '(_, r) => ([], r)) (plus space s)
  end.

Fixpoint fmt_re (ts : list fmt_tok) : RP (list (Z * pystr)) :=
  match ts with
  | [] => fun s => [([], s)]
  | t :: ts' =>
    fun s => flat_map (fun '(cap, r) =>
               map (fun '(caps, r') => (cap ++ caps, r')) (fmt_re ts' r)) (tok_re t s)
  end.

Fixpoint lookup_cap (k : Z) (caps : list (Z * pystr)) : option pystr :=
  match caps with
  | [] => None
  | (k', v) :: r => if k' =? k then Some v else lookup_cap k r
  end.

(** The fields computed from the groups, in group order; absent fields keep
    their defaults (year 1900, month 1, day 1, time 00:00:00). *)
Record fields := mkfields { f_year : Z; f_month : Z; f_day : Z;
                            f_hour : Z; f_minute : Z; f_second : Z }.

Definition default_fields := mkfields 1900 1 1 0 0 0.

Definition apply_group (caps : list (Z * pystr)) (acc : option fields)
           (g : Z * pystr) : option fields :=
  match acc with
  | None => None
  | Some f =>
    let '(k, txt) := g in
    if k =? ch "p" then Some f else
    match py_int txt with
    | None => None
    | Some v =>
      if k =? ch "y" then
        Some (mkfields (if v <=? 68 then v + 2000 else v + 1900)
                       (f_month f) (f_day f) (f_hour f) (f_minute f) (f_second f))
      else if k =? ch "Y" then
        Some (mkfields v (f_month f) (f_day f) (f_hour f) (f_minute f) (f_second f))
      else if k =? ch "m" then
        Some (mkfields (f_year f) v (f_day f) (f_hour f) (f_minute f) (f_second f))
      else if k =? ch "d" then
        Some (mkfields (f_year f) (f_month f) v (f_hour f) (f_minute f) (f_second f))
      else if k =? ch "H" then
        Some (mkfields (f_year f) (f_month f) (f_day f) v (f_minute f) (f_second f))
      else if k =? ch "I" then
        let ampm := match lookup_cap (ch "p") caps with
                    | Some t => py_lower t | None => [] end in
        let h := if str_eqb ampm [] || str_eqb ampm (str "am")
                 then (if v =? 12 then 0 else v)
                 else if str_eqb ampm (str "pm")
                 then (if v =? 12 then v else v + 12)
                 else v in
        Some (mkfields (f_year f) (f_month f) (f_day f) h (f_minute f) (f_second f))
      else if k =? ch "M" then
        Some (mkfields (f_year f) (f_month f) (f_day f) (f_hour f) v (f_second f))
      else if k =? ch "S" then
        Some (mkfields (f_year f) (f_month f) (f_day f) (f_hour f) (f_minute f) v)
      else Some f
    end
  end.

(** [datetime.strptime(data, fmt)]; [None] stands for the [ValueError]. *)
Definition strptime (data fmt : pystr) : option datetime :=
  match re_match (fmt_re (fmt_tokens fmt)) data with
  | None => None
  | Some (caps, rest) =>
    match rest with
    | _ :: _ => None
    | [] =>
      match fold_left (apply_group caps) caps (Some default_fields) with
      | None => None
      | Some f =>
        let d := mkdatetime (f_year f) (f_month f) (f_day f)
                            (f_hour f) (f_minute f) (f_second f) in
        if valid d then Some d else None
      end
    end
  end.

End Strptime.

(** ** [services/parser.py]: [WhatsAppParser] *)

Module Parser.
Import PyStr Re DateTime Strptime.

(** [self.date_patterns], each with its two groups (date, time). *)
Definition digits (mn mx : nat) : RP pystr := rep digit mn mx.

Definition date_pattern_1 : RP (pystr * pystr) :=
  (* \[(\d{1,2}/\d{1,2}/\d{2,4}),?\s*(\d{1,2}:\d{2}:\d{2}?\s*(?:AM|PM)?)\] *)
  groups2 (lit (ch "["))
    (cat (digits 1 2) (cat (lit (ch "/")) (cat (digits 1 2) (cat (lit (ch "/")) (digits 2 4)))))
    (cat (opt (lit (ch ","))) (star space))
    (cat (digits 1 2) (cat (lit (ch ":")) (cat (digits 2 2) (cat (lit (ch ":"))
      (cat (digits 2 2) (cat (star space) (opt (alt (word (str "AM")) (word (str "PM"))))))))))
    (lit (ch "]")).

Definition date_pattern_2 : RP (pystr * pystr) :=
  (* \[(\d{1,2}/\d{1,2}/\d{2,4}),?\s*(\d{1,2}:\d{2})\] *)
  groups2 (lit (ch "["))
    (cat (digits 1 2) (cat (lit (ch "/")) (cat (digits 1 2) (cat (lit (ch "/")) (digits 2 4)))))
    (cat (opt (lit (ch ","))) (star space))
    (cat (digits 1 2) (cat (lit (ch ":")) (digits 2 2)))
    (lit (ch "]")).

Definition date_pattern_3 : RP (pystr * pystr) :=
  (* \[(\d{4}-\d{2}-\d{2})\s*(\d{2}:\d{2}:\d{2})\] *)
  groups2 (lit (ch "["))
    (cat (digits 4 4) (cat (lit (ch "-")) (cat (digits 2 2) (cat (lit (ch "-")) (digits 2 2)))))
    (star space)
    (cat (digits 2 2) (cat (lit (ch ":")) (cat (digits 2 2) (cat (lit (ch ":")) (digits 2 2)))))
    (lit (ch "]")).

Definition date_patterns : list (RP (pystr * pystr)) :=
  [date_pattern_1; date_pattern_2; date_pattern_3].

(** [self.system_messages]. *)
Definition system_messages : list pystr :=
  [str "Messages and calls are end-to-end encrypted";
   str "created group";
   str "added";
   str "removed";
   str "left";
   str "changed the group description";
   str "changed this group's icon"].

(** The [formats] of [_parse_timestamp]. *)
Definition timestamp_formats : list pystr :=
  [str "%m/%d/%Y, %I:%M:%S %p";
   str "%m/%d/%Y, %I:%M %p";
   str "%m/%d/%y, %I:%M:%S %p";
   str "%m/%d/%y, %I:%M %p";
   str "%d/%m/%Y, %H:%M:%S";
   str "%d/%m/%Y, %H:%M";
   str "%Y-%m-%d %H:%M:%S";
   str "%m/%d/%y %I:%M:%S %p";
   str "%m/%d/%Y %I:%M:%S %p";
   str "%m/%d/%y %I:%M %p";
   str "%m/%d/%Y %I:%M %p"].

(** [_parse_timestamp]: the first format that parses. *)
Fixpoint first_parse (fmts : list pystr) (ts : pystr) : option datetime :=
  match fmts with
  | [] => None
  | f :: fs => match strptime ts f with
               | Some d => Some d
               | None => first_parse fs ts
               end
  end.

Definition parse_timestamp (timestamp_str : pystr) : option datetime :=
  first_parse timestamp_formats timestamp_str.

Inductive message_type := Text | Media | System | Deleted.

Definition is_system_text (content : pystr) : bool :=
  existsb (fun sys_msg => is_substring sys_msg (py_lower content)) system_messages.

(** [_determine_message_type]. *)
Definition determine_message_type (content : pystr) : message_type :=
  if is_system_text content then System
  else if is_substring (str "<Media omitted>") content
          || is_substring (str "image omitted") (py_lower content) then Media
  else if is_substring (str "This message was deleted") content then Deleted
  else Text.

(** [_has_emoji]: the character class of [emoji_pattern]. *)
Definition emoji_class (c : Z) : bool :=
  ((128512 <=? c) && (c <=? 128591)) ||   (* U+1F600..U+1F64F *)
  ((127744 <=? c) && (c <=? 128511)) ||   (* U+1F300..U+1F5FF *)
  ((128640 <=? c) && (c <=? 128767)) ||   (* U+1F680..U+1F6FF *)
  ((127456 <=? c) && (c <=? 127487)) ||   (* U+1F1E0..U+1F1FF *)
  ((9986 <=? c) && (c <=? 10160)) ||      (* U+2702..U+27B0 *)
  ((9410 <=? c) && (c <=? 127569)).       (* U+24C2..U+1F251 *)

Definition has_emoji (text : pystr) : bool := re_search_bool (plus (chr_if emoji_class)) text.

(** [_has_link]:
    [http[s]?://(?:[a-zA-Z]|[0-9]|[$-_@.&+]|[!*\\(\\),]|(?:%[0-9a-fA-F][0-9a-fA-F]))+] *)
Definition hex_digit : RP pystr :=
  alt (crange (ch "0") (ch "9")) (alt (crange (ch "a") (ch "f")) (crange (ch "A") (ch "F"))).

Definition link_atom : RP pystr :=
  alt (alt (crange (ch "a") (ch "z")) (crange (ch "A") (ch "Z")))
  (alt (crange (ch "0") (ch "9"))
  (alt (chr_if (fun c => ((36 <=? c) && (c <=? 95)) || (c =? 64) || (c =? 46) || (c =? 38) || (c =? 43)))
  (alt (chr_if (fun c => (c =? 33) || (c =? 42) || (c =? 92) || (c =? 40) || (c =? 41) || (c =? 44)))
       (cat (lit (ch "%")) (cat hex_digit hex_digit))))).

Definition link_pattern : RP pystr :=
  cat (word (str "http")) (cat (opt (lit (ch "s"))) (cat (word (str "://")) (plus link_atom))).

Definition has_link (text : pystr) : bool := re_search_bool link_pattern text.

(** The dictionary built by [_parse_message_line]. *)
Record parsed_message := mkmsg {
  timestamp : datetime;
  participant : pystr;
  content : pystr;
  msg_type : message_type;
  char_count : Z;
  word_count : Z;
  msg_has_emoji : bool;
  msg_has_link : bool }.

(** [_parse_message_line]: the loop over [self.date_patterns]; a [continue]
    and a failed [':' in remaining] test both move on to the next pattern. *)
Fixpoint try_patterns (pats : list (RP (pystr * pystr))) (line : pystr)
  : option parsed_message :=
  match pats with
  | [] => None
  | pattern :: rest_pats =>
    match re_match pattern line with
    | None => try_patterns rest_pats line
    | Some ((date_str, time_str), after) =>
      let timestamp_str := date_str ++ [32] ++ time_str in
      let remaining := strip after in
      match index_of (ch ":") remaining with
      | None => try_patterns rest_pats line
      | Some first_colon =>
        let participant := strip (firstn first_colon remaining) in
        let message_content := strip (skipn (S first_colon) remaining) in
        match parse_timestamp timestamp_str with
        | None => try_patterns rest_pats line
        | Some ts =>
          if is_system_text message_content then try_patterns rest_pats line
          else Some (mkmsg ts participant message_content
                           (determine_message_type message_content)
                           (Z.of_nat (List.length message_content))
                           (Z.of_nat (List.length (split_ws message_content)))
                           (has_emoji message_content)
                           (has_link message_content))
        end
      end
    end
  end.

Definition parse_message_line (line : pystr) : option parsed_message :=
  try_patterns date_patterns line.

(** [str.replace(old, new)] for a non-empty [old]. *)
Fixpoint replace_aux (fuel : nat) (old new s : pystr) : pystr :=
  match fuel with
  | O => s
  | S f =>
    match s with
    | [] => []
    | c :: r => if prefixb old s then new ++ replace_aux f old new (skipn (List.length old) s)
                else c :: replace_aux f old new r
    end
  end.

Definition replace (old new s : pystr) : pystr := replace_aux (S (List.length s)) old new s.

(** The dictionary returned by [parse_chat].  [participants] is
    [list(set)]: Python gives no order; the model keeps first-insertion
    order and the properties below speak only of membership. *)
Record parsed_chat := mkchat {
  title : pystr;
  messages : list parsed_message;
  participants : list pystr;
  date_range_start : option datetime;
  date_range_end : option datetime }.

Definition set_add (x : pystr) (s : list pystr) : list pystr :=
  if existsb (str_eqb x) s then s else s ++ [x].

(** The loop state: [messages], [participants], [date_range]. *)
Definition parse_step (st : list parsed_message * list pystr * list datetime) (raw : pystr)
  : list parsed_message * list pystr * list datetime :=
  let '(msgs, parts, dates) := st in
  let line := strip raw in
  match line with
  | [] => st
  | _ => match parse_message_line line with
         | Some md => (msgs ++ [md], set_add (participant md) parts, dates ++ [timestamp md])
         | None => st
         end
  end.

Definition parse_chat (bytes : list Z) (filename : pystr) : parsed_chat :=
  let text_content := Utf8.decode_ignore bytes in
  let lines := split_on 10 text_content in
  let '(msgs, parts, dates) := fold_left parse_step lines ([], [], []) in
  mkchat (replace (str "_") (str " ") (replace (str ".txt") [] filename))
         msgs parts
         (match dates with [] => None | d :: ds => Some (py_min d ds) end)
         (match dates with [] => None | d :: ds => Some (py_max d ds) end).

End Parser.

(** ** Python runtime pieces used by the analytics *)

Module Py.
Import PyStr.

Inductive py_error :=
| ValueError (msg : pystr)
| UnboundLocalError (name : pystr)
| AttributeError (msg : pystr).

Inductive result (A : Type) := Ok (a : A) | Err (e : py_error).
Arguments Ok {A} a.
Arguments Err {A} e.

Definition bind {A B} (r : result A) (f : A -> result B) : result B :=
  match r with Ok a => f a | Err e => Err e end.

(** Round half to even of [n / d] for [d > 0]. *)
Definition round_half_even (n d : Z) : Z :=
  let q := n / d in
  let r := n - q * d in
  if 2 * r <? d then q else if d <? 2 * r then q + 1
  else if Z.even q then q else q + 1.

(** [n / d] on the scale [2 ^ e]: the pair (numerator, denominator) of
    [n / (d * 2 ^ e)]. *)
Definition scale2 (n d e : Z) : Z * Z :=
  if 0 <=? e then (n, d * 2 ^ e) else (n * 2 ^ (- e), d).

(** The IEEE double nearest to [p / q] ([p, q > 0]), as [m * 2 ^ e] with a
    53-bit mantissa [m]: the float division [p / q]. *)
Definition to_double (p q : Z) : Z * Z :=
  let s := Z.log2 p - Z.log2 q in
  let '(n0, d0) := scale2 p q s in
  let ex := (if d0 <=? n0 then s else s - 1) - 52 in
  let '(n, d) := scale2 p q ex in
  (round_half_even n d, ex).

(** [round(p / q, 1)] for integers [p >= 0], [q > 0], in tenths: the
    double [p / q] rounded half-even on its exact value to one decimal. *)
Definition round1_div (p q : Z) : Z :=
  if p <=? 0 then 0 else
  let '(m, ex) := to_double p q in
  if 0 <=? ex then m * 10 * 2 ^ ex else round_half_even (m * 10) (2 ^ (- ex)).

(** [defaultdict] as an association list in insertion order. *)
Fixpoint dd_get {V} (dflt : V) (k : pystr) (d : list (pystr * V)) : V :=
  match d with
  | [] => dflt
  | (k', v) :: r => if str_eqb k' k then v else dd_get dflt k r
  end.

Fixpoint dd_update {V} (dflt : V) (k : pystr) (f : V -> V) (d : list (pystr * V))
  : list (pystr * V) :=
  match d with
  | [] => [(k, f dflt)]
  | (k', v) :: r => if str_eqb k' k then (k', f v) :: r else (k', v) :: dd_update dflt k f r
  end.

(** Stable sort, [sorted(xs, key=key, reverse=True)]: an element is
    inserted after every element whose key is not smaller. *)
Fixpoint insert_desc {A} (key : A -> Z) (x : A) (l : list A) : list A :=
  match l with
  | [] => [x]
  | y :: r => if key x <=? key y then y :: insert_desc key x r else x :: l
  end.

Definition sort_desc {A} (key : A -> Z) (l : list A) : list A :=
  fold_left (fun acc x => insert_desc key x acc) l [].

(** [sorted(xs)] on integers. *)
Fixpoint insert_asc (x : Z) (l : list Z) : list Z :=
  match l with
  | [] => [x]
  | y :: r => if y <=? x then y :: insert_asc x r else x :: l
  end.

Definition sort_asc (l : list Z) : list Z := fold_left (fun acc x => insert_asc x acc) l [].

Definition sum_Z (l : list Z) : Z := fold_right Z.add 0 l.

End Py.

(** ** [get_interaction_metrics] ([ExtendedChatAnalyzer], identical in
    [ChatAnalyzer]) over the rows of its query, ordered by timestamp. *)

Module Interaction.
Import PyStr DateTime Py.

Record row := mkrow { r_timestamp : datetime; sender : pystr; r_content : pystr }.

(** A long pause; [duration_hours] is [round(time_diff / 3600, 1)] in tenths
    of an hour, [before]/[after] the two timestamps (their [isoformat()]). *)
Record pause := mkpause {
  duration_hours : Z; before : datetime; after : datetime; restarted_by : pystr }.

Record response_stat := mkstat {
  rs_name : pystr; avg_seconds : Z; median_seconds : Z; response_count : Z }.

Record metrics := mkmetrics {
  response_times : list response_stat;
  conversation_starters : list (pystr * Z);
  longest_pauses : list pause }.

(** Loop state: [response_times], [conversation_starters], [pauses],
    [prev_message]. *)
Definition loop_state := (list (pystr * list Z) * list (pystr * Z) * list pause * row)%type.

Definition time_diff (prev cur : row) : Z := total_seconds (r_timestamp cur) (r_timestamp prev).

Definition step (st : loop_state) (current : row) : loop_state :=
  let '(rts, starters, pauses, prev) := st in
  let td := time_diff prev current in
  let rts' :=
    if negb (str_eqb (sender current) (sender prev)) && (td <? 3600) && (td >? 0)
    then dd_update [] (sender current) (fun times => times ++ [td]) rts
    else rts in
  let '(pauses', starters') :=
    if td >? 14400
    then (pauses ++ [mkpause (round1_div td 3600) (r_timestamp prev) (r_timestamp current)
                            (sender current)],
          dd_update 0 (sender current) (Z.add 1) starters)
    else (pauses, starters) in
  (rts', starters', pauses', current).

(** The loop over [messages[1:]], started from [messages[0]]. *)
Definition run_loop (first : row) (rest : list row) : loop_state :=
  fold_left step rest ([], dd_update 0 (sender first) (Z.add 1) [], [], first).

Definition summarize (rt : pystr * list Z) : response_stat :=
  let '(name, times) := rt in
  let n := Z.of_nat (List.length times) in
  mkstat name (round1_div (sum_Z times) n)
         (10 * nth (Nat.div (List.length times) 2) (sort_asc times) 0) n.

Definition get_interaction_metrics (messages : list row) : metrics :=
  match messages with
  | first :: ((_ :: _) as rest) =>
    let '(rts, starters, pauses, _) := run_loop first rest in
    mkmetrics (map summarize (filter (fun '(_, times) => match times with [] => false | _ => true end) rts))
              (sort_desc snd starters)
              (firstn 10 (sort_desc duration_hours pauses))
  | _ => mkmetrics [] [] []
  end.

(** The pauses recorded by the loop, before sorting and truncation. *)
Definition recorded_pauses (messages : list row) : list pause :=
  match messages with
  | first :: ((_ :: _) as rest) => let '(_, _, pauses, _) := run_loop first rest in pauses
  | _ => []
  end.

Definition recorded_response_times (messages : list row) : list (pystr * list Z) :=
  match messages with
  | first :: ((_ :: _) as rest) => let '(rts, _, _, _) := run_loop first rest in rts
  | _ => []
  end.

Definition recorded_starters (messages : list row) : list (pystr * Z) :=
  match messages with
  | first :: ((_ :: _) as rest) => let '(_, starters, _, _) := run_loop first rest in starters
  | _ => []
  end.

End Interaction.

(** ** SQL aggregation over the stored messages (SQLite)

    [GROUP BY] yields one row per distinct key with its [count()]; SQL does
    not fix the order of the groups, so the analytics are stated for any
    permutation of [group_count]. *)

Module Sql.
Import PyStr DateTime.

Fixpoint group_incr {K} (eqb : K -> K -> bool) (k : K) (g : list (K * Z)) : list (K * Z) :=
  match g with
  | [] => [(k, 1)]
  | (k', c) :: r => if eqb k' k then (k', c + 1) :: r else (k', c) :: group_incr eqb k r
  end.

Definition group_count {K} (eqb : K -> K -> bool) (keys : list K) : list (K * Z) :=
  fold_left (fun g k => group_incr eqb k g) keys [].

(** [strftime('%w', ts)]: day of week, Sunday = 0 (0001-01-01, ordinal 1,
    is a Monday). *)
Definition strftime_w (d : datetime) : Z := toordinal d mod 7.

(** [strftime('%H', ts)]. *)
Definition strftime_H (d : datetime) : Z := hour d.

Definition pair_eqb (a b : Z * Z) : bool := (fst a =? fst b) && (snd a =? snd b).

End Sql.

(** ** [get_hourly_activity_heatmap] ([ExtendedChatAnalyzer]; the
    [get_activity_heatmap] of [ChatAnalyzer] fills its matrix the same way
    and returns no [max_count]) *)

Module Heatmap.
Import PyStr DateTime Py Sql.

(** The rows of the query: ((day_of_week, hour), count). *)
Definition heatmap_groups (timestamps : list datetime) : list ((Z * Z) * Z) :=
  group_count pair_eqb (map (fun d => (strftime_w d, strftime_H d)) timestamps).

(** Python list indexing [l[i]] and assignment [l[i] = v]: negative indices
    count from the end, anything else out of range is an [IndexError]
    ([None]). *)
Definition py_index (n i : Z) : option nat :=
  if (0 <=? i) && (i <? n) then Some (Z.to_nat i)
  else if (- n <=? i) && (i <? 0) then Some (Z.to_nat (n + i))
  else None.

Fixpoint set_nth {A} (l : list A) (k : nat) (v : A) : list A :=
  match l, k with
  | [], _ => []
  | _ :: r, O => v :: r
  | x :: r, S k' => x :: set_nth r k' v
  end.

Definition set_cell (m : list (list Z)) (i j v : Z) : option (list (list Z)) :=
  match py_index (Z.of_nat (List.length m)) i with
  | None => None
  | Some i' =>
    let row := nth i' m [] in
    match py_index (Z.of_nat (List.length row)) j with
    | None => None
    | Some j' => Some (set_nth m i' (set_nth row j' v))
    end
  end.

Definition day_names : list pystr :=
  map str ["Sunday"; "Monday"; "Tuesday"; "Wednesday"; "Thursday"; "Friday"; "Saturday"]%string.

(** [f"{h:02d}:00"] for [h] in [range(24)]. *)
Definition hour_label (h : nat) : pystr :=
  [48 + Z.of_nat (Nat.div h 10); 48 + Z.of_nat (Nat.modulo h 10)] ++ str ":00".

Record heatmap := mkheatmap {
  days : list pystr; hours : list pystr; data : list (list Z); max_count : Z }.

Definition zero_matrix : list (list Z) := repeat (repeat 0 24) 7.

Definition fill_step (st : option (list (list Z) * Z)) (row : (Z * Z) * Z)
  : option (list (list Z) * Z) :=
  match st with
  | None => None
  | Some (m, mx) =>
    let '((day_idx, hour_idx), count) := row in
    match set_cell m day_idx hour_idx count with
    | None => None
    | Some m' => Some (m', Z.max mx count)
    end
  end.

(** [None] is the [IndexError] of an out-of-range cell. *)
Definition get_hourly_activity_heatmap (rows : list ((Z * Z) * Z)) : option heatmap :=
  match fold_left fill_step rows (Some (zero_matrix, 0)) with
  | None => None
  | Some (m, mx) => Some (mkheatmap day_names (map hour_label (seq 0 24)) m mx)
  end.

(** The cell [matrix[d][h]]. *)
Definition cell (m : list (list Z)) (d h : nat) : Z := nth h (nth d m []) 0.

Definition matrix_sum (m : list (list Z)) : Z := sum_Z (map sum_Z m).

End Heatmap.

(** ** Timeline bucketing: [ChatAnalyzer.get_timeline_data] and
    [ExtendedChatAnalyzer.get_activity_over_time] *)

Module Timeline.
Import PyStr DateTime Py Sql.

(** [n] printed in decimal with at least [w] digits ([%02d], [%04d]). *)
Definition zero_pad (w : nat) (n : Z) : pystr :=
  map (fun k => 48 + (n / 10 ^ Z.of_nat k) mod 10) (rev (seq 0 w)).

Definition day_of_year (d : datetime) : Z :=
  toordinal d - toordinal (mkdatetime (year d) 1 1 0 0 0).

(** SQLite's [strftime] directives used by the queries: [%Y %m %d %H %w
    %U %W]; any other character is copied. *)
Fixpoint sqlite_strftime (fmt : pystr) (d : datetime) : pystr :=
  match fmt with
  | [] => []
  | c :: r =>
    if c =? 37 then
      match r with
      | [] => [c]
      | k :: r' =>
        let piece :=
          if k =? 89 then zero_pad 4 (year d)                                 (* %Y *)
          else if k =? 109 then zero_pad 2 (month d)                          (* %m *)
          else if k =? 100 then zero_pad 2 (day d)                            (* %d *)
          else if k =? 72 then zero_pad 2 (hour d)                            (* %H *)
          else if k =? 119 then zero_pad 1 (strftime_w d)                     (* %w *)
          else if k =? 85 then zero_pad 2 ((day_of_year d - strftime_w d + 7) / 7)  (* %U *)
          else if k =? 87 then
            zero_pad 2 ((day_of_year d - (toordinal d + 6) mod 7 + 7) / 7)   (* %W *)
          else [c; k] in
        piece ++ sqlite_strftime r' d
      end
    else c :: sqlite_strftime r d
  end.

Fixpoint str_ltb (a b : pystr) : bool :=
  match a, b with
  | [], _ :: _ => true
  | x :: a', y :: b' => (x <? y) || ((x =? y) && str_ltb a' b')
  | _, _ => false
  end.

Fixpoint insert_by_key (x : pystr * Z) (l : list (pystr * Z)) : list (pystr * Z) :=
  match l with
  | [] => [x]
  | y :: r => if str_ltb (fst x) (fst y) then x :: l else y :: insert_by_key x r
  end.

(** A grouping query: the [strftime] format of its key ([func.date] is
    [%Y-%m-%d]). *)
Record stmt := mkstmt { group_fmt : pystr }.

(** [GROUP BY key ORDER BY key] with [count()]. *)
Definition execute (s : stmt) (timestamps : list datetime) : list (pystr * Z) :=
  fold_left (fun acc g => insert_by_key g acc)
    (group_count str_eqb (map (sqlite_strftime (group_fmt s)) timestamps)) [].

Definition first_last (timestamps : list datetime) : option datetime * option datetime :=
  match timestamps with
  | [] => (None, None)
  | t :: ts => (Some (py_min t ts), Some (py_max t ts))
  end.

(** [ChatAnalyzer.get_timeline_data]. *)
Definition get_timeline_data (timestamps : list datetime) (granularity : pystr)
  : result (list (pystr * Z)) :=
  if str_eqb granularity (str "daily") || str_eqb granularity (str "weekly")
     || str_eqb granularity (str "monthly") then
    let time_group :=
      if str_eqb granularity (str "daily") then mkstmt (str "%Y-%m-%d")
      else if str_eqb granularity (str "weekly") then mkstmt (str "%Y-W%U")
      else mkstmt (str "%Y-%m") in
    Ok (execute time_group timestamps)
  else Err (ValueError (str "Granularity must be 'daily', 'weekly', or 'monthly'")).

Record activity := mkactivity {
  period : pystr; act_data : list (pystr * Z);
  first_message : option datetime; last_message : option datetime }.

(** [ExtendedChatAnalyzer.get_activity_over_time]: [stmt] is assigned only
    in the three branches; reading it unassigned raises
    [UnboundLocalError]. *)
Definition get_activity_over_time (timestamps : list datetime) (period : pystr)
  : result activity :=
  let stmt_local : option stmt :=
    if str_eqb period (str "daily") then Some (mkstmt (str "%Y-%m-%d"))
    else if str_eqb period (str "weekly") then Some (mkstmt (str "%Y-W%W"))
    else if str_eqb period (str "monthly") then Some (mkstmt (str "%Y-%m"))
    else None in
  match stmt_local with
  | None => Err (UnboundLocalError (str "stmt"))
  | Some s =>
    let time_data := execute s timestamps in
    let '(fst_ts, lst_ts) := first_last timestamps in
    Ok (mkactivity period time_data fst_ts lst_ts)
  end.

End Timeline.

(** ** [ChatAnalyzer.get_word_frequency] *)

Module WordFrequency.
Import PyStr Py.

Definition stop_words : list pystr :=
  map str ["the"; "and"; "or"; "but"; "in"; "on"; "at"; "to"; "for"; "of"; "with";
    "by"; "from"; "up"; "about"; "into"; "through"; "during"; "before";
    "after"; "above"; "below"; "between"; "among"; "throughout"; "despite";
    "towards"; "upon"; "concerning"; "a"; "an"; "as"; "are"; "was"; "were";
    "been"; "be"; "have"; "has"; "had"; "do"; "does"; "did"; "will"; "would";
    "should"; "could"; "can"; "cannot"; "may"; "might"; "must"; "shall";
    "is"; "am"; "it"; "this"; "that"; "these"; "those"; "i"; "you"; "he";
    "she"; "we"; "they"; "me"; "him"; "her"; "us"; "them"; "my"; "your";
    "his"; "her"; "its"; "our"; "their"; "mine"; "yours"; "hers"; "ours";
    "theirs"; "myself"; "yourself"; "himself"; "herself"; "itself";
    "ourselves"; "yourselves"; "themselves"]%string.

(** The attributes of a [ChatAnalyzer] instance: those set in [__init__]
    and the methods of the class body ([object]'s own attributes aside). *)
Definition chat_analyzer_attributes : list pystr :=
  map str ["session"; "extended"; "stop_words"; "__init__";
    "get_comprehensive_analysis"; "get_basic_stats"; "get_participant_statistics";
    "get_timeline_data"; "get_word_frequency"; "get_activity_heatmap";
    "get_activity_patterns"; "get_conversation_insights"; "get_activity_over_time";
    "get_hourly_activity_heatmap"; "get_user_statistics"; "get_content_analysis";
    "get_interaction_metrics"; "get_user_word_clouds"; "_get_all_messages"]%string.

(** [self._extract_words]: the name is not among
    [chat_analyzer_attributes], so the attribute lookup raises. *)
Definition lookup_extract_words : result (pystr -> list pystr) :=
  Err (AttributeError (str "'ChatAnalyzer' object has no attribute '_extract_words'")).

(** [len(word) > 2 and word.lower() not in self.stop_words]. *)
Definition keep_word (w : pystr) : bool :=
  Z.ltb 2 (Z.of_nat (List.length w)) && negb (existsb (str_eqb (py_lower w)) stop_words).

(** [Counter.update] with a list of words. *)
Definition counter_update (c : list (pystr * Z)) (ws : list pystr) : list (pystr * Z) :=
  fold_left (fun acc w => dd_update 0 w (Z.add 1) acc) ws c.

(** [Counter.most_common(n)]: [sorted(items, key=count, reverse=True)[:n]]. *)
Definition most_common (n : Z) (c : list (pystr * Z)) : list (pystr * Z) :=
  firstn (Z.to_nat n) (sort_desc snd c).

(** An entry; [frequency] is the exact quotient [count / total] (Python
    stores the nearest float). *)
Record entry := mkentry { word : pystr; count : Z; frequency : Q }.

Definition entries (limit : Z) (c : list (pystr * Z)) : list entry :=
  let total := sum_Z (map snd c) in
  map (fun '(w, n) => mkentry w n (match c with [] => 0%Q | _ => (inject_Z n / inject_Z total)%Q end))
      (most_common limit c).

(** The query yields the contents of the TEXT messages of the chat. *)
Definition get_word_frequency (messages : list (pystr * Parser.message_type)) (limit : Z)
  : result (list entry) :=
  let contents := map fst (filter (fun '(_, t) =>
                    match t with Parser.Text => true | _ => false end) messages) in
  let counted :=
    fold_left (fun acc message_content =>
                 bind acc (fun counter =>
                 bind lookup_extract_words (fun extract =>
                 Ok (counter_update counter (filter keep_word (extract message_content))))))
              contents (Ok []) in
  bind counted (fun counter => Ok (entries limit counter)).

End WordFrequency.

(** ** Python dictionaries with string keys *)

Module Dict.
Import PyStr.

(** [d[k] = v]: an existing key keeps its position. *)
Fixpoint dict_set {V} (k : pystr) (v : V) (d : list (pystr * V)) : list (pystr * V) :=
  match d with
  | [] => [(k, v)]
  | (k', v') :: r => if str_eqb k' k then (k', v) :: r else (k', v') :: dict_set k v r
  end.

(** [d[k]]; [None] is the [KeyError]. *)
Fixpoint dict_get {V} (k : pystr) (d : list (pystr * V)) : option V :=
  match d with
  | [] => None
  | (k', v) :: r => if str_eqb k' k then Some v else dict_get k r
  end.

End Dict.

(** ** [WhatsAppParser.store_chat_data] and [upload_chat_file]
    ([api/upload.py])

    The primary keys come from [uuid4] when a row object is built; the model
    draws them from a counter, so every row gets a fresh key.  The session
    is the list of rows added before [commit]. *)

Module Store.
Import PyStr DateTime Parser Dict.

Record participant_row := mkprow {
  p_id : Z; p_chat_id : Z; p_name : pystr; p_message_count : Z }.

Record message_row := mkmrow {
  m_id : Z; m_chat_id : Z; m_participant_id : Z; m_content : pystr;
  m_timestamp : datetime; m_type : message_type; m_char_count : Z; m_word_count : Z;
  m_has_emoji : bool; m_has_link : bool }.

(** [sum(1 for msg in chat_data["messages"] if msg["participant"] == participant_name)]. *)
Definition message_count_of (msgs : list parsed_message) (participant_name : pystr) : Z :=
  Z.of_nat (List.length (filter (fun msg => str_eqb (participant msg) participant_name) msgs)).

(** The participants loop: the rows added and [participant_map]. *)
Definition store_participants (chat_id : Z) (chat_data : parsed_chat) (next_id : Z)
  : list participant_row * list (pystr * Z) * Z :=
  fold_left (fun st participant_name =>
               let '(rows, participant_map, nid) := st in
               (rows ++ [mkprow nid chat_id participant_name
                                (message_count_of (messages chat_data) participant_name)],
                dict_set participant_name nid participant_map, nid + 1))
            (participants chat_data) ([], [], next_id).

(** The messages loop; [inl k] is the [KeyError] of [participant_map[k]]. *)
Fixpoint store_messages (chat_id : Z) (participant_map : list (pystr * Z))
         (msgs : list parsed_message) (nid : Z) : (pystr + list message_row)%type :=
  match msgs with
  | [] => inr []
  | msg_data :: r =>
    match dict_get (participant msg_data) participant_map with
    | None => inl (participant msg_data)
    | Some pid =>
      match store_messages chat_id participant_map r (nid + 1) with
      | inl k => inl k
      | inr rows =>
        inr (mkmrow nid chat_id pid (content msg_data) (timestamp msg_data)
                    (msg_type msg_data) (char_count msg_data) (word_count msg_data)
                    (msg_has_emoji msg_data) (msg_has_link msg_data) :: rows)
      end
    end
  end.

(** [store_chat_data]: the participant and message rows committed, or the
    [KeyError]. *)
Definition store_chat_data (chat_id : Z) (chat_data : parsed_chat) (next_id : Z)
  : (pystr + (list participant_row * list message_row))%type :=
  let '(prows, participant_map, nid) := store_participants chat_id chat_data next_id in
  match store_messages chat_id participant_map (messages chat_data) nid with
  | inl k => inl k
  | inr mrows => inr (prows, mrows)
  end.

Record chat_row := mkchatrow {
  c_id : Z; c_title : pystr; c_file_name : pystr; c_file_size : Z;
  c_participant_count : Z; c_message_count : Z;
  c_date_range_start : option datetime; c_date_range_end : option datetime }.

Inductive upload_error :=
| HTTPException (status_code : Z) (detail : pystr)
| KeyError (key : pystr).

(** [s.endswith(suffix)]. *)
Definition endswith (suffix s : pystr) : bool := prefixb (rev suffix) (rev s).

(** [upload_chat_file]: the [Chat] row (its key drawn first), then the rows
    of [store_chat_data]; the response's [stats] are the chat row's
    [participant_count], [message_count] and [file_size].  [parse_chat]
    raises nothing, so its [except] clause is never taken. *)
Definition upload_chat_file (filename : pystr) (file_content : list Z) (next_id : Z)
  : (upload_error + (chat_row * list participant_row * list message_row))%type :=
  if negb (endswith (str ".txt") filename || endswith (str ".zip") filename)
  then inl (HTTPException 400 (str "Only .txt and .zip files are supported"))
  else
    let chat_data := parse_chat file_content filename in
    let chat := mkchatrow next_id (title chat_data) filename
                  (Z.of_nat (List.length file_content))
                  (Z.of_nat (List.length (participants chat_data)))
                  (Z.of_nat (List.length (messages chat_data)))
                  (date_range_start chat_data) (date_range_end chat_data) in
    match store_chat_data (c_id chat) chat_data (next_id + 1) with
    | inl k => inl (KeyError k)
    | inr (prows, mrows) => inr (chat, prows, mrows)
    end.

End Store.

(** ** Emoji counting: [re.findall] with the emoji pattern of
    [get_user_statistics] ([ChatAnalyzer]) and
    [_get_emoji_usage_per_user] ([ExtendedChatAnalyzer]) *)

Module Emoji.
Import PyStr Re Parser Dict.

(** [re.findall(p, s)] for a pattern without groups that never matches the
    empty string: each match is collected and the scan resumes at its end;
    where no match starts, the scan moves one character on. *)
Fixpoint findall_aux {A} (fuel : nat) (p : RP A) (s : pystr) : list A :=
  match fuel with
  | O => []
  | S f =>
    match s with
    | [] => []
    | _ :: r =>
      match re_match p s with
      | Some (m, rest) => m :: findall_aux f p rest
      | None => findall_aux f p r
      end
    end
  end.

Definition findall {A} (p : RP A) (s : pystr) : list A := findall_aux (S (List.length s)) p s.

(** [emoji_pattern]: the character class of [_has_emoji], repeated. *)
Definition emoji_pattern : RP pystr := plus (chr_if emoji_class).

(** [types.update(xs)] on a set of strings. *)
Definition set_update (types : list pystr) (xs : list pystr) : list pystr :=
  fold_left (fun acc x => set_add x acc) xs types.

Record usage := mkusage { emoji_count : Z; unique_emojis : Z }.

(** The loop over one user's messages. *)
Definition count_emojis (user_messages : list pystr) : usage :=
  let '(n, emoji_types) :=
    fold_left (fun st msg_content =>
                 let '(n, types) := st in
                 match msg_content with
                 | [] => st
                 | _ => let emojis := findall emoji_pattern msg_content in
                        (n + Z.of_nat (List.length emojis), set_update types emojis)
                 end) user_messages (0, []) in
  mkusage n (Z.of_nat (List.length emoji_types)).

(** [_get_emoji_usage_per_user] over the (participant name, content) rows of
    the chat's messages. *)
Definition get_emoji_usage_per_user (rows : list (pystr * pystr)) (user_names : list pystr)
  : list (pystr * usage) :=
  fold_left (fun emoji_usage user_name =>
               dict_set user_name
                 (count_emojis (map snd (filter (fun r => str_eqb (fst r) user_name) rows)))
                 emoji_usage)
            user_names [].

End Emoji.

(** ** [ChatAnalyzer.get_participant_statistics] *)

Module ParticipantStats.
Import PyStr DateTime Py Parser Store.

(** The rows of [Participant JOIN Message] (on [Message.participant_id])
    with [Participant.chat_id == chat_id]. *)
Definition join_rows (chat_id : Z) (prows : list participant_row) (mrows : list message_row)
  : list (participant_row * message_row) :=
  flat_map (fun p => if p_chat_id p =? chat_id
                     then map (fun m => (p, m)) (filter (fun m => m_participant_id m =? p_id p) mrows)
                     else []) prows.

Definition pkey_eqb (a b : Z * pystr) : bool := (fst a =? fst b) && str_eqb (snd a) (snd b).

(** [GROUP BY Participant.id, Participant.name]: each group with its
    messages, in order of appearance. *)
Fixpoint group_add (k : Z * pystr) (m : message_row) (g : list ((Z * pystr) * list message_row))
  : list ((Z * pystr) * list message_row) :=
  match g with
  | [] => [(k, [m])]
  | (k', ms) :: r => if pkey_eqb k' k then (k', ms ++ [m]) :: r else (k', ms) :: group_add k m r
  end.

Definition group_by_participant (rows : list (participant_row * message_row))
  : list ((Z * pystr) * list message_row) :=
  fold_left (fun g pm => group_add (p_id (fst pm), p_name (fst pm)) (snd pm) g) rows [].

Record participant_stat := mkpstat {
  ps_id : Z; ps_name : pystr; ps_message_count : Z;
  ps_total_chars : Z; ps_total_words : Z; ps_emoji_count : Z; ps_link_count : Z;
  ps_first_message : option datetime; ps_last_message : option datetime }.

(** [sum(cast(flag, Integer))]. *)
Definition count_true (f : message_row -> bool) (ms : list message_row) : Z :=
  sum_Z (map (fun m => if f m then 1 else 0) ms).

(** The aggregates of one group; SQLite's [min] and [max] compare the
    stored ISO timestamps, which order as the datetimes do.  The
    [avg_message_length] column (a float, rounded to two places) is not
    represented. *)
Definition aggregate (g : (Z * pystr) * list message_row) : participant_stat :=
  let '((pid, name), ms) := g in
  mkpstat pid name (Z.of_nat (List.length ms))
    (sum_Z (map m_char_count ms)) (sum_Z (map m_word_count ms))
    (count_true m_has_emoji ms) (count_true m_has_link ms)
    (match map m_timestamp ms with [] => None | t :: ts => Some (py_min t ts) end)
    (match map m_timestamp ms with [] => None | t :: ts => Some (py_max t ts) end).

(** The rows of the query, in the order [group_by_participant] yields them;
    the database may return them in any order. *)
Definition participant_query (chat_id : Z) (prows : list participant_row) (mrows : list message_row)
  : list participant_stat :=
  map aggregate (group_by_participant (join_rows chat_id prows mrows)).

(** [get_participant_statistics] on the rows of its query: one result per
    row ([x or 0] keeps the sums, which are never [NULL] over a non-empty
    group), then [results.sort(key=message_count, reverse=True)], a stable
    sort. *)
Definition get_participant_statistics (stats : list participant_stat) : list participant_stat :=
  sort_desc ps_message_count stats.

End ParticipantStats.

(** ** [ChatAnalyzer.get_activity_patterns] *)

Module Patterns.
Import PyStr DateTime Py Sql Timeline Heatmap Dict.

(** The exceptions the method can raise on its own: [int()] of a string
    that is not a decimal number, and [day_names[i]] out of range. *)
Inductive pattern_error := PatValueError | PatIndexError.

Definition bind_p {A B} (x : (pattern_error + A)%type) (f : A -> (pattern_error + B)%type)
  : (pattern_error + B)%type :=
  match x with
  | inl e => inl e
  | inr a => f a
  end.

(** The code point ranges that [str.isdigit] accepts besides the decimal
    digits (Unicode 14, numeric type Digit: superscripts, circled digits,
    ...). *)
Definition digit_only_ranges : list (Z * Z) :=
  [(178, 179); (185, 185); (4969, 4977); (6618, 6618); (8304, 8304); (8308, 8313);
   (8320, 8329); (9312, 9320); (9332, 9340); (9352, 9360); (9450, 9450); (9461, 9469);
   (9471, 9471); (10102, 10110); (10112, 10120); (10122, 10130); (68160, 68163);
   (69216, 69224); (69714, 69722); (127232, 127242)].

Definition is_digit (c : Z) : bool :=
  is_decimal c || existsb (fun r => (fst r <=? c) && (c <=? snd r)) digit_only_ranges.

(** [s.isdigit()]. *)
Definition isdigit (s : pystr) : bool :=
  match s with
  | [] => false
  | _ => forallb is_digit s
  end.

(** [int(s)]; its [ValueError]. *)
Definition py_int_e (s : pystr) : (pattern_error + Z)%type :=
  match py_int s with
  | None => inl PatValueError
  | Some v => inr v
  end.

(** The decimal digits of [n >= 0], most significant first. *)
Fixpoint decimal_aux (fuel : nat) (n : Z) (acc : pystr) : pystr :=
  match fuel with
  | O => acc
  | S f => if n <? 10 then (48 + n) :: acc else decimal_aux f (n / 10) ((48 + n mod 10) :: acc)
  end.

(** [n] has at most [log2 n + 1] digits. *)
Definition decimal (n : Z) : pystr := decimal_aux (S (Z.to_nat (Z.log2 n))) n [].

(** [f"{n:02d}"]: at least two characters, the sign counted. *)
Definition format_02d (n : Z) : pystr :=
  if n <? 0 then 45 :: decimal (- n)
  else if n <? 10 then [48; 48 + n]
  else decimal n.

(** [{row[0]: row[1] for row in rows}]. *)
Definition rows_to_dict (rows : list (pystr * Z)) : list (pystr * Z) :=
  fold_left (fun d row => dict_set (fst row) (snd row) d) rows [].

(** [max(d.items(), key=lambda x: x[1])[0] if d else dflt]: [max] keeps the
    first item of largest count. *)
Definition max_by_count (items : list (pystr * Z)) (dflt : pystr) : pystr :=
  match items with
  | [] => dflt
  | x :: r => fst (fold_left (fun best y => if snd best <? snd y then y else best) r x)
  end.

(** [{f"{int(hour):02d}:00": count for hour, count in hourly_data.items()}]. *)
Fixpoint hourly_comp (items : list (pystr * Z)) (acc : list (pystr * Z))
  : (pattern_error + list (pystr * Z))%type :=
  match items with
  | [] => inr acc
  | (hour, count) :: r =>
    bind_p (py_int_e hour) (fun h => hourly_comp r (dict_set (format_02d h ++ str ":00") count acc))
  end.

(** [day_names[i]] for [i = int(...)]. *)
Definition day_name_at (i : Z) : (pattern_error + pystr)%type :=
  match py_index 7 i with
  | None => inl PatIndexError
  | Some k => inr (nth k day_names [])
  end.

(** [{day_names[int(day)]: count for day, count in daily_data.items() if day.isdigit()}]. *)
Fixpoint daily_comp (items : list (pystr * Z)) (acc : list (pystr * Z))
  : (pattern_error + list (pystr * Z))%type :=
  match items with
  | [] => inr acc
  | (day, count) :: r =>
    if isdigit day then
      bind_p (py_int_e day) (fun i =>
      bind_p (day_name_at i) (fun name => daily_comp r (dict_set name count acc)))
    else daily_comp r acc
  end.

Record patterns := mkpatterns {
  hourly_distribution : list (pystr * Z); daily_distribution : list (pystr * Z);
  peak_hour : pystr; peak_day : pystr }.

(** [get_activity_patterns] over the rows of its two queries, [(hour, count)]
    grouped by [strftime('%H', ts)] and [(day_of_week, count)] grouped by
    [strftime('%w', ts)]; [day_names] is the list of [Heatmap].  The
    statements are evaluated in the order of the source: [peak_day_name],
    then the two comprehensions and [peak_hour]'s f-string of the returned
    dict. *)
Definition get_activity_patterns (hourly_rows daily_rows : list (pystr * Z))
  : (pattern_error + patterns)%type :=
  let hourly_data := rows_to_dict hourly_rows in
  let daily_data := rows_to_dict daily_rows in
  let peak_hour_s := max_by_count hourly_data (str "00") in
  let peak_day_s := max_by_count daily_data (str "0") in
  bind_p (if isdigit peak_day_s then bind_p (py_int_e peak_day_s) day_name_at
          else inr (str "Unknown")) (fun peak_day_name =>
  bind_p (hourly_comp hourly_data []) (fun hourly =>
  bind_p (daily_comp daily_data []) (fun daily =>
  bind_p (py_int_e peak_hour_s) (fun h =>
  inr (mkpatterns hourly daily (format_02d h ++ str ":00") peak_day_name))))).

(** The rows of the two queries over the chat's timestamps, in any order. *)
Definition hourly_query (timestamps : list datetime) : list (pystr * Z) :=
  group_count str_eqb (map (sqlite_strftime (str "%H")) timestamps).

Definition daily_query (timestamps : list datetime) : list (pystr * Z) :=
  group_count str_eqb (map (sqlite_strftime (str "%w")) timestamps).

End Patterns.

(** ** Readings used by the further properties *)

Module ExtraSpec.
Import PyStr Parser.

(** The maximal runs of consecutive code points of the emoji ranges. *)
Fixpoint emoji_runs_aux (cur : pystr) (s : pystr) : list pystr :=
  match s with
  | [] => match cur with [] => [] | _ => [rev cur] end
  | c :: r =>
    if emoji_class c then emoji_runs_aux (c :: cur) r
    else match cur with
         | [] => emoji_runs_aux [] r
         | _ => rev cur :: emoji_runs_aux [] r
         end
  end.

Definition emoji_runs (s : pystr) : list pystr := emoji_runs_aux [] s.

(** The characters that can follow [://] in a link of [_has_link]: ['!'],
    ['$'] to ['_'] (which hold the digits, the capitals and
    [@ . & + * \ ( ) ,]) and the lowercase ASCII letters. *)
Definition link_char (c : Z) : bool :=
  (c =? 33) || ((36 <=? c) && (c <=? 95)) || ((97 <=? c) && (c <=? 122)).

(** Rows in strictly increasing order of their key. *)
Definition key_lt (a b : pystr * Z) : Prop := Timeline.str_ltb (fst a) (fst b) = true.

End ExtraSpec.

(** ** Readings of the specification, to be compared with the code *)

Module SpecSide.
Import PyStr DateTime Re Strptime Parser.

(** "the number of whitespace-delimited tokens": the positions where a
    non-whitespace character follows whitespace or the start. *)
Fixpoint token_starts (after_space : bool) (s : pystr) : nat :=
  match s with
  | [] => O
  | c :: r => if is_space c then token_starts true r
              else ((if after_space then 1 else 0) + token_starts false r)%nat
  end.

Definition whitespace_token_count (s : pystr) : nat := token_starts true s.

(** "the timestamps encountered during parsing": every timestamp that
    [_parse_timestamp] returns while a line is examined, including those of
    lines then dropped as system messages. *)
Fixpoint timestamps_seen (pats : list (RP (pystr * pystr))) (line : pystr) : list datetime :=
  match pats with
  | [] => []
  | pattern :: rest_pats =>
    match re_match pattern line with
    | None => timestamps_seen rest_pats line
    | Some ((date_str, time_str), after) =>
      let remaining := strip after in
      match index_of (ch ":") remaining with
      | None => timestamps_seen rest_pats line
      | Some first_colon =>
        let message_content := strip (skipn (S first_colon) remaining) in
        match parse_timestamp (date_str ++ [32] ++ time_str) with
        | None => timestamps_seen rest_pats line
        | Some ts => ts :: (if is_system_text message_content
                            then timestamps_seen rest_pats line else [])
        end
      end
    end
  end.

Definition encountered_timestamps (bytes : list Z) : list datetime :=
  flat_map (fun raw => timestamps_seen date_patterns (strip raw))
           (split_on 10 (Utf8.decode_ignore bytes)).

Definition range_of (ts : list datetime) : option datetime * option datetime :=
  match ts with
  | [] => (None, None)
  | t :: r => (Some (py_min t r), Some (py_max t r))
  end.

End SpecSide.

(** ** Concrete inputs *)

Module ParseAux.
Import PyStr Parser.

(** The records the loop of [parse_chat] appends, line by line. *)
Fixpoint emitted (lines : list pystr) : list parsed_message :=
  match lines with
  | [] => []
  | raw :: rs =>
    match strip raw with
    | [] => emitted rs
    | _ => match parse_message_line (strip raw) with
           | Some md => md :: emitted rs
           | None => emitted rs
           end
    end
  end.

Definition add_participants (ms : list parsed_message) (parts : list pystr) : list pystr :=
  fold_left (fun ps md => set_add (participant md) ps) ms parts.

End ParseAux.

Module InteractionSpec.
Import PyStr DateTime Py Interaction.

(** The adjacent pairs (previous, current) of the messages in order. *)
Fixpoint adjacent_pairs (prev : row) (rest : list row) : list (row * row) :=
  match rest with
  | [] => []
  | c :: r => (prev, c) :: adjacent_pairs c r
  end.

Definition pairs (msgs : list row) : list (row * row) :=
  match msgs with [] => [] | m :: r => adjacent_pairs m r end.

Definition pair_delta (pc : row * row) : Z := time_diff (fst pc) (snd pc).

(** "a response-time sample is recorded for the second sender [s] exactly
    when the senders differ and the delta is strictly between 0 and
    3600 seconds". *)
Definition is_response_of (s : pystr) (pc : row * row) : bool :=
  str_eqb (sender (snd pc)) s &&
  (negb (str_eqb (sender (snd pc)) (sender (fst pc))) &&
   (pair_delta pc <? 3600) && (pair_delta pc >? 0)).

Definition response_samples (s : pystr) (msgs : list row) : list Z :=
  map pair_delta (filter (is_response_of s) (pairs msgs)).

(** "a long-pause event is recorded exactly when the delta exceeds 14400
    seconds". *)
Definition is_long_pause (pc : row * row) : bool := pair_delta pc >? 14400.

Definition pause_of (pc : row * row) : pause :=
  mkpause (round1_div (pair_delta pc) 3600) (r_timestamp (fst pc)) (r_timestamp (snd pc))
          (sender (snd pc)).

Definition long_pauses (msgs : list row) : list pause :=
  map pause_of (filter is_long_pause (pairs msgs)).

Definition restarts_by (s : pystr) (pc : row * row) : bool :=
  is_long_pause pc && str_eqb (sender (snd pc)) s.

(** The starter count of [s]: one for the first message, one for each
    message after a long pause. *)
Definition starter_count (s : pystr) (msgs : list row) : Z :=
  match msgs with
  | [] => 0
  | m :: _ => (if str_eqb (sender m) s then 1 else 0) +
              Z.of_nat (List.length (filter (restarts_by s) (pairs msgs)))
  end.

(** "sorted by [key] descending": each element's key is at least the
    next one's. *)
Definition key_ge {A} (key : A -> Z) (a b : A) : Prop := key b <= key a.

End InteractionSpec.

Module AnalyticsSpec.
Import PyStr.

(** "a granularity inside {daily, weekly, monthly}". *)
Definition valid_granularity (g : pystr) : bool :=
  str_eqb g (str "daily") || str_eqb g (str "weekly") || str_eqb g (str "monthly").

(** "a chat with a text message". *)
Definition has_text (messages : list (pystr * Parser.message_type)) : bool :=
  existsb (fun '(_, t) => match t with Parser.Text => true | _ => false end) messages.

End AnalyticsSpec.

Module HeatmapSpec.
Import PyStr DateTime Py Sql Heatmap.

(** The cell a message falls in: (day of week, hour). *)
Definition key_of (d : datetime) : Z * Z := (strftime_w d, strftime_H d).

(** "the message count" of day [d] and hour [h]. *)
Definition messages_at (ts : list datetime) (d h : nat) : Z :=
  Z.of_nat (List.length (filter (fun t => pair_eqb (key_of t) (Z.of_nat d, Z.of_nat h)) ts)).

(** "a 7x24 matrix". *)
Definition shape (m : list (list Z)) : Prop :=
  List.length m = 7%nat /\ forall r, In r m -> List.length r = 24%nat.

(** A key inside the 7x24 grid. *)
Definition in_grid (k : Z * Z) : Prop := 0 <= fst k < 7 /\ 0 <= snd k < 24.

(** A query row of cell [(d, h)]. *)
Definition at_key (d h : nat) (kc : (Z * Z) * Z) : bool :=
  pair_eqb (fst kc) (Z.of_nat d, Z.of_nat h).

(** A query row of key [q]. *)
Definition key_is (q : Z * Z) (kc : (Z * Z) * Z) : bool := pair_eqb (fst kc) q.

End HeatmapSpec.

Module Samples.
Import PyStr.

(** The two-line transcript of the specification; the emoji U+1F600 is
    the UTF-8 sequence F0 9F 98 80. *)
Definition round_trip_transcript : list Z :=
  str "[1/2/24, 10:00:00 AM] Alice: hello world" ++ [10] ++
  str "[1/2/24, 10:05:00 AM] Bob: hi Alice " ++ [240; 159; 152; 128] ++
  str " http://example.com".

(** A line whose participant field is empty. *)
Definition empty_name_transcript : list Z := str "[1/2/24, 10:00:00 AM] : hi".

(** A system line with a valid timestamp, earlier than the only message. *)
Definition system_first_transcript : list Z :=
  str "[1/1/24, 9:00:00 AM] Alice: Alice added Bob" ++ [10] ++
  str "[1/2/24, 10:00:00 AM] Bob: hello".

(** WhatsApp's end-to-end encryption notice. *)
Definition e2e_notice : pystr :=
  str "Messages and calls are end-to-end encrypted. No one outside of this chat, not even WhatsApp, can read or listen to them. Tap to learn more.".

Definition e2e_transcript : list Z :=
  str "[1/2/24, 10:00:00 AM] Alice: Messages and calls are end-to-end encrypted. No one outside of this chat, not even WhatsApp, can read or listen to them. Tap to learn more.".

(** Three rows: a reply after ten minutes, then a pause of ten hours and
    fifty minutes. *)
Definition interaction_rows : list Interaction.row :=
  [Interaction.mkrow (DateTime.mkdatetime 2024 1 1 9 0 0) (str "Alice") (str "hi");
   Interaction.mkrow (DateTime.mkdatetime 2024 1 1 9 10 0) (str "Bob") (str "hello");
   Interaction.mkrow (DateTime.mkdatetime 2024 1 1 20 0 0) (str "Alice") (str "back")].

(** Two messages on Sunday 2024-01-07 at 09h and one on Monday
    2024-01-08 at 23h. *)
Definition heatmap_sample : list DateTime.datetime :=
  [DateTime.mkdatetime 2024 1 7 9 30 0; DateTime.mkdatetime 2024 1 7 9 45 0;
   DateTime.mkdatetime 2024 1 8 23 0 0].

End Samples.

(** * Properties *)

Module ParserProps.
Import PyStr DateTime Re Strptime Parser SpecSide Samples ParseAux.

Lemma fold_parse_step : forall lines msgs parts dates,
  fold_left parse_step lines (msgs, parts, dates) =
  (msgs ++ emitted lines, add_participants (emitted lines) parts,
   dates ++ map timestamp (emitted lines)).
Proof.
  induction lines as [|raw rs IH]; intros msgs parts dates.
  - simpl. rewrite !app_nil_r. reflexivity.
  - cbn [fold_left emitted]. unfold parse_step at 2.
    destruct (strip raw) as [|c cs] eqn:Es.
    + rewrite IH. reflexivity.
    + rewrite <- Es. destruct (parse_message_line (strip raw)) as [md|].
      * rewrite IH. cbn [map]. unfold add_participants. cbn [fold_left].
        rewrite <- !app_assoc. reflexivity.
      * rewrite IH. reflexivity.
Qed.

Lemma emitted_in : forall lines m,
  In m (emitted lines) ->
  exists raw, In raw lines /\ strip raw <> [] /\ parse_message_line (strip raw) = Some m.
Proof.
  induction lines as [|raw rs IH]; intros m H; [destruct H|].
  cbn [emitted] in H. destruct (strip raw) as [|c cs] eqn:Es.
  - destruct (IH _ H) as (r & Hr & R). exists r. split; [right; exact Hr | exact R].
  - rewrite <- Es in H. destruct (parse_message_line (strip raw)) as [md|] eqn:Ep.
    + destruct H as [<- | H].
      * exists raw. split; [left; reflexivity|]. split; [rewrite Es; discriminate | exact Ep].
      * destruct (IH _ H) as (r & Hr & R). exists r. split; [right; exact Hr | exact R].
    + destruct (IH _ H) as (r & Hr & R). exists r. split; [right; exact Hr | exact R].
Qed.

Lemma parse_chat_messages : forall b f,
  messages (parse_chat b f) = emitted (split_on 10 (Utf8.decode_ignore b)).
Proof.
  intros b f. unfold parse_chat. rewrite fold_parse_step. reflexivity.
Qed.

Lemma parse_chat_range : forall b f,
  let ms := messages (parse_chat b f) in
  date_range_start (parse_chat b f) =
    match map timestamp ms with [] => None | d :: ds => Some (py_min d ds) end /\
  date_range_end (parse_chat b f) =
    match map timestamp ms with [] => None | d :: ds => Some (py_max d ds) end.
Proof.
  intros b f ms. subst ms. unfold parse_chat. rewrite fold_parse_step. split; reflexivity.
Qed.

Lemma split_ws_aux_length : forall s cur,
  List.length (split_ws_aux cur s) =
  (token_starts (match cur with [] => true | _ => false end) s +
   match cur with [] => 0 | _ => 1 end)%nat.
Proof.
  induction s as [|c r IH]; intros cur.
  - destruct cur; reflexivity.
  - cbn [split_ws_aux token_starts]. destruct (is_space c).
    + destruct cur as [|x xs].
      * rewrite IH. reflexivity.
      * cbn [List.length]. rewrite IH. cbn. lia.
    + rewrite IH. destruct cur; cbn; lia.
Qed.

Lemma split_ws_length : forall s,
  List.length (split_ws s) = whitespace_token_count s.
Proof.
  intros s. unfold split_ws, whitespace_token_count. rewrite split_ws_aux_length. lia.
Qed.

Lemma try_patterns_some : forall pats line m,
  try_patterns pats line = Some m ->
  exists pattern date_str time_str after i,
    In pattern pats /\
    re_match pattern line = Some ((date_str, time_str), after) /\
    index_of (ch ":") (strip after) = Some i /\
    parse_timestamp (date_str ++ [32] ++ time_str) = Some (timestamp m) /\
    participant m = strip (firstn i (strip after)) /\
    content m = strip (skipn (S i) (strip after)) /\
    is_system_text (content m) = false /\
    msg_type m = determine_message_type (content m) /\
    char_count m = Z.of_nat (List.length (content m)) /\
    word_count m = Z.of_nat (List.length (split_ws (content m))) /\
    msg_has_emoji m = has_emoji (content m) /\
    msg_has_link m = has_link (content m).
Proof.
  induction pats as [|p ps IH]; intros line m H; cbn [try_patterns] in H; [discriminate|].
  destruct (re_match p line) as [[[d t] a]|] eqn:Em.
  - destruct (index_of (ch ":") (strip a)) as [i|] eqn:Ei.
    + destruct (parse_timestamp (d ++ [32] ++ t)) as [ts|] eqn:Et.
      * destruct (is_system_text (strip (skipn (S i) (strip a)))) eqn:Es.
        -- destruct (IH _ _ H) as (q & d' & t' & a' & i' & Hin & R); exists q, d', t', a', i'; split; [right; exact Hin | exact R].
        -- injection H as <-. exists p, d, t, a, i. cbn [timestamp participant content msg_type char_count word_count msg_has_emoji msg_has_link]. repeat split; auto. now left.
      * destruct (IH _ _ H) as (q & d' & t' & a' & i' & Hin & R); exists q, d', t', a', i'; split; [right; exact Hin | exact R].
    + destruct (IH _ _ H) as (q & d' & t' & a' & i' & Hin & R); exists q, d', t', a', i'; split; [right; exact Hin | exact R].
  - destruct (IH _ _ H) as (q & d' & t' & a' & i' & Hin & R); exists q, d', t', a', i'; split; [right; exact Hin | exact R].
Qed.

(** C1: the two-line transcript of the specification yields exactly two
    records, the participants Alice and Bob, an emoji and a link in the
    second message, and kind text for both. *)
Theorem parse_chat_round_trip :
  let r := parse_chat round_trip_transcript (str "chat.txt") in
  List.length (messages r) = 2%nat /\
  (forall p, In p (participants r) <-> p = str "Alice" \/ p = str "Bob") /\
  exists m1 m2, messages r = [m1; m2] /\
    msg_has_emoji m2 = true /\ msg_has_link m2 = true /\
    msg_type m1 = Text /\ msg_type m2 = Text.
Proof.
  intro r.
  assert (E : r = mkchat (str "chat")
    [mkmsg (mkdatetime 2024 1 2 10 0 0) (str "Alice") (str "hello world") Text 11 2 false false;
     mkmsg (mkdatetime 2024 1 2 10 5 0) (str "Bob")
           (str "hi Alice " ++ [128512] ++ str " http://example.com") Text 29 4 true true]
    [str "Alice"; str "Bob"]
    (Some (mkdatetime 2024 1 2 10 0 0)) (Some (mkdatetime 2024 1 2 10 5 0)))
    by (subst r; vm_compute; reflexivity).
  rewrite E; simpl.
  split; [reflexivity|]. split.
  - intros p; split.
    + intros [H | [H | []]]; [left | right]; symmetry; exact H.
    + intros [H | H]; rewrite H; [left | right; left]; reflexivity.
  - do 2 eexists; split; [reflexivity|]. repeat split.
Qed.

(** C4: the end-to-end encryption notice contains the first phrase of
    [system_messages] verbatim, yet [_determine_message_type] classifies it
    as text: that phrase starts with a capital letter and is looked up in
    the lowercased body. *)
Theorem e2e_notice_classified_text :
  is_substring (str "Messages and calls are end-to-end encrypted") e2e_notice = true /\
  determine_message_type e2e_notice = Text.
Proof. vm_compute. split; reflexivity. Qed.

(** C2: every record [parse_chat] emits has [char_count] equal to the length
    of its content and [word_count] equal to the number of
    whitespace-delimited tokens of its content. *)
Theorem parsed_counts_consistent : forall b f m,
  In m (messages (parse_chat b f)) ->
  char_count m = Z.of_nat (List.length (content m)) /\
  word_count m = Z.of_nat (whitespace_token_count (content m)).
Proof.
  intros b f m H. rewrite parse_chat_messages in H.
  destruct (emitted_in _ _ H) as (raw & _ & _ & Hp).
  unfold parse_message_line in Hp.
  destruct (try_patterns_some _ _ _ Hp)
    as (pat & d & t & a & i & _ & _ & _ & _ & _ & _ & _ & _ & Hc & Hw & _).
  split; [exact Hc|]. rewrite Hw, split_ws_length. reflexivity.
Qed.

Lemma parsed_counts_consistent_witness :
  let m := mkmsg (mkdatetime 2024 1 2 10 0 0) (str "Alice") (str "hello world") Text 11 2 false false in
  In m (messages (parse_chat round_trip_transcript (str "chat.txt"))) /\
  (char_count m = Z.of_nat (List.length (content m)) /\
   word_count m = Z.of_nat (whitespace_token_count (content m))).
Proof.
  intro m.
  assert (Hin : In m (messages (parse_chat round_trip_transcript (str "chat.txt"))))
    by (vm_compute; left; reflexivity).
  split; [exact Hin | exact (parsed_counts_consistent _ _ _ Hin)].
Defined.

(** C3 (as stated, refuted): a line whose participant field is empty,
    [[1/2/24, 10:00:00 AM] : hi], still yields a record, with the empty
    participant name. *)
Lemma empty_participant_emitted :
  exists m, In m (messages (parse_chat empty_name_transcript (str "chat.txt"))) /\
            participant m = [].
Proof.
  eexists. split; [vm_compute; left; reflexivity | reflexivity].
Qed.

(** C3 (amended): a record is emitted only for a line on which one of the
    bracket patterns matches, the date and time parse with one of the
    formats, and the rest holds a colon; its participant is the stripped
    text before the first colon (possibly empty) and its content the
    stripped text after it; and no emitted content, lowercased, contains a
    phrase of [system_messages]. *)
Theorem emitted_record_origin : forall b f m,
  In m (messages (parse_chat b f)) ->
  exists raw pattern date_str time_str after i,
    In raw (split_on 10 (Utf8.decode_ignore b)) /\
    In pattern date_patterns /\
    re_match pattern (strip raw) = Some ((date_str, time_str), after) /\
    index_of (ch ":") (strip after) = Some i /\
    parse_timestamp (date_str ++ [32] ++ time_str) = Some (timestamp m) /\
    participant m = strip (firstn i (strip after)) /\
    content m = strip (skipn (S i) (strip after)) /\
    (forall p, In p system_messages -> is_substring p (py_lower (content m)) = false).
Proof.
  intros b f m H. rewrite parse_chat_messages in H.
  destruct (emitted_in _ _ H) as (raw & Hraw & _ & Hp).
  unfold parse_message_line in Hp.
  destruct (try_patterns_some _ _ _ Hp)
    as (pat & d & t & a & i & Hpat & Hm & Hi & Ht & Hpart & Hc & Hs & _).
  exists raw, pat, d, t, a, i. do 7 (split; [assumption|]).
  intros p Hp'. unfold is_system_text in Hs.
  destruct (is_substring p (py_lower (content m))) eqn:E; [|reflexivity].
  assert (existsb (fun sys_msg => is_substring sys_msg (py_lower (content m))) system_messages = true)
    by (apply existsb_exists; exists p; split; assumption).
  congruence.
Qed.

Lemma emitted_record_origin_witness :
  let m := mkmsg (mkdatetime 2024 1 2 10 0 0) [] (str "hi") Text 2 1 false false in
  In m (messages (parse_chat empty_name_transcript (str "chat.txt"))) /\
  exists raw pattern date_str time_str after i,
    In raw (split_on 10 (Utf8.decode_ignore empty_name_transcript)) /\
    In pattern date_patterns /\
    re_match pattern (strip raw) = Some ((date_str, time_str), after) /\
    index_of (ch ":") (strip after) = Some i /\
    parse_timestamp (date_str ++ [32] ++ time_str) = Some (timestamp m) /\
    participant m = strip (firstn i (strip after)) /\
    content m = strip (skipn (S i) (strip after)) /\
    (forall p, In p system_messages -> is_substring p (py_lower (content m)) = false).
Proof.
  intro m.
  assert (Hin : In m (messages (parse_chat empty_name_transcript (str "chat.txt"))))
    by (vm_compute; left; reflexivity).
  split; [exact Hin | exact (emitted_record_origin _ _ _ Hin)].
Defined.

Lemma lex_ltb_irrefl : forall xs, lex_ltb xs xs = false.
Proof.
  induction xs as [|x xs IH]; [reflexivity|].
  simpl. rewrite Z.ltb_irrefl, Z.eqb_refl, IH. reflexivity.
Qed.

Lemma lex_ltb_trans : forall xs ys zs,
  lex_ltb xs ys = true -> lex_ltb ys zs = true -> lex_ltb xs zs = true.
Proof.
  induction xs as [|x xs IH]; intros [|y ys] [|z zs]; simpl; try discriminate.
  rewrite !orb_true_iff, !andb_true_iff, !Z.ltb_lt, !Z.eqb_eq.
  intros [H1 | [H1 H1']] [H2 | [H2 H2']]; subst.
  - left; lia.
  - left; lia.
  - left; lia.
  - right; split; [reflexivity | exact (IH _ _ H1' H2')].
Qed.

Lemma lex_ltb_cotrans : forall xs ys zs,
  List.length xs = List.length ys ->
  lex_ltb xs zs = true -> lex_ltb xs ys = true \/ lex_ltb ys zs = true.
Proof.
  induction xs as [|x xs IH]; intros [|y ys] [|z zs] Hl; simpl; try discriminate.
  rewrite !orb_true_iff, !andb_true_iff, !Z.ltb_lt, !Z.eqb_eq.
  injection Hl as Hl. intros H.
  destruct (Z.lt_trichotomy x y) as [Hxy | [Hxy | Hxy]].
  - left; left; exact Hxy.
  - subst y. destruct H as [H | [H H']].
    + right; left; exact H.
    + subst z. destruct (IH _ _ Hl H') as [K | K].
      * left; right; split; [reflexivity | exact K].
      * right; right; split; [reflexivity | exact K].
  - right; left. destruct H as [H | [H _]]; lia.
Qed.

Lemma dt_ltb_irrefl : forall a, DateTime.ltb a a = false.
Proof. intros a. apply lex_ltb_irrefl. Qed.

Lemma dt_ltb_trans : forall a b c,
  DateTime.ltb a b = true -> DateTime.ltb b c = true -> DateTime.ltb a c = true.
Proof. intros a b c. apply lex_ltb_trans. Qed.

Lemma dt_ltb_cotrans : forall a b c,
  DateTime.ltb a c = true -> DateTime.ltb a b = true \/ DateTime.ltb b c = true.
Proof. intros a b c. apply lex_ltb_cotrans. reflexivity. Qed.

Lemma py_min_fold : forall xs cur,
  let r := fold_left (fun cur y => if DateTime.ltb y cur then y else cur) xs cur in
  (r = cur \/ In r xs) /\ DateTime.ltb cur r = false /\
  (forall y, In y xs -> DateTime.ltb y r = false).
Proof.
  induction xs as [|y ys IH]; intros cur r; subst r; cbn [fold_left].
  - split; [left; reflexivity|]. split; [apply dt_ltb_irrefl | intros _ []].
  - destruct (IH (if DateTime.ltb y cur then y else cur)) as (Hin & Hc & Hys).
    revert Hin Hc Hys.
    generalize (fold_left (fun cur y => if DateTime.ltb y cur then y else cur) ys
                          (if DateTime.ltb y cur then y else cur)).
    intros r Hin Hc Hys. destruct (DateTime.ltb y cur) eqn:Ey.
    + split; [right; destruct Hin as [-> | H]; [left; reflexivity | right; exact H]|]. split.
      * destruct (DateTime.ltb cur r) eqn:E; [|reflexivity].
        rewrite (dt_ltb_trans _ _ _ Ey E) in Hc. discriminate.
      * intros z [<- | Hz]; [exact Hc | exact (Hys _ Hz)].
    + split; [destruct Hin as [-> | H]; [left; reflexivity | right; right; exact H]|]. split; [exact Hc|].
      intros z [<- | Hz]; [|exact (Hys _ Hz)].
      destruct (DateTime.ltb y r) eqn:E; [|reflexivity].
      destruct (dt_ltb_cotrans _ cur _ E) as [K | K]; congruence.
Qed.

Lemma py_max_fold : forall xs cur,
  let r := fold_left (fun cur y => if DateTime.ltb cur y then y else cur) xs cur in
  (r = cur \/ In r xs) /\ DateTime.ltb r cur = false /\
  (forall y, In y xs -> DateTime.ltb r y = false).
Proof.
  induction xs as [|y ys IH]; intros cur r; subst r; cbn [fold_left].
  - split; [left; reflexivity|]. split; [apply dt_ltb_irrefl | intros _ []].
  - destruct (IH (if DateTime.ltb cur y then y else cur)) as (Hin & Hc & Hys).
    revert Hin Hc Hys.
    generalize (fold_left (fun cur y => if DateTime.ltb cur y then y else cur) ys
                          (if DateTime.ltb cur y then y else cur)).
    intros r Hin Hc Hys. destruct (DateTime.ltb cur y) eqn:Ey.
    + split; [right; destruct Hin as [-> | H]; [left; reflexivity | right; exact H]|]. split.
      * destruct (DateTime.ltb r cur) eqn:E; [|reflexivity].
        rewrite (dt_ltb_trans _ _ _ E Ey) in Hc. discriminate.
      * intros z [<- | Hz]; [exact Hc | exact (Hys _ Hz)].
    + split; [destruct Hin as [-> | H]; [left; reflexivity | right; right; exact H]|]. split; [exact Hc|].
      intros z [<- | Hz]; [|exact (Hys _ Hz)].
      destruct (DateTime.ltb r y) eqn:E; [|reflexivity].
      destruct (dt_ltb_cotrans _ cur _ E) as [K | K]; congruence.
Qed.

Lemma py_min_spec : forall x xs,
  In (py_min x xs) (x :: xs) /\ forall y, In y (x :: xs) -> DateTime.ltb y (py_min x xs) = false.
Proof.
  intros x xs. unfold py_min. destruct (py_min_fold xs x) as (Hin & Hc & Hys).
  split.
  - destruct Hin as [-> | H]; [left; reflexivity | right; exact H].
  - intros y [<- | Hy]; [exact Hc | exact (Hys _ Hy)].
Qed.

Lemma py_max_spec : forall x xs,
  In (py_max x xs) (x :: xs) /\ forall y, In y (x :: xs) -> DateTime.ltb (py_max x xs) y = false.
Proof.
  intros x xs. unfold py_max. destruct (py_max_fold xs x) as (Hin & Hc & Hys).
  split.
  - destruct Hin as [-> | H]; [left; reflexivity | right; exact H].
  - intros y [<- | Hy]; [exact Hc | exact (Hys _ Hy)].
Qed.

(** C7 (as stated, refuted): a system line with a valid timestamp is
    examined during parsing, but its timestamp does not enter the range:
    the recorded start differs from the minimum of the timestamps
    encountered. *)
Lemma system_timestamp_not_in_range :
  date_range_start (parse_chat system_first_transcript (str "chat.txt")) <>
  fst (range_of (encountered_timestamps system_first_transcript)).
Proof.
  vm_compute. intro H. discriminate H.
Qed.

(** C7 (amended): [date_range_start] and [date_range_end] are Python's
    [min] and [max] of the timestamps of the emitted records, in order
    ([None] when there is none): the start is the timestamp of a record and
    no record is earlier, the end is the timestamp of a record and no record
    is later; system lines never enter the range. *)
Theorem date_range_of_messages : forall b f,
  let r := parse_chat b f in
  let ts := map timestamp (messages r) in
  date_range_start r = (match ts with [] => None | d :: ds => Some (py_min d ds) end) /\
  date_range_end r = (match ts with [] => None | d :: ds => Some (py_max d ds) end) /\
  (date_range_start r = None <-> ts = []) /\
  (date_range_end r = None <-> ts = []) /\
  (forall s, date_range_start r = Some s ->
     In s ts /\ forall t, In t ts -> DateTime.ltb t s = false) /\
  (forall e, date_range_end r = Some e ->
     In e ts /\ forall t, In t ts -> DateTime.ltb e t = false).
Proof.
  intros b f r ts.
  destruct (parse_chat_range b f) as [Hs He]. fold r in Hs, He. fold ts in Hs, He.
  rewrite Hs, He. clearbody ts. clear Hs He.
  destruct ts as [|d ds].
  - repeat split; try discriminate; intros; discriminate.
  - split; [reflexivity|]. split; [reflexivity|].
    split; [split; discriminate|]. split; [split; discriminate|].
    split.
    + intros s Hs. injection Hs as <-. apply py_min_spec.
    + intros e He. injection He as <-. apply py_max_spec.
Qed.

End ParserProps.

(** ** Properties of the interaction metrics *)

Module InteractionProps.
Import PyStr DateTime Py Interaction InteractionSpec Samples.

Lemma str_eqb_true : forall a b, str_eqb a b = true <-> a = b.
Proof.
  induction a as [|x a IH]; intros [|y b]; simpl; split; intro H;
    try discriminate; try reflexivity.
  - apply andb_true_iff in H as [H1 H2]. apply Z.eqb_eq in H1. apply IH in H2. subst; reflexivity.
  - injection H as -> ->. rewrite Z.eqb_refl. apply IH. reflexivity.
Qed.

Lemma str_eqb_sym : forall a b, str_eqb a b = str_eqb b a.
Proof.
  induction a as [|x a IH]; intros [|y b]; simpl; try reflexivity.
  rewrite Z.eqb_sym, IH. reflexivity.
Qed.

Lemma dd_get_update : forall {V} (dflt : V) k f j d,
  dd_get dflt j (dd_update dflt k f d) =
  if str_eqb k j then f (dd_get dflt j d) else dd_get dflt j d.
Proof.
  intros V dflt k f j d. induction d as [|[k' v] r IH]; simpl.
  - destruct (str_eqb k j); reflexivity.
  - destruct (str_eqb k' k) eqn:E1.
    + apply str_eqb_true in E1. subst k'. simpl.
      destruct (str_eqb k j); reflexivity.
    + simpl. rewrite IH. destruct (str_eqb k' j) eqn:E2; [|reflexivity].
      apply str_eqb_true in E2. subst j. rewrite str_eqb_sym, E1. reflexivity.
Qed.

Lemma sum_dd_update_incr : forall k d,
  sum_Z (map snd (dd_update 0 k (Z.add 1) d)) = 1 + sum_Z (map snd d).
Proof.
  intros k d. unfold sum_Z. induction d as [|[k' v] r IH]; [reflexivity|].
  cbn [dd_update]. destruct (str_eqb k' k); cbn [map fold_right snd]; [lia|].
  rewrite IH. lia.
Qed.

Lemma sum_Z_perm : forall l l', Permutation l l' -> sum_Z l = sum_Z l'.
Proof.
  intros l l' H. unfold sum_Z. induction H; simpl; lia.
Qed.

Lemma insert_desc_perm : forall {A} (key : A -> Z) x l,
  Permutation (insert_desc key x l) (x :: l).
Proof.
  intros A key x l. induction l as [|y r IH]; simpl; [reflexivity|].
  destruct (key x <=? key y); [|reflexivity].
  rewrite IH. apply perm_swap.
Qed.

Lemma sort_desc_perm_aux : forall {A} (key : A -> Z) l acc,
  Permutation (fold_left (fun acc x => insert_desc key x acc) l acc) (l ++ acc).
Proof.
  intros A key l. induction l as [|x l IH]; intros acc; simpl; [reflexivity|].
  rewrite IH, insert_desc_perm. apply Permutation_sym, Permutation_middle.
Qed.

Lemma sort_desc_perm : forall {A} (key : A -> Z) l, Permutation (sort_desc key l) l.
Proof.
  intros A key l. unfold sort_desc. rewrite sort_desc_perm_aux, app_nil_r. reflexivity.
Qed.

Lemma insert_desc_hd : forall {A} (key : A -> Z) y x l,
  HdRel (key_ge key) y l -> key_ge key y x -> HdRel (key_ge key) y (insert_desc key x l).
Proof.
  intros A key y x [|z r] Hh Hyx; simpl; [constructor; exact Hyx|].
  destruct (key x <=? key z); constructor; [inversion Hh; assumption | exact Hyx].
Qed.

Lemma insert_desc_sorted : forall {A} (key : A -> Z) x l,
  Sorted (key_ge key) l -> Sorted (key_ge key) (insert_desc key x l).
Proof.
  intros A key x l. induction l as [|y r IH]; intros Hs; simpl.
  - repeat constructor.
  - inversion Hs as [|y' r' Hr Hh]; subst.
    destruct (key x <=? key y) eqn:E.
    + constructor; [apply IH, Hr|]. apply insert_desc_hd; [exact Hh|].
      unfold key_ge. apply Z.leb_le, E.
    + constructor; [exact Hs|]. constructor. unfold key_ge. apply Z.leb_gt in E. lia.
Qed.

Lemma sort_desc_sorted : forall {A} (key : A -> Z) l, Sorted (key_ge key) (sort_desc key l).
Proof.
  intros A key l. unfold sort_desc.
  assert (G : forall acc, Sorted (key_ge key) acc ->
            Sorted (key_ge key) (fold_left (fun acc x => insert_desc key x acc) l acc)).
  { induction l as [|x l IH]; intros acc Hacc; simpl; [exact Hacc|].
    apply IH, insert_desc_sorted, Hacc. }
  apply G. constructor.
Qed.

Lemma key_ge_trans : forall {A} (key : A -> Z), Transitive (key_ge key).
Proof. intros A key a b c H1 H2. unfold key_ge in *. lia. Qed.

Lemma strongly_sorted_app : forall {A} (R : A -> A -> Prop) l1 l2,
  StronglySorted R (l1 ++ l2) -> forall x y, In x l1 -> In y l2 -> R x y.
Proof.
  intros A R l1. induction l1 as [|a l1 IH]; intros l2 H x y Hx Hy; [destruct Hx|].
  simpl in H. apply StronglySorted_inv in H as [H1 H2].
  destruct Hx as [<- | Hx].
  - rewrite Forall_forall in H2. apply H2, in_or_app. right; exact Hy.
  - exact (IH _ H1 _ _ Hx Hy).
Qed.

Lemma sorted_firstn : forall {A} (R : A -> A -> Prop) n l,
  Sorted R l -> Sorted R (firstn n l).
Proof.
  intros A R n l. revert n. induction l as [|x l IH]; intros [|n] H; simpl; try apply Sorted_nil.
  inversion H as [|x' l' Hl Hh]; subst.
  constructor; [apply IH, Hl|].
  destruct l as [|y l]; destruct n; simpl; constructor.
  inversion Hh; assumption.
Qed.

Lemma is_response_of_pair : forall s p c,
  is_response_of s (p, c) =
  str_eqb (sender c) s &&
  (negb (str_eqb (sender c) (sender p)) && (time_diff p c <? 3600) && (time_diff p c >? 0)).
Proof. reflexivity. Qed.

Lemma restarts_by_pair : forall s p c,
  restarts_by s (p, c) = (time_diff p c >? 14400) && str_eqb (sender c) s.
Proof. reflexivity. Qed.

Lemma is_long_pause_pair : forall p c, is_long_pause (p, c) = (time_diff p c >? 14400).
Proof. reflexivity. Qed.

(** One iteration of the loop body. *)
Lemma step_eq : forall rts st ps prev c,
  step (rts, st, ps, prev) c =
  (if negb (str_eqb (sender c) (sender prev)) && (time_diff prev c <? 3600)
      && (time_diff prev c >? 0)
   then dd_update [] (sender c) (fun times => times ++ [time_diff prev c]) rts else rts,
   if time_diff prev c >? 14400 then dd_update 0 (sender c) (Z.add 1) st else st,
   if time_diff prev c >? 14400 then ps ++ [pause_of (prev, c)] else ps,
   c).
Proof.
  intros. unfold step. destruct (time_diff prev c >? 14400); reflexivity.
Qed.

(** The loop over the rest of the messages, from any state. *)
Lemma run_steps : forall rest rts st ps prev rts' st' ps' last,
  fold_left step rest (rts, st, ps, prev) = (rts', st', ps', last) ->
  (forall s, dd_get [] s rts' =
     dd_get [] s rts ++ map pair_delta (filter (is_response_of s) (adjacent_pairs prev rest))) /\
  (forall s, dd_get 0 s st' =
     dd_get 0 s st + Z.of_nat (List.length (filter (restarts_by s) (adjacent_pairs prev rest)))) /\
  sum_Z (map snd st') =
    sum_Z (map snd st) + Z.of_nat (List.length (filter is_long_pause (adjacent_pairs prev rest))) /\
  ps' = ps ++ map pause_of (filter is_long_pause (adjacent_pairs prev rest)).
Proof.
  induction rest as [|c r IH]; intros rts st ps prev rts' st' ps' last H.
  - simpl in H. injection H as <- <- <- _. cbn [adjacent_pairs filter map List.length].
    split; [intros; rewrite app_nil_r; reflexivity|].
    split; [intros; lia|]. split; [lia | rewrite app_nil_r; reflexivity].
  - cbn [fold_left] in H. rewrite step_eq in H.
    destruct (IH _ _ _ _ _ _ _ _ H) as (H1 & H2 & H3 & H4). clear IH H.
    cbn [adjacent_pairs filter].
    rewrite is_long_pause_pair.
    split; [|split; [|split]].
    + intros s. rewrite H1, is_response_of_pair.
      destruct (negb (str_eqb (sender c) (sender prev)) && (time_diff prev c <? 3600)
                && (time_diff prev c >? 0)) eqn:Ec.
      * rewrite dd_get_update. destruct (str_eqb (sender c) s); cbn [andb map].
        -- rewrite <- app_assoc. reflexivity.
        -- reflexivity.
      * rewrite andb_false_r. reflexivity.
    + intros s. rewrite H2, restarts_by_pair.
      destruct (time_diff prev c >? 14400); cbn [andb].
      * rewrite dd_get_update. destruct (str_eqb (sender c) s); cbn [List.length]; lia.
      * reflexivity.
    + rewrite H3. destruct (time_diff prev c >? 14400).
      * rewrite sum_dd_update_incr. cbn [List.length]. lia.
      * reflexivity.
    + rewrite H4. destruct (time_diff prev c >? 14400).
      * cbn [map]. rewrite <- app_assoc. reflexivity.
      * reflexivity.
Qed.

(** The top-ten cut of the pauses sorted by duration descending. *)
Lemma top_ten_pauses : forall ps,
  let top := firstn 10 (sort_desc duration_hours ps) in
  List.length top = Nat.min 10 (List.length ps) /\
  Sorted (key_ge duration_hours) top /\
  exists rest, Permutation (top ++ rest) ps /\
    forall p q, In p top -> In q rest -> duration_hours q <= duration_hours p.
Proof.
  intros ps top.
  pose proof (sort_desc_perm duration_hours ps) as Hp.
  pose proof (sort_desc_sorted duration_hours ps) as Hs.
  split; [|split].
  - subst top. rewrite length_firstn, (Permutation_length Hp). reflexivity.
  - apply sorted_firstn, Hs.
  - exists (skipn 10 (sort_desc duration_hours ps)). split.
    + subst top. rewrite firstn_skipn. exact Hp.
    + intros p q Hp' Hq.
      apply (strongly_sorted_app (key_ge duration_hours) top (skipn 10 (sort_desc duration_hours ps)));
        [|exact Hp' | exact Hq].
      subst top. rewrite firstn_skipn.
      apply Sorted_StronglySorted; [apply key_ge_trans | exact Hs].
Qed.

(** The defaultdicts and the pause list after the loop over a transcript of
    at least two messages. *)
Lemma run_loop_facts : forall first c r,
  let msgs := first :: c :: r in
  (forall s, dd_get [] s (recorded_response_times msgs) = response_samples s msgs) /\
  (forall s, dd_get 0 s (recorded_starters msgs) = starter_count s msgs) /\
  sum_Z (map snd (recorded_starters msgs)) =
    1 + Z.of_nat (List.length (filter is_long_pause (pairs msgs))) /\
  recorded_pauses msgs = long_pauses msgs.
Proof.
  intros first c r msgs. subst msgs.
  unfold recorded_response_times, recorded_starters, recorded_pauses,
    response_samples, starter_count, long_pauses, pairs.
  destruct (run_loop first (c :: r)) as [[[rts st] ps] last] eqn:E.
  unfold run_loop in E.
  destruct (run_steps _ _ _ _ _ _ _ _ _ E) as (H1 & H2 & H3 & H4).
  split; [|split; [|split]].
  - intros s. rewrite H1. reflexivity.
  - intros s. rewrite H2, dd_get_update. cbn [dd_get].
    destruct (str_eqb (sender first) s); lia.
  - rewrite H3, sum_dd_update_incr. reflexivity.
  - rewrite H4. reflexivity.
Qed.

(** C5: in the interaction metrics, the response-time samples of every
    sender [s] are the deltas of the adjacent pairs whose second message is
    from [s], from a different sender than the first, with a delta strictly
    between 0 and 3600 seconds; the pauses recorded are those of the pairs
    whose delta exceeds 14400 seconds, and a starter count is one for the
    first sender plus one per such pair for the sender after the pause;
    with fewer than two messages all three lists are empty; the reported
    response times summarise the recorded samples, the reported starters
    are the recorded counts, and the reported pauses are the first
    [min 10 n] of the recorded ones sorted by duration descending, none of
    the others being longer. *)
Theorem interaction_pair_rules : forall msgs,
  (forall s, dd_get [] s (recorded_response_times msgs) = response_samples s msgs) /\
  recorded_pauses msgs = long_pauses msgs /\
  ((2 <= List.length msgs)%nat ->
     forall s, dd_get 0 s (recorded_starters msgs) = starter_count s msgs) /\
  ((List.length msgs < 2)%nat -> get_interaction_metrics msgs = mkmetrics [] [] []) /\
  response_times (get_interaction_metrics msgs) =
    map summarize (filter (fun '(_, times) => match times with [] => false | _ => true end)
                          (recorded_response_times msgs)) /\
  Permutation (conversation_starters (get_interaction_metrics msgs)) (recorded_starters msgs) /\
  (let top := longest_pauses (get_interaction_metrics msgs) in
   List.length top = Nat.min 10 (List.length (recorded_pauses msgs)) /\
   Sorted (key_ge duration_hours) top /\
   exists rest, Permutation (top ++ rest) (recorded_pauses msgs) /\
     forall p q, In p top -> In q rest -> duration_hours q <= duration_hours p).
Proof.
  intros [|first [|c r]].
  - repeat split; try (intros; lia); try constructor.
    exists []. split; [constructor | intros p q []].
  - repeat split; try (intros; cbn in *; lia); try constructor.
    exists []. split; [constructor | intros p q []].
  - destruct (run_loop_facts first c r) as (H1 & H2 & _ & H4).
    split; [exact H1|]. split; [exact H4|]. split; [intros _; exact H2|].
    split; [cbn; intros; lia|].
    pose proof (top_ten_pauses (recorded_pauses (first :: c :: r))) as T.
    unfold recorded_response_times, recorded_starters, recorded_pauses in *.
    unfold get_interaction_metrics.
    destruct (run_loop first (c :: r)) as [[[rts st] ps] last].
    split; [reflexivity|]. split; [apply sort_desc_perm | exact T].
Qed.

Lemma interaction_pair_rules_witness :
  (2 <= List.length interaction_rows)%nat /\
  forall s, dd_get 0 s (recorded_starters interaction_rows) = starter_count s interaction_rows.
Proof.
  assert (H : (2 <= List.length interaction_rows)%nat) by (simpl; lia).
  split; [exact H|].
  destruct (interaction_pair_rules interaction_rows) as (_ & _ & Hs & _).
  exact (Hs H).
Defined.

(** C10: with at least two messages, the conversation-starter counts sum
    to one plus the number of long pauses recorded (before the top-ten
    cut). *)
Theorem starters_sum : forall msgs,
  (2 <= List.length msgs)%nat ->
  sum_Z (map snd (conversation_starters (get_interaction_metrics msgs))) =
  1 + Z.of_nat (List.length (recorded_pauses msgs)).
Proof.
  intros [|first [|c r]] Hl; cbn [List.length] in Hl; try lia.
  destruct (run_loop_facts first c r) as (_ & _ & H3 & H4).
  rewrite H4. unfold long_pauses. rewrite length_map.
  rewrite <- H3. unfold recorded_starters, get_interaction_metrics.
  destruct (run_loop first (c :: r)) as [[[rts st] ps] last].
  apply sum_Z_perm, Permutation_map, sort_desc_perm.
Qed.

Lemma starters_sum_witness :
  (2 <= List.length interaction_rows)%nat /\
  sum_Z (map snd (conversation_starters (get_interaction_metrics interaction_rows))) =
  1 + Z.of_nat (List.length (recorded_pauses interaction_rows)).
Proof.
  assert (H : (2 <= List.length interaction_rows)%nat) by (simpl; lia).
  split; [exact H | exact (starters_sum interaction_rows H)].
Defined.

End InteractionProps.

(** ** Errors of the analytics *)

Module AnalyticsErrorProps.
Import PyStr DateTime Py Timeline WordFrequency AnalyticsSpec.

(** C6: [get_timeline_data] raises the [ValueError] of an invalid
    granularity, but [get_activity_over_time], the other bucketing query of
    the analytics, reads its unassigned local [stmt] and raises
    [UnboundLocalError] instead; both succeed on the three valid ones. *)
Theorem granularity_handling : forall ts g,
  (valid_granularity g = false ->
     get_timeline_data ts g =
       Err (ValueError (str "Granularity must be 'daily', 'weekly', or 'monthly'")) /\
     get_activity_over_time ts g = Err (UnboundLocalError (str "stmt"))) /\
  (valid_granularity g = true ->
     (exists v, get_timeline_data ts g = Ok v) /\
     (exists a, get_activity_over_time ts g = Ok a)).
Proof.
  intros ts g. unfold valid_granularity, get_timeline_data, get_activity_over_time.
  destruct (str_eqb g (str "daily")); [|destruct (str_eqb g (str "weekly"));
    [|destruct (str_eqb g (str "monthly"))]]; cbn [orb];
    split; intros H; try discriminate;
    try (split; reflexivity);
    (split; [eexists; reflexivity | destruct (first_last ts); eexists; reflexivity]).
Qed.

Lemma granularity_handling_witness :
  valid_granularity (str "yearly") = false /\
  get_timeline_data [] (str "yearly") =
    Err (ValueError (str "Granularity must be 'daily', 'weekly', or 'monthly'")) /\
  get_activity_over_time [] (str "yearly") = Err (UnboundLocalError (str "stmt")).
Proof.
  assert (H : valid_granularity (str "yearly") = false) by reflexivity.
  split; [exact H|]. exact (proj1 (granularity_handling [] (str "yearly")) H).
Defined.

Lemma fold_counted_err : forall l e,
  fold_left (fun acc message_content =>
               bind acc (fun counter =>
               bind lookup_extract_words (fun extract =>
               Ok (counter_update counter (filter keep_word (extract message_content))))))
            l (Err e) = Err e.
Proof. induction l as [|x l IH]; intros e; [reflexivity | apply IH]. Qed.

Lemma fold_counted_text : forall c l,
  fold_left (fun acc message_content =>
               bind acc (fun counter =>
               bind lookup_extract_words (fun extract =>
               Ok (counter_update counter (filter keep_word (extract message_content))))))
            (c :: l) (Ok []) =
  Err (AttributeError (str "'ChatAnalyzer' object has no attribute '_extract_words'")).
Proof. intros c l. exact (fold_counted_err l _). Qed.

(** C9: [get_word_frequency] returns no entry at all for a chat with a
    text message: it calls [self._extract_words], which [ChatAnalyzer] does
    not define, and raises [AttributeError]; without a text message it
    returns the empty list. *)
Theorem word_frequency_raises : forall messages limit,
  get_word_frequency messages limit =
  if has_text messages
  then Err (AttributeError (str "'ChatAnalyzer' object has no attribute '_extract_words'"))
  else Ok [].
Proof.
  intros messages limit. unfold get_word_frequency, has_text.
  induction messages as [|[c t] ms IH].
  { cbn. unfold entries, most_common, sort_desc. cbn [fold_left]. rewrite firstn_nil. reflexivity. }
  cbn [filter existsb]. destruct t; cbn [map orb];
    [rewrite fold_counted_text; reflexivity | exact IH ..].
Qed.

End AnalyticsErrorProps.

(** ** Properties of the heatmap *)

Module HeatmapProps.
Import PyStr DateTime Py Sql Heatmap HeatmapSpec Samples.

Lemma length_set_nth : forall {A} (l : list A) k x, List.length (set_nth l k x) = List.length l.
Proof.
  intros A l. induction l as [|y l IH]; intros [|k] x; simpl; try reflexivity. rewrite IH; reflexivity.
Qed.

Lemma nth_set_nth : forall {A} (l : list A) k x j d, (k < List.length l)%nat ->
  nth j (set_nth l k x) d = if Nat.eqb j k then x else nth j l d.
Proof.
  intros A l. induction l as [|y l IH]; intros k x j d Hk; simpl in Hk; [lia|].
  destruct k as [|k], j as [|j]; simpl; try reflexivity.
  apply IH. lia.
Qed.

Lemma in_set_nth : forall {A} (l : list A) k x y, In y (set_nth l k x) -> In y l \/ y = x.
Proof.
  intros A l. induction l as [|z l IH]; intros [|k] x y H; simpl in H; try tauto.
  - destruct H as [<- | H]; [right; reflexivity | left; right; exact H].
  - destruct H as [<- | H]; [left; left; reflexivity|].
    destruct (IH _ _ _ H) as [H' | H']; [left; right; exact H' | right; exact H'].
Qed.

Lemma sum_map_set_nth : forall {A} (f : A -> Z) l k x d, (k < List.length l)%nat ->
  sum_Z (map f (set_nth l k x)) = sum_Z (map f l) - f (nth k l d) + f x.
Proof.
  intros A f l. unfold sum_Z. induction l as [|y l IH]; intros [|k] x d Hk; simpl in Hk; try lia.
  - cbn [set_nth map fold_right nth]. lia.
  - cbn [set_nth map fold_right nth]. rewrite (IH k x d); lia.
Qed.

Lemma sum_set_nth : forall l k x, (k < List.length l)%nat ->
  sum_Z (set_nth l k x) = sum_Z l - nth k l 0 + x.
Proof.
  intros l k x Hk. pose proof (sum_map_set_nth (fun z => z) l k x 0 Hk) as H.
  rewrite !map_id in H. exact H.
Qed.

Lemma nat_eqb_to_nat : forall (d : nat) (i : Z), 0 <= i ->
  Nat.eqb d (Z.to_nat i) = (i =? Z.of_nat d).
Proof.
  intros d i Hi. destruct (Nat.eqb_spec d (Z.to_nat i)), (Z.eqb_spec i (Z.of_nat d)); lia.
Qed.

(** Writing an in-range cell of a 7x24 matrix. *)
Lemma set_cell_in_range : forall m i j v,
  shape m -> 0 <= i < 7 -> 0 <= j < 24 ->
  exists m', set_cell m i j v = Some m' /\ shape m' /\
    (forall d h, cell m' d h =
       if Nat.eqb d (Z.to_nat i) && Nat.eqb h (Z.to_nat j) then v else cell m d h) /\
    matrix_sum m' = matrix_sum m - cell m (Z.to_nat i) (Z.to_nat j) + v /\
    (forall x, In x (List.concat m') -> In x (List.concat m) \/ x = v).
Proof.
  intros m i j v [Hl Hr] Hi Hj.
  set (i' := Z.to_nat i). set (j' := Z.to_nat j).
  set (row := nth i' m []).
  assert (Hi' : (i' < List.length m)%nat) by (subst i'; lia).
  assert (Hrow : List.length row = 24%nat) by (apply Hr, nth_In, Hi').
  assert (Hj' : (j' < List.length row)%nat) by (subst j'; lia).
  exists (set_nth m i' (set_nth row j' v)).
  split; [|split; [|split; [|split]]].
  - unfold set_cell, py_index. rewrite Hl.
    replace ((0 <=? i) && (i <? Z.of_nat 7)) with true
      by (symmetry; apply andb_true_iff; split; [apply Z.leb_le | apply Z.ltb_lt]; lia).
    fold i'. fold row. rewrite Hrow.
    replace ((0 <=? j) && (j <? Z.of_nat 24)) with true
      by (symmetry; apply andb_true_iff; split; [apply Z.leb_le | apply Z.ltb_lt]; lia).
    reflexivity.
  - split; [rewrite length_set_nth; exact Hl|].
    intros r Hin. destruct (in_set_nth _ _ _ _ Hin) as [H | ->].
    + apply Hr, H.
    + rewrite length_set_nth. exact Hrow.
  - intros d h. unfold cell. rewrite (nth_set_nth _ _ _ _ _ Hi').
    destruct (Nat.eqb_spec d i') as [-> | Hd]; cbn [andb].
    + rewrite (nth_set_nth _ _ _ _ _ Hj'). destruct (Nat.eqb h j'); reflexivity.
    + reflexivity.
  - unfold matrix_sum. rewrite (sum_map_set_nth sum_Z m i' _ [] Hi').
    fold row. rewrite (sum_set_nth _ _ _ Hj'). unfold cell. fold row. lia.
  - intros x Hx. apply List.in_concat in Hx as (r & Hr' & Hx).
    destruct (in_set_nth _ _ _ _ Hr') as [H | ->].
    + left. apply List.in_concat. exists r. split; assumption.
    + destruct (in_set_nth _ _ _ _ Hx) as [H | ->]; [|right; reflexivity].
      left. apply List.in_concat. exists row. split; [apply nth_In, Hi' | exact H].
Qed.

(** The loop over the query rows, from any 7x24 matrix whose cells at the
    rows' keys are still zero. *)
Lemma fill_fold : forall rows m mx,
  shape m ->
  (forall k c, In (k, c) rows -> in_grid k) ->
  NoDup (map fst rows) ->
  (forall k c, In (k, c) rows -> cell m (Z.to_nat (fst k)) (Z.to_nat (snd k)) = 0) ->
  exists m', fold_left fill_step rows (Some (m, mx)) = Some (m', fold_left Z.max (map snd rows) mx) /\
    shape m' /\
    matrix_sum m' = matrix_sum m + sum_Z (map snd rows) /\
    (forall d h, cell m' d h = cell m d h + sum_Z (map snd (filter (at_key d h) rows))) /\
    (forall x, In x (List.concat m') -> In x (List.concat m) \/ In x (map snd rows)).
Proof.
  induction rows as [|[[i j] c] rows IH]; intros m mx Hs Hg Hnd Hz.
  - exists m. split; [reflexivity|]. split; [exact Hs|].
    split; [cbn; lia|]. split; [intros; cbn; lia|]. intros x Hx; left; exact Hx.
  - destruct (Hg (i, j) c (or_introl eq_refl)) as [Hi Hj]. cbn [fst snd] in Hi, Hj.
    destruct (set_cell_in_range m i j c Hs Hi Hj) as (m1 & Hset & Hs1 & Hc1 & Hsum1 & Hin1).
    cbn [fold_left].
    replace (fill_step (Some (m, mx)) ((i, j), c)) with (Some (m1, Z.max mx c))
      by (unfold fill_step; rewrite Hset; reflexivity).
    inversion Hnd as [|? ? Hnotin Hnd']; subst.
    assert (Hz0 : cell m (Z.to_nat i) (Z.to_nat j) = 0) by exact (Hz (i, j) c (or_introl eq_refl)).
    assert (Hz1 : forall k c', In (k, c') rows -> cell m1 (Z.to_nat (fst k)) (Z.to_nat (snd k)) = 0).
    { intros k c' Hk. rewrite Hc1.
      destruct (Nat.eqb (Z.to_nat (fst k)) (Z.to_nat i) && Nat.eqb (Z.to_nat (snd k)) (Z.to_nat j)) eqn:E.
      - exfalso. apply Hnotin. apply andb_true_iff in E as [E1 E2].
        apply Nat.eqb_eq in E1, E2.
        destruct (Hg k c' (or_intror Hk)) as [G1 G2].
        replace (i, j) with k; [exact (in_map fst _ _ Hk)|].
        destruct k as [k1 k2]; cbn [fst snd] in *. f_equal; lia.
      - exact (Hz k c' (or_intror Hk)). }
    destruct (IH m1 (Z.max mx c) Hs1 (fun k c' H => Hg k c' (or_intror H)) Hnd' Hz1)
      as (m' & Hf & Hs' & Hsum' & Hc' & Hin').
    exists m'. split; [exact Hf|]. split; [exact Hs'|]. split; [|split].
    + rewrite Hsum', Hsum1, Hz0. unfold sum_Z. cbn [map fold_right snd]. lia.
    + intros d h. rewrite Hc', Hc1. cbn [filter].
      replace (at_key d h ((i, j), c)) with (Nat.eqb d (Z.to_nat i) && Nat.eqb h (Z.to_nat j))
        by (unfold at_key, pair_eqb; cbn [fst snd]; rewrite !nat_eqb_to_nat by lia; reflexivity).
      destruct (Nat.eqb d (Z.to_nat i) && Nat.eqb h (Z.to_nat j)) eqn:E.
      * apply andb_true_iff in E as [E1 E2]. apply Nat.eqb_eq in E1, E2. subst d h.
        rewrite Hz0. unfold sum_Z. cbn [map fold_right snd]. lia.
      * reflexivity.
    + intros x Hx. destruct (Hin' x Hx) as [H | H].
      * destruct (Hin1 x H) as [H' | ->]; [left; exact H' | right; left; reflexivity].
      * right; right; exact H.
Qed.

Lemma pair_eqb_true : forall a b, pair_eqb a b = true <-> a = b.
Proof.
  intros [a1 a2] [b1 b2]. unfold pair_eqb. cbn [fst snd].
  rewrite andb_true_iff, !Z.eqb_eq. split; [intros [-> ->]; reflexivity | intros H; injection H; auto].
Qed.

Lemma pair_eqb_refl : forall a, pair_eqb a a = true.
Proof. intros a. apply pair_eqb_true. reflexivity. Qed.

Lemma key_is_pair : forall q k c, key_is q (k, c) = pair_eqb k q.
Proof. reflexivity. Qed.

Lemma group_incr_keys : forall k g,
  map fst (group_incr pair_eqb k g) =
  if existsb (fun k' => pair_eqb k' k) (map fst g) then map fst g else map fst g ++ [k].
Proof.
  intros k g. induction g as [|[k' c] r IH]; [reflexivity|].
  cbn [group_incr map existsb fst]. destruct (pair_eqb k' k); cbn [orb map fst]; [reflexivity|].
  rewrite IH. destruct (existsb _ _); reflexivity.
Qed.

Lemma group_incr_nodup : forall k g,
  NoDup (map fst g) -> NoDup (map fst (group_incr pair_eqb k g)).
Proof.
  intros k g H. rewrite group_incr_keys.
  destruct (existsb (fun k' => pair_eqb k' k) (map fst g)) eqn:E; [exact H|].
  apply Permutation_NoDup with (k :: map fst g); [apply Permutation_cons_append|].
  constructor; [|exact H]. intros Hin.
  assert (existsb (fun k' => pair_eqb k' k) (map fst g) = true)
    by (apply existsb_exists; exists k; split; [exact Hin | apply pair_eqb_refl]).
  congruence.
Qed.

Lemma group_incr_in : forall k g,
  (forall kc, In kc g -> 1 <= snd kc) ->
  forall kc, In kc (group_incr pair_eqb k g) -> 1 <= snd kc /\ (In (fst kc) (map fst g) \/ fst kc = k).
Proof.
  intros k g. induction g as [|[k' c] r IH]; intros Hpos kc Hin; cbn [group_incr] in Hin.
  - destruct Hin as [<- | []]. cbn. split; [lia | right; reflexivity].
  - destruct (pair_eqb k' k).
    + destruct Hin as [<- | Hin].
      * cbn [fst snd]. specialize (Hpos (k', c) (or_introl eq_refl)). cbn in Hpos.
        split; [lia | left; left; reflexivity].
      * split; [apply Hpos; right; exact Hin | left; right; apply in_map, Hin].
    + destruct Hin as [<- | Hin].
      * split; [apply Hpos; left; reflexivity | left; left; reflexivity].
      * destruct (IH (fun kc' H => Hpos kc' (or_intror H)) kc Hin) as [H1 [H2 | H2]].
        -- split; [exact H1 | left; right; exact H2].
        -- split; [exact H1 | right; exact H2].
Qed.

Lemma group_incr_sum : forall k g,
  sum_Z (map snd (group_incr pair_eqb k g)) = 1 + sum_Z (map snd g).
Proof.
  intros k g. unfold sum_Z. induction g as [|[k' c] r IH]; [reflexivity|].
  cbn [group_incr]. destruct (pair_eqb k' k); cbn [map fold_right snd]; [lia|].
  rewrite IH. lia.
Qed.

Lemma group_incr_at : forall k q g,
  sum_Z (map snd (filter (key_is q) (group_incr pair_eqb k g))) =
  (if pair_eqb k q then 1 else 0) + sum_Z (map snd (filter (key_is q) g)).
Proof.
  intros k q g. unfold sum_Z. induction g as [|[k' c] r IH].
  - cbn [group_incr filter]. rewrite key_is_pair. destruct (pair_eqb k q); cbn; lia.
  - cbn [group_incr]. destruct (pair_eqb k' k) eqn:E.
    + apply pair_eqb_true in E. subst k'. cbn [filter]. rewrite !key_is_pair.
      destruct (pair_eqb k q); cbn [map fold_right snd]; lia.
    + cbn [filter]. rewrite !key_is_pair.
      destruct (pair_eqb k' q); cbn [map fold_right snd]; lia.
Qed.

Lemma group_fold_nodup : forall keys g,
  NoDup (map fst g) -> NoDup (map fst (fold_left (fun g k => group_incr pair_eqb k g) keys g)).
Proof.
  induction keys as [|k keys IH]; intros g H; [exact H|].
  apply IH, group_incr_nodup, H.
Qed.

Lemma group_fold_in : forall keys g,
  (forall kc, In kc g -> 1 <= snd kc) ->
  forall kc, In kc (fold_left (fun g k => group_incr pair_eqb k g) keys g) ->
    1 <= snd kc /\ (In (fst kc) (map fst g) \/ In (fst kc) keys).
Proof.
  induction keys as [|k keys IH]; intros g Hpos kc Hin.
  - split; [apply Hpos, Hin | left; apply in_map, Hin].
  - cbn [fold_left] in Hin.
    assert (Hpos' : forall kc, In kc (group_incr pair_eqb k g) -> 1 <= snd kc)
      by (intros kc' H; apply (group_incr_in k g Hpos kc' H)).
    destruct (IH _ Hpos' kc Hin) as [H1 [H2 | H2]]; split; try exact H1.
    + apply in_map_iff in H2 as (kc' & Hk & H2).
      destruct (group_incr_in k g Hpos kc' H2) as [_ [H3 | H3]]; rewrite Hk in H3.
      * left; exact H3.
      * right; left; symmetry; exact H3.
    + right; right; exact H2.
Qed.

Lemma group_fold_sum : forall keys g,
  sum_Z (map snd (fold_left (fun g k => group_incr pair_eqb k g) keys g)) =
  sum_Z (map snd g) + Z.of_nat (List.length keys).
Proof.
  induction keys as [|k keys IH]; intros g; cbn [fold_left List.length]; [lia|].
  rewrite IH, group_incr_sum. lia.
Qed.

Lemma group_fold_at : forall keys g q,
  sum_Z (map snd (filter (key_is q) (fold_left (fun g k => group_incr pair_eqb k g) keys g))) =
  sum_Z (map snd (filter (key_is q) g)) + Z.of_nat (List.length (filter (fun k => pair_eqb k q) keys)).
Proof.
  induction keys as [|k keys IH]; intros g q; cbn [fold_left filter List.length]; [lia|].
  rewrite IH, group_incr_at. destruct (pair_eqb k q); cbn [List.length]; lia.
Qed.

Lemma permutation_filter : forall {A} (f : A -> bool) l l',
  Permutation l l' -> Permutation (filter f l) (filter f l').
Proof.
  intros A f l l' H. induction H; cbn [filter].
  - constructor.
  - destruct (f x); [constructor|]; exact IHPermutation.
  - destruct (f x), (f y); first [apply perm_swap | reflexivity].
  - eapply perm_trans; eassumption.
Qed.

Lemma filter_not_key : forall (rows : list ((Z * Z) * Z)) k,
  ~ In k (map fst rows) -> filter (key_is k) rows = [].
Proof.
  induction rows as [|[k' c] r IH]; intros k H; [reflexivity|].
  cbn [filter]. rewrite key_is_pair.
  destruct (pair_eqb k' k) eqn:E.
  - apply pair_eqb_true in E. subst. exfalso. apply H. left. reflexivity.
  - apply IH. intros Hin. apply H. right. exact Hin.
Qed.

Lemma sum_filter_unique : forall (rows : list ((Z * Z) * Z)) k c,
  NoDup (map fst rows) -> In (k, c) rows -> sum_Z (map snd (filter (key_is k) rows)) = c.
Proof.
  induction rows as [|[k' c'] r IH]; intros k c Hnd Hin; [destruct Hin|].
  cbn [map] in Hnd. apply NoDup_cons_iff in Hnd as [Hnot Hnd].
  cbn [filter]. rewrite key_is_pair. destruct Hin as [E | Hin].
  - injection E as -> ->. rewrite pair_eqb_refl, filter_not_key by exact Hnot.
    unfold sum_Z. cbn. lia.
  - destruct (pair_eqb k' k) eqn:E.
    + apply pair_eqb_true in E. subst k'. exfalso. apply Hnot.
      exact (in_map fst _ _ Hin).
    + exact (IH k c Hnd Hin).
Qed.

Lemma fold_max_spec : forall l a,
  a <= fold_left Z.max l a /\ (forall x, In x l -> x <= fold_left Z.max l a) /\
  (fold_left Z.max l a = a \/ In (fold_left Z.max l a) l).
Proof.
  induction l as [|y l IH]; intros a; cbn [fold_left].
  - split; [lia|]. split; [intros x []|left; reflexivity].
  - destruct (IH (Z.max a y)) as (H1 & H2 & H3). split; [lia|]. split.
    + intros x [<- | Hx]; [lia | apply H2, Hx].
    + destruct H3 as [H3 | H3]; [|right; right; exact H3].
      rewrite H3. destruct (Z.max_spec a y) as [[_ ->] | [_ ->]]; [right; left | left]; reflexivity.
Qed.

Lemma cell_zero_matrix : forall d h, cell zero_matrix d h = 0.
Proof.
  intros d h. unfold cell.
  assert (E : nth d zero_matrix [] = repeat 0 24 \/ nth d zero_matrix [] = []).
  { unfold zero_matrix. do 7 (destruct d as [|d]; [left; reflexivity|]).
    right; destruct d; reflexivity. }
  destruct E as [-> | ->]; [apply nth_repeat | destruct h; reflexivity].
Qed.

Lemma shape_zero_matrix : shape zero_matrix.
Proof.
  split; [reflexivity|]. intros r Hr. unfold zero_matrix in Hr.
  apply repeat_spec in Hr. subst r. reflexivity.
Qed.

Lemma cell_in_concat : forall m d h, shape m -> (d < 7)%nat -> (h < 24)%nat ->
  In (cell m d h) (List.concat m).
Proof.
  intros m d h [Hl Hr] Hd Hh. apply List.in_concat. exists (nth d m []).
  assert (Hin : In (nth d m []) m) by (apply nth_In; lia).
  split; [exact Hin|].
  unfold cell. apply nth_In. rewrite (Hr _ Hin). exact Hh.
Qed.

Lemma valid_key_in_grid : forall t, valid t = true -> in_grid (key_of t).
Proof.
  intros t H. unfold valid in H. rewrite !andb_true_iff, !Z.leb_le in H.
  unfold in_grid, key_of, strftime_w, strftime_H. cbn [fst snd].
  split; [apply Z.mod_pos_bound; lia | lia].
Qed.

Lemma in_zero_matrix : forall x, In x (List.concat zero_matrix) -> x = 0.
Proof.
  intros x Hx. apply List.in_concat in Hx as (r & Hr & Hx).
  unfold zero_matrix in Hr. apply repeat_spec in Hr. subst r.
  apply repeat_spec in Hx. exact Hx.
Qed.

(** C8: for any order of the rows of the query on valid timestamps, the
    heatmap is built without error, its days run from Sunday, its matrix
    is 7x24 and cell [d][h] holds the number of messages whose [%w] day of
    week (Sunday = 0) is [d] and whose hour is [h]; the cells sum to the
    number of messages, and [max_count] is a cell value no cell exceeds. *)
Theorem heatmap_counts : forall ts rows,
  (forall t, In t ts -> valid t = true) ->
  Permutation rows (heatmap_groups ts) ->
  exists r, get_hourly_activity_heatmap rows = Some r /\
    days r = day_names /\ shape (data r) /\
    (forall d h, cell (data r) d h = messages_at ts d h) /\
    matrix_sum (data r) = Z.of_nat (List.length ts) /\
    In (max_count r) (List.concat (data r)) /\
    (forall x, In x (List.concat (data r)) -> x <= max_count r).
Proof.
  intros ts rows Hv Hp.
  set (keys := map key_of ts).
  set (g := heatmap_groups ts).
  assert (Hg : g = fold_left (fun g k => group_incr pair_eqb k g) keys []) by reflexivity.
  assert (Hnd : NoDup (map fst rows)).
  { apply Permutation_NoDup with (map fst g); [apply Permutation_map, Permutation_sym, Hp|].
    rewrite Hg. apply group_fold_nodup. constructor. }
  assert (Hin : forall kc, In kc rows -> 1 <= snd kc /\ In (fst kc) keys).
  { intros kc H. apply (Permutation_in _ Hp) in H. fold g in H. rewrite Hg in H.
    destruct (group_fold_in keys [] (fun _ H => match H with end) kc H) as [H1 [[] | H2]].
    split; assumption. }
  assert (Hgrid : forall k c, In (k, c) rows -> in_grid k).
  { intros k c H. destruct (Hin _ H) as [_ Hk]. cbn [fst] in Hk. subst keys.
    apply in_map_iff in Hk as (t & <- & Ht). apply valid_key_in_grid, Hv, Ht. }
  assert (Hz : forall k c, In (k, c) rows ->
                 cell zero_matrix (Z.to_nat (fst k)) (Z.to_nat (snd k)) = 0)
    by (intros; apply cell_zero_matrix).
  destruct (fill_fold rows zero_matrix 0 shape_zero_matrix Hgrid Hnd Hz)
    as (m' & Hf & Hs & Hsum & Hc & Hx).
  exists (mkheatmap day_names (map hour_label (seq 0 24)) m' (fold_left Z.max (map snd rows) 0)).
  split; [unfold get_hourly_activity_heatmap; rewrite Hf; reflexivity|].
  cbn [days data max_count].
  split; [reflexivity|]. split; [exact Hs|].
  assert (Hsnd : Permutation (map snd rows) (map snd g)) by (apply Permutation_map, Hp).
  split; [|split; [|split]].
  - intros d h. rewrite Hc, cell_zero_matrix, Z.add_0_l.
    change (filter (at_key d h) rows) with (filter (key_is (Z.of_nat d, Z.of_nat h)) rows).
    rewrite (InteractionProps.sum_Z_perm _ _ (Permutation_map snd (permutation_filter _ _ _ Hp))).
    fold g. rewrite Hg, group_fold_at. unfold sum_Z at 1. cbn [filter map fold_right].
    rewrite Z.add_0_l. unfold messages_at. subst keys.
    rewrite filter_map_swap, length_map. reflexivity.
  - rewrite Hsum. replace (matrix_sum zero_matrix) with 0 by reflexivity.
    rewrite (InteractionProps.sum_Z_perm _ _ Hsnd). rewrite Hg, group_fold_sum.
    subst keys. rewrite length_map. unfold sum_Z. cbn. reflexivity.
  - destruct (fold_max_spec (map snd rows) 0) as (H1 & H2 & [H3 | H3]).
    + rewrite H3. destruct rows as [|kc rs].
      * replace 0 with (cell m' 0 0) by (rewrite Hc, cell_zero_matrix; reflexivity).
        apply cell_in_concat; [exact Hs | lia | lia].
      * exfalso. destruct (Hin kc (or_introl eq_refl)) as [Hpos _].
        specialize (H2 (snd kc) (or_introl eq_refl)). lia.
    + apply in_map_iff in H3 as ([[k1 k2] c] & Hc' & Hkc). cbn [snd] in Hc'. rewrite <- Hc'.
      destruct (Hgrid _ _ Hkc) as [G1 G2]. cbn [fst snd] in G1, G2.
      replace c with (cell m' (Z.to_nat k1) (Z.to_nat k2)).
      * apply cell_in_concat; [exact Hs | lia | lia].
      * rewrite Hc, cell_zero_matrix, Z.add_0_l.
        change (filter (at_key (Z.to_nat k1) (Z.to_nat k2)) rows)
          with (filter (key_is (Z.of_nat (Z.to_nat k1), Z.of_nat (Z.to_nat k2))) rows).
        rewrite !Z2Nat.id by lia. exact (sum_filter_unique rows (k1, k2) c Hnd Hkc).
  - intros x Hx'. destruct (fold_max_spec (map snd rows) 0) as (H1 & H2 & _).
    destruct (Hx x Hx') as [H | H].
    + apply in_zero_matrix in H. lia.
    + apply H2, H.
Qed.

Lemma heatmap_counts_witness :
  (forall t, In t heatmap_sample -> valid t = true) /\
  exists r, get_hourly_activity_heatmap (heatmap_groups heatmap_sample) = Some r /\
    cell (data r) 0 9 = 2 /\ cell (data r) 1 23 = 1 /\ cell (data r) 1 9 = 0.
Proof.
  assert (Hv : forall t, In t heatmap_sample -> valid t = true).
  { intros t Ht. repeat destruct Ht as [<- | Ht]; try reflexivity. destruct Ht. }
  split; [exact Hv|].
  destruct (heatmap_counts heatmap_sample (heatmap_groups heatmap_sample) Hv (Permutation_refl _))
    as (r & Hr & _ & _ & Hc & _).
  exists r. split; [exact Hr|]. rewrite !Hc. vm_compute. split; [reflexivity | split; reflexivity].
Defined.

End HeatmapProps.

Module StoreProps.
Import PyStr DateTime Re Strptime Parser ParseAux Py Dict Store.

Lemma str_eqb_refl : forall a, str_eqb a a = true.
Proof. intros a. apply InteractionProps.str_eqb_true. reflexivity. Qed.

Lemma existsb_str_eqb_notin : forall x s, existsb (str_eqb x) s = false -> ~ In x s.
Proof.
  intros x s H Hin.
  assert (existsb (str_eqb x) s = true)
    by (apply existsb_exists; exists x; split; [exact Hin | apply str_eqb_refl]).
  congruence.
Qed.

Lemma set_add_spec : forall x s, NoDup s ->
  NoDup (set_add x s) /\ forall y, In y (set_add x s) <-> In y s \/ y = x.
Proof.
  intros x s Hnd. unfold set_add. destruct (existsb (str_eqb x) s) eqn:E.
  - apply existsb_exists in E as (z & Hz & Ez). apply InteractionProps.str_eqb_true in Ez.
    subst z. split; [exact Hnd|]. intros y; split; [auto | intros [H | ->]; assumption].
  - apply existsb_str_eqb_notin in E. split.
    + apply Permutation_NoDup with (x :: s); [apply Permutation_cons_append|].
      constructor; assumption.
    + intros y. rewrite in_app_iff. cbn [In].
      split; [intros [H | [H | []]]; auto | intros [H | H]; auto].
Qed.

Lemma add_participants_spec : forall ms ps, NoDup ps ->
  NoDup (add_participants ms ps) /\
  forall p, In p (add_participants ms ps) <-> In p ps \/ exists m, In m ms /\ participant m = p.
Proof.
  unfold add_participants. induction ms as [|m ms IH]; intros ps Hnd; cbn [fold_left].
  - split; [exact Hnd|]. intros p; split; [auto | intros [H | (m & [] & _)]; exact H].
  - destruct (set_add_spec (participant m) ps Hnd) as [Hnd' Hin'].
    destruct (IH _ Hnd') as [H1 H2]. split; [exact H1|]. intros p. rewrite H2, Hin'.
    split.
    + intros [[H | ->] | (m' & Hm' & <-)].
      * left; exact H.
      * right; exists m; split; [left|]; reflexivity.
      * right; exists m'; split; [right; exact Hm' | reflexivity].
    + intros [H | (m' & [<- | Hm'] & <-)].
      * left; left; exact H.
      * left; right; reflexivity.
      * right; exists m'; split; [exact Hm' | reflexivity].
Qed.

Lemma parse_chat_participants_eq : forall b f,
  participants (parse_chat b f) = add_participants (emitted (split_on 10 (Utf8.decode_ignore b))) [].
Proof. intros b f. unfold parse_chat. rewrite ParserProps.fold_parse_step. reflexivity. Qed.

Lemma parse_chat_participants_spec : forall b f,
  NoDup (participants (parse_chat b f)) /\
  (forall p, In p (participants (parse_chat b f)) <->
             exists m, In m (messages (parse_chat b f)) /\ participant m = p).
Proof.
  intros b f. rewrite parse_chat_participants_eq, ParserProps.parse_chat_messages.
  destruct (add_participants_spec (emitted (split_on 10 (Utf8.decode_ignore b))) [] (NoDup_nil _))
    as [H1 H2].
  split; [exact H1|]. intros p. rewrite H2.
  split; [intros [[] | H]; exact H | intros H; right; exact H].
Qed.

(** X1: the participants that [parse_chat] returns are distinct, and a name is among them exactly when some returned message has it as its participant. *)
Theorem parse_chat_participants : forall b f,
  NoDup (participants (parse_chat b f)) /\
  (forall p, In p (participants (parse_chat b f)) <->
             exists m, In m (messages (parse_chat b f)) /\ participant m = p).
Proof. exact parse_chat_participants_spec. Qed.

Lemma strptime_valid : forall data fmt d, strptime data fmt = Some d -> valid d = true.
Proof.
  intros data fmt d H. unfold strptime in H.
  destruct (re_match _ _) as [[caps [|c r]]|]; try discriminate.
  destruct (fold_left _ _ _) as [fl|]; try discriminate.
  cbv zeta in H.
  match type of H with context [if valid ?x then _ else _] => destruct (valid x) eqn:E end;
    [|discriminate].
  injection H as <-. exact E.
Qed.

Lemma first_parse_valid : forall fmts ts d, first_parse fmts ts = Some d -> valid d = true.
Proof.
  induction fmts as [|fm fs IH]; intros ts d H; cbn [first_parse] in H; [discriminate|].
  destruct (strptime ts fm) as [d'|] eqn:E.
  - injection H as <-. exact (strptime_valid _ _ _ E).
  - exact (IH _ _ H).
Qed.

(** X2: every message that [parse_chat] returns has a valid timestamp, is never of type [System], and has the type [_determine_message_type] gives its content. *)
Theorem parsed_message_kind : forall b f m,
  In m (messages (parse_chat b f)) ->
  valid (timestamp m) = true /\ msg_type m <> System /\
  msg_type m = determine_message_type (content m).
Proof.
  intros b f m H. rewrite ParserProps.parse_chat_messages in H.
  destruct (ParserProps.emitted_in _ _ H) as (raw & _ & _ & Hp).
  destruct (ParserProps.try_patterns_some _ _ _ Hp)
    as (pat & d & t & a & i & _ & _ & _ & Ht & _ & _ & Hs & Hk & _).
  split; [exact (first_parse_valid _ _ _ Ht)|]. split; [|exact Hk].
  rewrite Hk. unfold determine_message_type. rewrite Hs.
  destruct (_ || _); [discriminate|]. destruct (is_substring _ _); discriminate.
Qed.

Lemma parsed_message_kind_witness :
  let m := mkmsg (mkdatetime 2024 1 2 10 0 0) (str "Alice") (str "hello world") Text 11 2 false false in
  In m (messages (parse_chat Samples.round_trip_transcript (str "chat.txt"))) /\
  (valid (timestamp m) = true /\ msg_type m <> System /\
   msg_type m = determine_message_type (content m)).
Proof.
  intro m.
  assert (Hin : In m (messages (parse_chat Samples.round_trip_transcript (str "chat.txt"))))
    by (vm_compute; left; reflexivity).
  split; [exact Hin | exact (parsed_message_kind _ _ _ Hin)].
Defined.

Lemma prefixb_length : forall p s, prefixb p s = true -> (List.length p <= List.length s)%nat.
Proof.
  induction p as [|x p IH]; intros [|y s] H; cbn in *; try lia; try discriminate.
  apply andb_true_iff in H as [_ H]. apply IH in H. lia.
Qed.

Lemma replace_aux_notin : forall fuel c new s,
  ~ In c new -> (List.length s < fuel)%nat -> ~ In c (replace_aux fuel [c] new s).
Proof.
  induction fuel as [|f IH]; intros c new s Hn Hl; [lia|].
  destruct s as [|x r]; cbn [replace_aux]; [intros []|].
  cbn [prefixb]. rewrite andb_true_r. cbn [List.length] in Hl.
  destruct (c =? x) eqn:E.
  - cbn [List.length skipn]. intros Hin. apply in_app_or in Hin as [Hin | Hin].
    + exact (Hn Hin).
    + exact (IH c new r Hn ltac:(lia) Hin).
  - intros [Hx | Hin].
    + subst x. rewrite Z.eqb_refl in E. discriminate.
    + exact (IH c new r Hn ltac:(lia) Hin).
Qed.

Lemma replace_aux_length : forall fuel old new s,
  (List.length new <= List.length old)%nat ->
  (List.length (replace_aux fuel old new s) <= List.length s)%nat.
Proof.
  induction fuel as [|f IH]; intros old new s Hl; [cbn; lia|].
  destruct s as [|x r]; cbn [replace_aux]; [cbn; lia|].
  destruct (prefixb old (x :: r)) eqn:E.
  - rewrite length_app. pose proof (prefixb_length _ _ E).
    specialize (IH old new (skipn (List.length old) (x :: r)) Hl).
    rewrite length_skipn in IH. lia.
  - cbn [List.length]. specialize (IH old new r Hl). lia.
Qed.

Lemma replace_aux_id : forall fuel old new s,
  is_substring old s = false -> replace_aux fuel old new s = s.
Proof.
  induction fuel as [|f IH]; intros old new s H; [reflexivity|].
  destruct s as [|x r]; [reflexivity|]. cbn [replace_aux]. cbn [is_substring] in H.
  apply orb_false_iff in H as [H1 H2]. rewrite H1, IH by exact H2. reflexivity.
Qed.

Lemma substring_char_notin : forall c s, ~ In c s -> is_substring [c] s = false.
Proof.
  induction s as [|x r IH]; intros H; [reflexivity|].
  cbn [is_substring prefixb]. rewrite andb_true_r, IH by (intros Hin; apply H; right; exact Hin).
  destruct (c =? x) eqn:E; [|reflexivity].
  apply Z.eqb_eq in E. subst. exfalso. apply H. left. reflexivity.
Qed.

Lemma parse_chat_title_eq : forall b f,
  title (parse_chat b f) = replace (str "_") (str " ") (replace (str ".txt") [] f).
Proof.
  intros b f. unfold parse_chat. destruct (fold_left parse_step _ _) as [[? ?] ?]. reflexivity.
Qed.

(** X3: the title of [parse_chat] holds no underscore and is no longer than the file name; a file name without [.txt] and without underscores is its own title. *)
Theorem parse_chat_title : forall b f,
  ~ In 95 (title (parse_chat b f)) /\
  (List.length (title (parse_chat b f)) <= List.length f)%nat /\
  (is_substring (str ".txt") f = false -> ~ In 95 f -> title (parse_chat b f) = f).
Proof.
  intros b f. rewrite parse_chat_title_eq. unfold replace. split; [|split].
  - apply (replace_aux_notin _ 95 [32]); [intros [H | []]; discriminate | lia].
  - etransitivity; [apply replace_aux_length; cbn; lia|].
    apply replace_aux_length. cbn; lia.
  - intros H1 H2. rewrite (replace_aux_id _ _ _ f H1).
    apply replace_aux_id, substring_char_notin, H2.
Qed.

Lemma parse_chat_title_witness :
  is_substring (str ".txt") (str "Family chat") = false /\ ~ In 95 (str "Family chat") /\
  title (parse_chat [] (str "Family chat")) = str "Family chat".
Proof.
  assert (H1 : is_substring (str ".txt") (str "Family chat") = false) by reflexivity.
  assert (H2 : ~ In 95 (str "Family chat")) by (cbn; lia).
  split; [exact H1|]. split; [exact H2|].
  destruct (parse_chat_title [] (str "Family chat")) as (_ & _ & H). exact (H H1 H2).
Defined.

(** Storing. *)

Lemma dict_get_set : forall {V} k j (v : V) d,
  dict_get k (dict_set j v d) = if str_eqb j k then Some v else dict_get k d.
Proof.
  intros V k j v d. induction d as [|[k' v'] r IH]; cbn [dict_set dict_get].
  - destruct (str_eqb j k); reflexivity.
  - destruct (str_eqb k' j) eqn:E1.
    + apply InteractionProps.str_eqb_true in E1. subst k'. cbn [dict_get].
      destruct (str_eqb j k); reflexivity.
    + cbn [dict_get]. rewrite IH. destruct (str_eqb k' k) eqn:E2; [|reflexivity].
      apply InteractionProps.str_eqb_true in E2. subst k'.
      rewrite InteractionProps.str_eqb_sym in E1. rewrite E1. reflexivity.
Qed.

Lemma store_participants_fold : forall cid msgs names rows pm nid,
  (forall k v, dict_get k pm = Some v -> exists p, In p rows /\ p_id p = v /\ p_name p = k) ->
  (forall p, In p rows -> p_chat_id p = cid /\ p_message_count p = message_count_of msgs (p_name p)) ->
  let '(rows', pm', _) :=
    fold_left (fun st participant_name =>
               let '(rows, participant_map, nid) := st in
               (rows ++ [mkprow nid cid participant_name (message_count_of msgs participant_name)],
                dict_set participant_name nid participant_map, nid + 1))
              names (rows, pm, nid) in
  map p_name rows' = map p_name rows ++ names /\
  (forall p, In p rows' -> p_chat_id p = cid /\ p_message_count p = message_count_of msgs (p_name p)) /\
  (forall k, dict_get k pm' = None <-> dict_get k pm = None /\ ~ In k names) /\
  (forall k v, dict_get k pm' = Some v -> exists p, In p rows' /\ p_id p = v /\ p_name p = k).
Proof.
  intros cid msgs names. induction names as [|n ns IH]; intros rows pm nid Hpm Hrows.
  - cbn [fold_left]. rewrite app_nil_r. split; [reflexivity|]. split; [exact Hrows|].
    split; [intros k; split; [intros H; split; [exact H | intros []] | intros [H _]; exact H]|].
    exact Hpm.
  - cbn [fold_left].
    specialize (IH (rows ++ [mkprow nid cid n (message_count_of msgs n)]) (dict_set n nid pm) (nid + 1)).
    destruct (fold_left _ ns _) as [[rows' pm'] nid'].
    destruct IH as (H1 & H2 & H3 & H4).
    + intros k v Hk. rewrite dict_get_set in Hk. destruct (str_eqb n k) eqn:E.
      * injection Hk as <-. apply InteractionProps.str_eqb_true in E. subst k.
        exists (mkprow nid cid n (message_count_of msgs n)).
        split; [apply in_or_app; right; left; reflexivity | split; reflexivity].
      * destruct (Hpm k v Hk) as (p & Hp & Hid & Hn).
        exists p. split; [apply in_or_app; left; exact Hp | split; assumption].
    + intros p Hp. apply in_app_or in Hp as [Hp | [<- | []]]; [exact (Hrows p Hp)|].
      split; reflexivity.
    + split; [rewrite H1, map_app, <- app_assoc; reflexivity|].
      split; [exact H2|]. split; [|exact H4].
      intros k. rewrite H3, dict_get_set. destruct (str_eqb n k) eqn:E.
      * apply InteractionProps.str_eqb_true in E. subst k.
        split; [intros [H _]; discriminate | intros [_ H]; exfalso; apply H; left; reflexivity].
      * split.
        -- intros [Hk Hn]. split; [exact Hk|]. intros [Hnk | Hin]; [|exact (Hn Hin)].
           subst k. rewrite str_eqb_refl in E. discriminate.
        -- intros [Hk Hn]. split; [exact Hk|]. intros Hin. apply Hn. right. exact Hin.
Qed.

Lemma store_messages_spec : forall cid pm msgs nid,
  match store_messages cid pm msgs nid with
  | inl k => exists m, In m msgs /\ participant m = k /\ dict_get k pm = None
  | inr rows =>
      Forall2 (fun md r => dict_get (participant md) pm = Some (m_participant_id r) /\
                           m_chat_id r = cid /\ m_content r = content md /\
                           m_timestamp r = timestamp md) msgs rows
  end.
Proof.
  intros cid pm. induction msgs as [|md r IH]; intros nid; cbn [store_messages]; [constructor|].
  destruct (dict_get (participant md) pm) as [pid|] eqn:E.
  - specialize (IH (nid + 1)). destruct (store_messages cid pm r (nid + 1)) as [k|rows].
    + destruct IH as (m & Hm & Hk & Hg). exists m. split; [right; exact Hm | split; assumption].
    + constructor; [|exact IH]. cbn [m_participant_id m_chat_id m_content m_timestamp].
      split; [exact E|]. split; [reflexivity|]. split; reflexivity.
  - exists md. split; [left; reflexivity | split; [reflexivity | exact E]].
Qed.

Lemma store_chat_data_spec : forall chat_id chat_data next_id,
  match store_chat_data chat_id chat_data next_id with
  | inl k => ~ In k (participants chat_data) /\
             exists m, In m (messages chat_data) /\ participant m = k
  | inr (prows, mrows) =>
      map p_name prows = participants chat_data /\
      (forall p, In p prows -> p_chat_id p = chat_id /\
                 p_message_count p = message_count_of (messages chat_data) (p_name p)) /\
      Forall2 (fun md r => m_chat_id r = chat_id /\ m_content r = content md /\
                           m_timestamp r = timestamp md /\
                           exists p, In p prows /\ p_id p = m_participant_id r /\
                                     p_name p = participant md)
              (messages chat_data) mrows
  end.
Proof.
  intros cid cd nid. unfold store_chat_data, store_participants.
  pose proof (store_participants_fold cid (messages cd) (participants cd) [] [] nid) as F.
  destruct (fold_left _ (participants cd) ([], [], nid)) as [[prows pm] nid'].
  destruct F as (F1 & F2 & F3 & F4).
  - intros k v H. discriminate.
  - intros p [].
  - pose proof (store_messages_spec cid pm (messages cd) nid') as M.
    destruct (store_messages cid pm (messages cd) nid') as [k|mrows].
    + destruct M as (m & Hm & Hk & Hg). apply F3 in Hg as [_ Hg].
      split; [exact Hg | exists m; split; assumption].
    + split; [exact F1|]. split; [exact F2|].
      eapply Forall2_impl; [|exact M].
      intros md r (H1 & H2 & H3 & H4). split; [exact H2|]. split; [exact H3|]. split; [exact H4|].
      destruct (F4 _ _ H1) as (p & Hp & Hid & Hn). exists p. split; [exact Hp | split; assumption].
Qed.

(** X4: [store_chat_data] either raises the [KeyError] of a message participant missing from the participants, or adds one participant row per participant, in order, with the chat's key and its number of messages, and one message row per message, with the chat's key, its content, its timestamp and the key of its participant's row. *)
Theorem store_chat_data_outcome : forall chat_id chat_data next_id,
  match store_chat_data chat_id chat_data next_id with
  | inl k => ~ In k (participants chat_data) /\
             exists m, In m (messages chat_data) /\ participant m = k
  | inr (prows, mrows) =>
      map p_name prows = participants chat_data /\
      (forall p, In p prows -> p_chat_id p = chat_id /\
                 p_message_count p = message_count_of (messages chat_data) (p_name p)) /\
      Forall2 (fun md r => m_chat_id r = chat_id /\ m_content r = content md /\
                           m_timestamp r = timestamp md /\
                           exists p, In p prows /\ p_id p = m_participant_id r /\
                                     p_name p = participant md)
              (messages chat_data) mrows
  end.
Proof. exact store_chat_data_spec. Qed.

Lemma sum_indicator_notin : forall x names,
  ~ In x names -> sum_Z (map (fun n => if str_eqb x n then 1 else 0) names) = 0.
Proof.
  intros x. induction names as [|n ns IH]; intros H; [reflexivity|].
  unfold sum_Z in *. cbn [map fold_right].
  destruct (str_eqb x n) eqn:E.
  - apply InteractionProps.str_eqb_true in E. subst. exfalso. apply H. left. reflexivity.
  - rewrite IH by (intros Hin; apply H; right; exact Hin). reflexivity.
Qed.

Lemma sum_indicator : forall x names, NoDup names -> In x names ->
  sum_Z (map (fun n => if str_eqb x n then 1 else 0) names) = 1.
Proof.
  intros x. induction names as [|n ns IH]; intros Hnd Hin; [destruct Hin|].
  apply NoDup_cons_iff in Hnd as [Hn Hnd]. unfold sum_Z in *. cbn [map fold_right].
  destruct Hin as [Hx | Hin].
  - subst n. rewrite str_eqb_refl. pose proof (sum_indicator_notin x ns Hn) as H. unfold sum_Z in H.
    rewrite H. reflexivity.
  - destruct (str_eqb x n) eqn:E.
    + apply InteractionProps.str_eqb_true in E. subst. contradiction.
    + rewrite IH by assumption. reflexivity.
Qed.

Lemma sum_Z_map_add : forall {A} (f g : A -> Z) l,
  sum_Z (map (fun x => f x + g x) l) = sum_Z (map f l) + sum_Z (map g l).
Proof.
  intros A f g l. unfold sum_Z. induction l as [|x r IH]; cbn [map fold_right]; [reflexivity|].
  rewrite IH. lia.
Qed.

Lemma sum_message_counts : forall msgs names,
  NoDup names -> (forall m, In m msgs -> In (participant m) names) ->
  sum_Z (map (message_count_of msgs) names) = Z.of_nat (List.length msgs).
Proof.
  induction msgs as [|m ms IH]; intros names Hnd Hin.
  - unfold message_count_of. cbn. unfold sum_Z. clear.
    induction names as [|n ns IHn]; [reflexivity|]. cbn [map fold_right]. rewrite IHn. reflexivity.
  - assert (E : map (message_count_of (m :: ms)) names =
                map (fun n => (if str_eqb (participant m) n then 1 else 0) + message_count_of ms n) names).
    { apply map_ext. intros n. unfold message_count_of. cbn [filter].
      destruct (str_eqb (participant m) n); cbn [List.length]; lia. }
    rewrite E, sum_Z_map_add, (sum_indicator _ _ Hnd (Hin m (or_introl eq_refl))).
    rewrite IH by (auto; intros; apply Hin; right; assumption).
    cbn [List.length]. lia.
Qed.

Lemma sum_ge_length : forall l, (forall x, In x l -> 1 <= x) -> Z.of_nat (List.length l) <= sum_Z l.
Proof.
  induction l as [|x r IH]; intros H; [cbn; lia|].
  unfold sum_Z in *. cbn [List.length fold_right].
  specialize (IH (fun y Hy => H y (or_intror Hy))). specialize (H x (or_introl eq_refl)). lia.
Qed.

(** X5: [upload_chat_file] rejects a file name ending neither in [.txt] nor in [.zip] with the HTTP 400 error and otherwise never fails: the chat row counts the rows stored, there are no more participants than messages, the participants' message counts add up to the number of messages and are at least 1, the names are distinct, and every message row belongs to the chat and to the row of its participant. *)
Theorem upload_chat_file_outcome : forall filename file_content next_id,
  match upload_chat_file filename file_content next_id with
  | inl e => (endswith (str ".txt") filename || endswith (str ".zip") filename) = false /\
             e = HTTPException 400 (str "Only .txt and .zip files are supported")
  | inr (chat, prows, mrows) =>
      (endswith (str ".txt") filename || endswith (str ".zip") filename) = true /\
      c_message_count chat = Z.of_nat (List.length mrows) /\
      c_participant_count chat = Z.of_nat (List.length prows) /\
      c_participant_count chat <= c_message_count chat /\
      sum_Z (map p_message_count prows) = c_message_count chat /\
      (forall p, In p prows -> 1 <= p_message_count p) /\
      NoDup (map p_name prows) /\
      Forall2 (fun md r => m_chat_id r = c_id chat /\ m_content r = content md /\
                           exists p, In p prows /\ p_id p = m_participant_id r /\
                                     p_name p = participant md)
              (messages (parse_chat file_content filename)) mrows
  end.
Proof.
  intros f b nid. unfold upload_chat_file.
  destruct (endswith (str ".txt") f || endswith (str ".zip") f) eqn:Ef; cbn [negb];
    [|split; reflexivity].
  cbv zeta. cbn [c_id].
  set (cd := parse_chat b f).
  destruct (parse_chat_participants_spec b f) as [Hnd Hpart]. fold cd in Hnd, Hpart.
  pose proof (store_chat_data_spec nid cd (nid + 1)) as S.
  destruct (store_chat_data nid cd (nid + 1)) as [k|[prows mrows]].
  - exfalso. destruct S as [Hk (m & Hm & Hmk)]. apply Hk, Hpart. exists m. split; assumption.
  - destruct S as (S1 & S2 & S3). cbn [c_message_count c_participant_count c_id].
    assert (Hlen : List.length mrows = List.length (messages cd)) by
      (symmetry; exact (Forall2_length S3)).
    assert (Hplen : List.length prows = List.length (participants cd)) by
      (rewrite <- S1, length_map; reflexivity).
    assert (Hsum : sum_Z (map p_message_count prows) = Z.of_nat (List.length (messages cd))).
    { rewrite <- (sum_message_counts (messages cd) (participants cd) Hnd).
      - rewrite <- S1, map_map. f_equal. apply map_ext_in. intros p Hp. apply S2, Hp.
      - intros m Hm. apply Hpart. exists m. split; [exact Hm | reflexivity]. }
    assert (Hpos : forall p, In p prows -> 1 <= p_message_count p).
    { intros p Hp. destruct (S2 p Hp) as [_ ->].
      assert (Hn : In (p_name p) (participants cd)) by (rewrite <- S1; apply in_map, Hp).
      apply Hpart in Hn as (m & Hm & Hmn). unfold message_count_of.
      destruct (filter (fun msg => str_eqb (participant msg) (p_name p)) (messages cd)) eqn:Ef';
        [|cbn [List.length]; lia].
      assert (In m (filter (fun msg => str_eqb (participant msg) (p_name p)) (messages cd)))
        by (apply filter_In; split; [exact Hm | rewrite Hmn; apply str_eqb_refl]).
      rewrite Ef' in H. destruct H. }
    split; [reflexivity|]. split; [rewrite Hlen; reflexivity|]. split; [rewrite Hplen; reflexivity|].
    split.
    + pose proof (sum_ge_length (map p_message_count prows)) as G.
      rewrite length_map, Hsum, Hplen in G. apply G.
      intros x Hx. apply in_map_iff in Hx as (p & <- & Hp). apply Hpos, Hp.
    + split; [exact Hsum|]. split; [exact Hpos|]. split; [rewrite S1; exact Hnd|].
      eapply Forall2_impl; [|exact S3]. intros md r (H1 & H2 & _ & H4).
      split; [exact H1 | split; [exact H2 | exact H4]].
Qed.

End StoreProps.

Module EmojiLinkProps.
Import PyStr Re Parser Dict Emoji ExtraSpec.

Lemma rep_S : forall p mn n s,
  rep p mn (S n) s =
  match mn with O => cat p (rep p (pred mn) n) s ++ [([], s)] | S _ => cat p (rep p (pred mn) n) s end.
Proof. reflexivity. Qed.

Lemma cat_single : forall p q s t r,
  p s = [(t, r)] -> cat p q s = map (fun '(t', r') => (t ++ t', r')) (q r).
Proof. intros p q s t r H. unfold cat. rewrite H. cbn [flat_map]. apply app_nil_r. Qed.

Lemma cat_nil : forall p q s, p s = [] -> cat p q s = [].
Proof. intros p q s H. unfold cat. rewrite H. reflexivity. Qed.

Lemma rep0_nonempty : forall p n s, rep p 0 n s <> [].
Proof.
  intros p [|n] s; [discriminate|]. rewrite rep_S. intros H.
  apply app_eq_nil in H as [_ H]. discriminate.
Qed.

(** The greedy loop [p*] of a one-character class stops at the first
    character outside the class. *)
Lemma rep0_greedy : forall p n s, (List.length s <= n)%nat ->
  exists t r, hd_error (rep (chr_if p) 0 n s) = Some (t, r) /\ s = t ++ r /\
              forallb p t = true /\ match r with [] => True | c :: _ => p c = false end.
Proof.
  intros p. induction n as [|n IH]; intros s Hl.
  - destruct s; [|cbn in Hl; lia]. exists [], []. repeat split.
  - destruct s as [|c r].
    + exists [], []. repeat split.
    + rewrite rep_S. cbn [pred]. cbn [List.length] in Hl. destruct (p c) eqn:Ep.
      * destruct (IH r ltac:(lia)) as (t & r0 & Hh & Hs & Hf & Hr).
        rewrite (cat_single _ _ _ [c] r) by (cbn; rewrite Ep; reflexivity).
        destruct (rep (chr_if p) 0 n r) as [|[t' r'] xs]; [discriminate|].
        cbn in Hh. injection Hh as -> ->.
        exists (c :: t), r0. cbn [map app hd_error]. split; [reflexivity|].
        split; [rewrite Hs; reflexivity|]. split; [cbn; rewrite Ep, Hf; reflexivity | exact Hr].
      * rewrite cat_nil by (cbn; rewrite Ep; reflexivity).
        exists [], (c :: r). repeat split. exact Ep.
Qed.

Lemma plus_match_true : forall p c r, p c = true ->
  exists t r0, re_match (plus (chr_if p)) (c :: r) = Some (c :: t, r0) /\ r = t ++ r0 /\
               forallb p t = true /\ match r0 with [] => True | c' :: _ => p c' = false end.
Proof.
  intros p c r Ep. unfold re_match, plus. cbn [List.length]. rewrite rep_S. cbn [pred].
  rewrite (cat_single _ _ _ [c] r) by (cbn; rewrite Ep; reflexivity).
  destruct (rep0_greedy p (List.length r) r (le_n _)) as (t & r0 & Hh & Hs & Hf & Hr).
  destruct (rep (chr_if p) 0 (List.length r) r) as [|[t' r'] xs]; [discriminate|].
  cbn in Hh. injection Hh as -> ->. exists t, r0. split; [reflexivity|]. auto.
Qed.

Lemma plus_match_false : forall p c r, p c = false -> plus (chr_if p) (c :: r) = [].
Proof.
  intros p c r Ep. unfold plus. cbn [List.length]. rewrite rep_S. cbn [pred].
  apply cat_nil. cbn. rewrite Ep. reflexivity.
Qed.

Lemma emoji_runs_aux_run : forall t r cur, cur <> [] -> forallb emoji_class t = true ->
  match r with [] => True | c :: _ => emoji_class c = false end ->
  emoji_runs_aux cur (t ++ r) = (rev cur ++ t) :: emoji_runs_aux [] r.
Proof.
  induction t as [|x t IH]; intros r cur Hc Ht Hr.
  - cbn [app]. destruct cur as [|z cur]; [congruence|]. destruct r as [|c r'].
    + cbn [emoji_runs_aux]. rewrite app_nil_r. reflexivity.
    + cbn [emoji_runs_aux]. rewrite Hr, app_nil_r. reflexivity.
  - cbn [forallb] in Ht. apply andb_true_iff in Ht as [Hx Ht]. cbn [app emoji_runs_aux].
    rewrite Hx, IH by (congruence || assumption). cbn [rev]. rewrite <- app_assoc. reflexivity.
Qed.

Lemma findall_aux_runs : forall fuel s, (List.length s < fuel)%nat ->
  findall_aux fuel emoji_pattern s = emoji_runs s.
Proof.
  induction fuel as [|f IH]; intros s Hl; [lia|].
  destruct s as [|c r]; [reflexivity|]. cbn [findall_aux]. cbn [List.length] in Hl.
  unfold emoji_runs. cbn [emoji_runs_aux]. destruct (emoji_class c) eqn:Ec.
  - destruct (plus_match_true _ c r Ec) as (t & r0 & Hm & Hr & Ht & Hr0).
    unfold emoji_pattern. rewrite Hm.
    rewrite Hr, (emoji_runs_aux_run t r0 [c]) by (congruence || assumption).
    rewrite Hr, length_app in Hl. rewrite IH by lia. reflexivity.
  - unfold re_match, emoji_pattern. rewrite plus_match_false by exact Ec. cbn [hd_error].
    apply IH. lia.
Qed.

Lemma findall_emoji_runs : forall s, findall emoji_pattern s = emoji_runs s.
Proof. intros s. apply findall_aux_runs. lia. Qed.

Lemma has_emoji_existsb : forall text, has_emoji text = existsb emoji_class text.
Proof.
  unfold has_emoji, re_search_bool. induction text as [|c r IH]; [reflexivity|].
  cbn [suffixes existsb]. rewrite IH. f_equal.
  destruct (emoji_class c) eqn:Ec.
  - destruct (plus_match_true _ c r Ec) as (t & r0 & Hm & _). unfold re_match in Hm.
    destruct (plus (chr_if emoji_class) (c :: r)); [discriminate | reflexivity].
  - rewrite plus_match_false by exact Ec. reflexivity.
Qed.

(** X6: [_has_emoji] holds exactly when the text contains a code point of one of the emoji ranges. *)
Theorem has_emoji_spec : forall text,
  has_emoji text = true <-> exists c, In c text /\ emoji_class c = true.
Proof. intros text. rewrite has_emoji_existsb. apply existsb_exists. Qed.

Lemma set_update_spec : forall xs types, NoDup types ->
  NoDup (set_update types xs) /\
  forall y, In y (set_update types xs) <-> In y types \/ In y xs.
Proof.
  unfold set_update. induction xs as [|x xs IH]; intros types Hnd; cbn [fold_left].
  - split; [exact Hnd|]. intros y. split; [auto | intros [H | []]; exact H].
  - destruct (StoreProps.set_add_spec x types Hnd) as [H1 H2].
    destruct (IH _ H1) as [H3 H4]. split; [exact H3|]. intros y. rewrite H4, H2. cbn [In].
    split; [intros [[H | H] | H]; auto | intros [H | [H | H]]; auto].
Qed.

Lemma count_emojis_fold : forall msgs n0 types0, NoDup types0 ->
  let '(n, types) :=
    fold_left (fun st msg_content =>
                 let '(n, types) := st in
                 match msg_content with
                 | [] => st
                 | _ => let emojis := findall emoji_pattern msg_content in
                        (n + Z.of_nat (List.length emojis), set_update types emojis)
                 end) msgs (n0, types0) in
  n = n0 + Z.of_nat (List.length (flat_map emoji_runs msgs)) /\ NoDup types /\
  forall y, In y types <-> In y types0 \/ In y (flat_map emoji_runs msgs).
Proof.
  induction msgs as [|s ms IH]; intros n0 types0 Hnd; cbn [fold_left flat_map].
  - split; [cbn; lia|]. split; [exact Hnd|]. intros y. split; [auto | intros [H | []]; exact H].
  - destruct s as [|c r].
    + apply (IH n0 types0 Hnd).
    + rewrite findall_emoji_runs.
      destruct (set_update_spec (emoji_runs (c :: r)) types0 Hnd) as [H1 H2].
      specialize (IH (n0 + Z.of_nat (List.length (emoji_runs (c :: r))))
                     (set_update types0 (emoji_runs (c :: r))) H1).
      destruct (fold_left _ ms _) as [n types].
      destruct IH as (I1 & I2 & I3). split; [rewrite I1, length_app; lia|]. split; [exact I2|].
      intros y. rewrite I3, H2, in_app_iff. tauto.
Qed.

Lemma emoji_usage_lookup : forall rows names d0 k,
  dict_get k (fold_left (fun emoji_usage user_name =>
                dict_set user_name
                  (count_emojis (map snd (filter (fun r => str_eqb (fst r) user_name) rows)))
                  emoji_usage) names d0) =
  if existsb (str_eqb k) names
  then Some (count_emojis (map snd (filter (fun r => str_eqb (fst r) k) rows)))
  else dict_get k d0.
Proof.
  intros rows. induction names as [|n ns IH]; intros d0 k; [reflexivity|].
  cbn [fold_left existsb]. rewrite IH, StoreProps.dict_get_set.
  destruct (existsb (str_eqb k) ns); [rewrite orb_true_r; reflexivity|].
  rewrite orb_false_r, InteractionProps.str_eqb_sym.
  destruct (str_eqb k n) eqn:E; [|reflexivity].
  apply InteractionProps.str_eqb_true in E. subst n. reflexivity.
Qed.

(** X7: for every listed user, [_get_emoji_usage_per_user] reports as [emoji_count] the number of maximal runs of emoji code points in the user's messages and as [unique_emojis] the number of distinct runs, which is never larger. *)
Theorem emoji_usage_counts : forall rows user_names u,
  In u user_names ->
  exists us, dict_get u (get_emoji_usage_per_user rows user_names) = Some us /\
    let runs := flat_map emoji_runs (map snd (filter (fun r => str_eqb (fst r) u) rows)) in
    emoji_count us = Z.of_nat (List.length runs) /\
    (exists types, NoDup types /\ (forall x, In x types <-> In x runs) /\
                   unique_emojis us = Z.of_nat (List.length types)) /\
    unique_emojis us <= emoji_count us.
Proof.
  intros rows names u Hu. unfold get_emoji_usage_per_user. rewrite emoji_usage_lookup.
  replace (existsb (str_eqb u) names) with true
    by (symmetry; apply existsb_exists; exists u; split; [exact Hu | apply StoreProps.str_eqb_refl]).
  eexists. split; [reflexivity|]. cbv zeta. unfold count_emojis.
  pose proof (count_emojis_fold (map snd (filter (fun r => str_eqb (fst r) u) rows)) 0 []
                (NoDup_nil _)) as F.
  destruct (fold_left _ _ (0, [])) as [n types]. destruct F as (F1 & F2 & F3).
  cbn [emoji_count unique_emojis]. split; [exact F1|].
  split; [exists types; split; [exact F2|]; split; [|reflexivity]|].
  - intros x. rewrite F3. split; [intros [[] | H]; exact H | intros H; right; exact H].
  - rewrite F1. apply Nat2Z.inj_le. apply NoDup_incl_length; [exact F2|].
    intros x Hx. apply F3 in Hx as [[] | Hx]. exact Hx.
Qed.

Lemma emoji_usage_counts_witness :
  In (str "Alice") [str "Alice"; str "Bob"] /\
  exists us, dict_get (str "Alice")
    (get_emoji_usage_per_user [(str "Alice", [128512; 128512; 32; 128512]); (str "Bob", [128512])]
                              [str "Alice"; str "Bob"]) = Some us /\
    let runs := flat_map emoji_runs (map snd (filter (fun r => str_eqb (fst r) (str "Alice"))
                  [(str "Alice", [128512; 128512; 32; 128512]); (str "Bob", [128512])])) in
    emoji_count us = Z.of_nat (List.length runs) /\
    (exists types, NoDup types /\ (forall x, In x types <-> In x runs) /\
                   unique_emojis us = Z.of_nat (List.length types)) /\
    unique_emojis us <= emoji_count us.
Proof.
  assert (H : In (str "Alice") [str "Alice"; str "Bob"]) by (left; reflexivity).
  split; [exact H | exact (emoji_usage_counts _ _ _ H)].
Defined.

End EmojiLinkProps.

Module LinkProps.
Import PyStr Re Parser ExtraSpec EmojiLinkProps.

Lemma app_nil_iff : forall {A} (l m : list A), l ++ m = [] <-> l = [] /\ m = [].
Proof. intros A l m. split; [apply app_eq_nil | intros [-> ->]; reflexivity]. Qed.

Lemma chr_if_cons_nil : forall p c r, chr_if p (c :: r) = [] <-> p c = false.
Proof. intros p c r. cbn. destruct (p c); split; congruence. Qed.

Lemma cat_nil_iff : forall p q s, cat p q s = [] <-> forall t r, In (t, r) (p s) -> q r = [].
Proof.
  intros p q s. unfold cat. induction (p s) as [|[t0 r0] l IH]; cbn [flat_map].
  - split; [intros _ t r [] | reflexivity].
  - rewrite app_nil_iff, IH. split.
    + intros [H1 H2] t r [E | Hin].
      * injection E as <- <-. apply map_eq_nil in H1. exact H1.
      * exact (H2 t r Hin).
    + intros H. split.
      * rewrite (H t0 r0 (or_introl eq_refl)). reflexivity.
      * intros t r Hin. exact (H t r (or_intror Hin)).
Qed.

Lemma In_cat : forall p q s t r, In (t, r) (cat p q s) ->
  exists t1 r1 t2, In (t1, r1) (p s) /\ In (t2, r) (q r1) /\ t = t1 ++ t2.
Proof.
  intros p q s t r H. unfold cat in H. apply in_flat_map in H as ([t1 r1] & H1 & H2).
  apply in_map_iff in H2 as ([t2 r2] & E & H2). injection E as <- <-.
  exists t1, r1, t2. auto.
Qed.

Lemma word_spec : forall w s,
  word w s = if prefixb w s then [(w, skipn (List.length w) s)] else [].
Proof.
  induction w as [|c w IH]; intros s; [reflexivity|].
  unfold word. cbn [fold_right]. fold (word w).
  destruct s as [|x r]; [reflexivity|]. cbn [prefixb].
  destruct (c =? x) eqn:E.
  - apply Z.eqb_eq in E. subst x.
    rewrite (cat_single _ _ _ [c] r) by (cbn; rewrite Z.eqb_refl; reflexivity).
    rewrite IH. cbn [andb]. destruct (prefixb w r); reflexivity.
  - rewrite cat_nil by (cbn; rewrite E; reflexivity). reflexivity.
Qed.

Lemma In_word : forall w s t r,
  In (t, r) (word w s) <-> prefixb w s = true /\ t = w /\ r = skipn (List.length w) s.
Proof.
  intros w s t r. rewrite word_spec. destruct (prefixb w s).
  - cbn. split; [intros [E | []]; injection E as <- <-; auto | intros (_ & -> & ->); left; reflexivity].
  - cbn. split; [intros [] | intros [H _]; discriminate].
Qed.

Lemma In_opt_lit : forall c r t r',
  In (t, r') (opt (lit c) r) <-> (t = [c] /\ r = c :: r') \/ (t = [] /\ r' = r).
Proof.
  intros c r t r'. unfold opt. rewrite rep_S. cbn [pred]. rewrite in_app_iff.
  destruct r as [|x r0].
  - rewrite cat_nil by reflexivity. cbn.
    split; [intros [[] | [E | []]]; injection E as <- <-; auto
           | intros [[_ H] | [-> ->]]; [discriminate | right; left; reflexivity]].
  - destruct (c =? x) eqn:E.
    + apply Z.eqb_eq in E. subst x.
      rewrite (cat_single _ _ _ [c] r0) by (cbn; rewrite Z.eqb_refl; reflexivity). cbn.
      split.
      * intros [[E | []] | [E | []]]; injection E as <- <-; auto.
      * intros [[-> H] | [-> ->]]; [injection H as ->; left; left; reflexivity | right; left; reflexivity].
    + rewrite cat_nil by (cbn; rewrite E; reflexivity). cbn.
      split.
      * intros [[] | [E' | []]]. injection E' as <- <-. auto.
      * intros [[-> H] | [-> ->]]; [injection H as -> _; rewrite Z.eqb_refl in E; discriminate
                                    | right; left; reflexivity].
Qed.

Lemma link_atom_nil : forall c r, link_atom (c :: r) = [] <-> link_char c = false.
Proof.
  intros c r. unfold link_atom, alt, crange, lit.
  rewrite !app_nil_iff, !chr_if_cons_nil, cat_nil_iff.
  assert (Hch : forall t r', In (t, r') (chr_if (Z.eqb (Strptime.ch "%")) (c :: r)) ->
                             (37 =? c) = true).
  { intros t r' Hin. cbn [chr_if] in Hin. change (Strptime.ch "%") with 37 in Hin.
    destruct (37 =? c); [reflexivity | destruct Hin]. }
  unfold link_char, Strptime.ch. cbn [Ascii.nat_of_ascii Z.of_nat].
  split.
  - intros [[H1 H2] [H3 [H4 [H5 _]]]]. simpl in H1, H2, H3, H4, H5. lia.
  - intros H. simpl. split; [split; lia|]. split; [lia|]. split; [lia|]. split; [lia|].
    intros t r' Hin. apply Hch in Hin. lia.
Qed.

Lemma plus_link_nil : forall u,
  plus link_atom u = [] <-> forall c v, u = c :: v -> link_char c = false.
Proof.
  intros [|c v].
  - split; [intros _ c v H; discriminate | reflexivity].
  - unfold plus. cbn [List.length]. rewrite rep_S. cbn [pred]. rewrite cat_nil_iff.
    split.
    + intros H c' v' E. injection E as E1 E2. subst c' v'. apply (proj1 (link_atom_nil c v)).
      destruct (link_atom (c :: v)) as [|[t r] l] eqn:E; [reflexivity|].
      exfalso. apply (rep0_nonempty link_atom (List.length v) r). apply (H t r).
      left. reflexivity.
    + intros H t r Hin. exfalso.
      assert (Hn : link_atom (c :: v) = []) by (apply (proj2 (link_atom_nil c v)), (H c v eq_refl)).
      rewrite Hn in Hin. destruct Hin.
Qed.

Lemma prefixb_app : forall a b s,
  prefixb (a ++ b) s = prefixb a s && prefixb b (skipn (List.length a) s).
Proof.
  induction a as [|x a IH]; intros b s; [reflexivity|].
  destruct s as [|y s]; [reflexivity|]. cbn [app prefixb List.length skipn].
  rewrite IH, andb_assoc. reflexivity.
Qed.

Lemma prefixb_single : forall c v, prefixb [c] v = true <-> exists r, v = c :: r.
Proof.
  intros c [|x r]; cbn.
  - split; [discriminate | intros [r H]; discriminate].
  - rewrite andb_true_r. split.
    + intros H. apply Z.eqb_eq in H. subst. exists r. reflexivity.
    + intros [r' H]. injection H as -> _. apply Z.eqb_refl.
Qed.

Lemma link_pattern_nonempty : forall s,
  link_pattern s <> [] <->
  exists c, link_char c = true /\
            (prefixb (str "http://" ++ [c]) s = true \/ prefixb (str "https://" ++ [c]) s = true).
Proof.
  intros s. split.
  - intros H. destruct (link_pattern s) as [|[t r] l] eqn:E; [congruence|].
    assert (Hin : In (t, r) (link_pattern s)) by (rewrite E; left; reflexivity).
    unfold link_pattern in Hin.
    apply In_cat in Hin as (t1 & r1 & t2 & H1 & H2 & _).
    apply In_word in H1 as (Hp1 & _ & ->).
    apply In_cat in H2 as (t3 & r3 & t4 & H3 & H4 & _).
    apply In_cat in H4 as (t5 & r5 & t6 & H5 & H6 & _).
    apply In_word in H5 as (Hp2 & _ & ->).
    destruct (skipn (List.length (str "://")) r3) as [|c v] eqn:Ev; [destruct H6|].
    destruct (link_char c) eqn:Ec.
    2:{ exfalso. assert (Hn : plus link_atom (c :: v) = [])
          by (apply plus_link_nil; intros c' v' Hv; injection Hv as <- <-; exact Ec).
        rewrite Hn in H6. destruct H6. }
    exists c. split; [exact Ec|].
    apply In_opt_lit in H3 as [[-> Hr] | [-> ->]].
    + right. change (str "https://" ++ [c]) with (str "http" ++ ([115] ++ (str "://" ++ [c]))).
      rewrite !prefixb_app, Hp1. cbn [andb]. rewrite Hr. cbn [List.length skipn prefixb].
      rewrite Z.eqb_refl, Hp2, Ev. cbn. rewrite Z.eqb_refl. reflexivity.
    + left. change (str "http://" ++ [c]) with (str "http" ++ (str "://" ++ [c])).
      rewrite !prefixb_app, Hp1, Hp2, Ev. cbn. rewrite Z.eqb_refl. reflexivity.
  - intros (c & Hc & Hp) Hnil. unfold link_pattern in Hnil.
    rewrite cat_nil_iff in Hnil.
    assert (Key : forall r, prefixb (str "://" ++ [c]) r = true ->
                  cat (word (str "://")) (plus link_atom) r = [] -> False).
    { intros r Hr Hw. rewrite prefixb_app in Hr. apply andb_true_iff in Hr as [Hr1 Hr2].
      apply prefixb_single in Hr2 as [v Hv].
      rewrite cat_nil_iff in Hw.
      assert (Hn := Hw _ _ (proj2 (In_word _ _ _ _) (conj Hr1 (conj eq_refl eq_refl)))).
      rewrite Hv in Hn. apply plus_link_nil with (c := c) (v := v) in Hn; [|reflexivity].
      congruence. }
    destruct Hp as [Hp | Hp].
    + change (str "http://" ++ [c]) with (str "http" ++ (str "://" ++ [c])) in Hp.
      rewrite prefixb_app in Hp. apply andb_true_iff in Hp as [Hp1 Hp2].
      specialize (Hnil _ _ (proj2 (In_word _ _ _ _) (conj Hp1 (conj eq_refl eq_refl)))).
      rewrite cat_nil_iff in Hnil.
      apply (Key _ Hp2). apply (Hnil []). apply In_opt_lit. right. split; reflexivity.
    + change (str "https://" ++ [c]) with (str "http" ++ ([115] ++ (str "://" ++ [c]))) in Hp.
      rewrite prefixb_app in Hp. apply andb_true_iff in Hp as [Hp1 Hp2].
      specialize (Hnil _ _ (proj2 (In_word _ _ _ _) (conj Hp1 (conj eq_refl eq_refl)))).
      rewrite cat_nil_iff in Hnil.
      destruct (skipn (List.length (str "http")) s) as [|x r] eqn:Es; [discriminate|].
      cbn [prefixb app] in Hp2. apply andb_true_iff in Hp2 as [Hx Hp2]. apply Z.eqb_eq in Hx.
      subst x. apply (Key _ Hp2). apply (Hnil [115]). apply In_opt_lit. left. split; reflexivity.
Qed.

Lemma is_substring_suffixes : forall p s, is_substring p s = existsb (prefixb p) (suffixes s).
Proof.
  intros p. induction s as [|x r IH]; cbn [is_substring suffixes existsb].
  - rewrite orb_false_r. reflexivity.
  - rewrite IH. reflexivity.
Qed.

(** X8: [_has_link] holds exactly when the text contains [http://] or [https://] followed by a character of [link_char]. *)
Theorem has_link_spec : forall text,
  has_link text = true <->
  exists c, link_char c = true /\
            (is_substring (str "http://" ++ [c]) text = true \/
             is_substring (str "https://" ++ [c]) text = true).
Proof.
  intros text. unfold has_link, re_search_bool. rewrite existsb_exists.
  setoid_rewrite is_substring_suffixes. setoid_rewrite existsb_exists.
  split.
  - intros (suf & Hsuf & Hne).
    assert (H : link_pattern suf <> []) by (intros E; rewrite E in Hne; discriminate).
    apply link_pattern_nonempty in H as (c & Hc & [Hp | Hp]); exists c; split; auto.
    + left. exists suf. auto.
    + right. exists suf. auto.
  - intros (c & Hc & [(suf & Hsuf & Hp) | (suf & Hsuf & Hp)]); exists suf; split; auto;
      (destruct (link_pattern suf) eqn:E; [|reflexivity]);
      exfalso; apply (proj2 (link_pattern_nonempty suf)); auto; exists c; auto.
Qed.

End LinkProps.

Module GroupProps.
Import Py Sql.

Section GroupCount.
Context {K : Type} (eqb : K -> K -> bool).
Hypothesis eqb_spec : forall a b, eqb a b = true <-> a = b.

Lemma eqb_refl' : forall a, eqb a a = true.
Proof. intros a. apply eqb_spec. reflexivity. Qed.

Lemma gi_keys : forall k g,
  map fst (group_incr eqb k g) =
  if existsb (fun k' => eqb k' k) (map fst g) then map fst g else map fst g ++ [k].
Proof.
  intros k g. induction g as [|[k' c] r IH]; [reflexivity|].
  cbn [group_incr map existsb fst]. destruct (eqb k' k); [reflexivity|].
  cbn [orb map fst]. rewrite IH. destruct (existsb _ _); reflexivity.
Qed.

Lemma gi_nodup : forall k g, NoDup (map fst g) -> NoDup (map fst (group_incr eqb k g)).
Proof.
  intros k g H. rewrite gi_keys.
  destruct (existsb (fun k' => eqb k' k) (map fst g)) eqn:E; [exact H|].
  apply Permutation_NoDup with (k :: map fst g); [apply Permutation_cons_append|].
  constructor; [|exact H]. intros Hin.
  assert (existsb (fun k' => eqb k' k) (map fst g) = true)
    by (apply existsb_exists; exists k; split; [exact Hin | apply eqb_refl']).
  congruence.
Qed.

Lemma gi_sum : forall k g, sum_Z (map snd (group_incr eqb k g)) = 1 + sum_Z (map snd g).
Proof.
  intros k g. unfold sum_Z. induction g as [|[k' c] r IH]; [reflexivity|].
  cbn [group_incr]. destruct (eqb k' k); cbn [map fold_right snd]; [lia|]. rewrite IH. lia.
Qed.

Lemma gi_pos : forall k g, (forall kc, In kc g -> 1 <= snd kc) ->
  forall kc, In kc (group_incr eqb k g) -> 1 <= snd kc.
Proof.
  intros k g. induction g as [|[k' c] r IH]; intros Hpos kc Hin; cbn [group_incr] in Hin.
  - destruct Hin as [<- | []]. cbn. lia.
  - specialize (Hpos (k', c) (or_introl eq_refl)) as Hc. cbn [snd] in Hc.
    destruct (eqb k' k); destruct Hin as [<- | Hin]; cbn [snd]; try lia.
    + apply Hpos. right. exact Hin.
    + apply (IH (fun kc H => Hpos kc (or_intror H))). exact Hin.
Qed.

Lemma gi_at : forall k q g,
  sum_Z (map snd (filter (fun kc => eqb (fst kc) q) (group_incr eqb k g))) =
  (if eqb k q then 1 else 0) + sum_Z (map snd (filter (fun kc => eqb (fst kc) q) g)).
Proof.
  intros k q g. unfold sum_Z. induction g as [|[k' c] r IH].
  - cbn. destruct (eqb k q); reflexivity.
  - cbn [group_incr]. destruct (eqb k' k) eqn:E.
    + apply eqb_spec in E. subst k'. cbn [filter fst].
      destruct (eqb k q); cbn [map fold_right snd]; lia.
    + cbn [filter fst].
      destruct (eqb k' q); cbn [map fold_right snd]; rewrite IH; lia.
Qed.

Lemma gf_nodup : forall keys g, NoDup (map fst g) ->
  NoDup (map fst (fold_left (fun g k => group_incr eqb k g) keys g)).
Proof.
  induction keys as [|k keys IH]; intros g H; [exact H|]. apply IH, gi_nodup, H.
Qed.

Lemma gf_sum : forall keys g,
  sum_Z (map snd (fold_left (fun g k => group_incr eqb k g) keys g)) =
  sum_Z (map snd g) + Z.of_nat (List.length keys).
Proof.
  induction keys as [|k keys IH]; intros g; cbn [fold_left List.length]; [lia|].
  rewrite IH, gi_sum. lia.
Qed.

Lemma gf_pos : forall keys g, (forall kc, In kc g -> 1 <= snd kc) ->
  forall kc, In kc (fold_left (fun g k => group_incr eqb k g) keys g) -> 1 <= snd kc.
Proof.
  induction keys as [|k keys IH]; intros g H; [exact H|]. apply IH, gi_pos, H.
Qed.

Lemma gf_keys : forall keys g q,
  In q (map fst (fold_left (fun g k => group_incr eqb k g) keys g)) <->
  In q (map fst g) \/ In q keys.
Proof.
  induction keys as [|k keys IH]; intros g q; cbn [fold_left].
  - split; [auto | intros [H | []]; exact H].
  - rewrite IH, gi_keys. destruct (existsb (fun k' => eqb k' k) (map fst g)) eqn:E.
    + apply existsb_exists in E as (k' & Hk' & Ek). apply eqb_spec in Ek. subst k'.
      cbn [In]. split; [tauto|]. intros [H | [<- | H]]; auto.
    + rewrite in_app_iff. cbn [In]. split; [intros [[H | [H | []]] | H]; auto | intros [H | [H | H]]; auto].
Qed.

Lemma gf_at : forall keys g q,
  sum_Z (map snd (filter (fun kc => eqb (fst kc) q) (fold_left (fun g k => group_incr eqb k g) keys g))) =
  sum_Z (map snd (filter (fun kc => eqb (fst kc) q) g)) +
  Z.of_nat (List.length (filter (fun k => eqb k q) keys)).
Proof.
  induction keys as [|k keys IH]; intros g q; cbn [fold_left filter]; [cbn; lia|].
  rewrite IH, gi_at. destruct (eqb k q); cbn [List.length]; lia.
Qed.

Lemma filter_key_absent : forall (g : list (K * Z)) q, ~ In q (map fst g) ->
  filter (fun kc => eqb (fst kc) q) g = [].
Proof.
  induction g as [|[k c] r IH]; intros q H; [reflexivity|]. cbn [filter fst].
  destruct (eqb k q) eqn:E.
  - apply eqb_spec in E. subst k. exfalso. apply H. left. reflexivity.
  - apply IH. intros Hin. apply H. right. exact Hin.
Qed.

Lemma at_unique : forall g q c, NoDup (map fst g) -> In (q, c) g ->
  sum_Z (map snd (filter (fun kc => eqb (fst kc) q) g)) = c.
Proof.
  induction g as [|[k c'] r IH]; intros q c Hnd Hin; [destruct Hin|].
  cbn [map] in Hnd. apply NoDup_cons_iff in Hnd as [Hk Hnd]. cbn [filter fst] in *.
  destruct Hin as [E | Hin].
  - injection E as -> ->. rewrite eqb_refl', filter_key_absent by exact Hk.
    unfold sum_Z. cbn. lia.
  - destruct (eqb k q) eqn:E.
    + apply eqb_spec in E. subst k. exfalso. apply Hk. apply in_map_iff. exists (q, c). auto.
    + apply IH; assumption.
Qed.

(** [GROUP BY] with [count()]: one row per distinct key, holding the number
    of its occurrences. *)
Lemma group_count_spec : forall keys q c,
  In (q, c) (group_count eqb keys) <->
  In q keys /\ c = Z.of_nat (List.length (filter (fun k => eqb k q) keys)).
Proof.
  intros keys q c. unfold group_count.
  assert (Hnd := gf_nodup keys [] (NoDup_nil _)).
  assert (Hat := gf_at keys [] q). cbn [filter map] in Hat. unfold sum_Z in Hat at 2.
  cbn [fold_right] in Hat.
  split.
  - intros Hin. split.
    + assert (H : In q (map fst (fold_left (fun g k => group_incr eqb k g) keys [])))
        by (apply in_map_iff; exists (q, c); auto).
      apply gf_keys in H as [[] | H]. exact H.
    + rewrite <- (at_unique _ q c Hnd Hin), Hat. lia.
  - intros [Hq ->].
    assert (H : In q (map fst (fold_left (fun g k => group_incr eqb k g) keys [])))
      by (apply gf_keys; right; exact Hq).
    apply in_map_iff in H as ([q' c'] & E & Hin). cbn [fst] in E. subst q'.
    rewrite <- (at_unique _ q c' Hnd Hin), Hat in Hin. replace (0 + _) with
      (Z.of_nat (List.length (filter (fun k => eqb k q) keys))) in Hin by lia. exact Hin.
Qed.

Lemma group_count_nodup : forall keys, NoDup (map fst (group_count eqb keys)).
Proof. intros keys. apply gf_nodup, NoDup_nil. Qed.

Lemma group_count_sum : forall keys,
  sum_Z (map snd (group_count eqb keys)) = Z.of_nat (List.length keys).
Proof. intros keys. unfold group_count. rewrite gf_sum. reflexivity. Qed.

End GroupCount.
End GroupProps.

Module TimelineProps.
Import PyStr DateTime Py Sql Timeline GroupProps ExtraSpec.

Lemma str_ltb_irrefl : forall a, str_ltb a a = false.
Proof.
  induction a as [|x a IH]; [reflexivity|]. cbn [str_ltb]. rewrite IH, Z.ltb_irrefl, Z.eqb_refl.
  reflexivity.
Qed.

Lemma str_ltb_trans : forall a b c, str_ltb a b = true -> str_ltb b c = true -> str_ltb a c = true.
Proof.
  induction a as [|x a IH]; intros [|y b] [|z c] H1 H2; cbn [str_ltb] in *; try discriminate;
    try reflexivity.
  apply orb_true_iff in H1, H2. apply orb_true_iff.
  destruct H1 as [H1 | H1], H2 as [H2 | H2].
  - left. lia.
  - apply andb_true_iff in H2 as [H2 _]. left. lia.
  - apply andb_true_iff in H1 as [H1 _]. left. lia.
  - apply andb_true_iff in H1 as [H1 H1'], H2 as [H2 H2']. right. apply andb_true_iff.
    split; [lia | exact (IH _ _ H1' H2')].
Qed.

Lemma str_ltb_total : forall a b, a <> b -> str_ltb a b = false -> str_ltb b a = true.
Proof.
  induction a as [|x a IH]; intros [|y b] Hne H; cbn [str_ltb] in *; try reflexivity;
    try congruence.
  apply orb_false_iff in H as [H1 H2]. apply orb_true_iff.
  destruct (Z.eq_dec x y) as [-> | Hxy].
  - right. rewrite Z.eqb_refl in *. cbn [andb] in *. apply IH; [congruence | exact H2].
  - left. lia.
Qed.

Lemma insert_hd : forall x y l, key_lt y x -> HdRel key_lt y l -> HdRel key_lt y (insert_by_key x l).
Proof.
  intros x y [|z r] H1 H2; cbn [insert_by_key]; [constructor; exact H1|].
  destruct (str_ltb (fst x) (fst z)); constructor; [exact H1|]. inversion H2; assumption.
Qed.

Lemma insert_sorted : forall x l, Sorted key_lt l -> ~ In (fst x) (map fst l) ->
  Sorted key_lt (insert_by_key x l).
Proof.
  intros x. induction l as [|y r IH]; intros Hs Hn; cbn [insert_by_key]; [repeat constructor|].
  destruct (str_ltb (fst x) (fst y)) eqn:E.
  - constructor; [exact Hs | constructor; exact E].
  - inversion Hs as [|? ? Hr Hh]; subst. constructor.
    + apply IH; [exact Hr | intros H; apply Hn; right; exact H].
    + apply insert_hd; [|exact Hh]. unfold key_lt. apply str_ltb_total; [|exact E].
      intros H. apply Hn. left. symmetry. exact H.
Qed.

Lemma insert_perm : forall x l, Permutation (insert_by_key x l) (x :: l).
Proof.
  intros x. induction l as [|y r IH]; cbn [insert_by_key]; [reflexivity|].
  destruct (str_ltb (fst x) (fst y)); [reflexivity|].
  rewrite IH. apply perm_swap.
Qed.

Lemma insertion_fold : forall l acc,
  NoDup (map fst (l ++ acc)) -> Sorted key_lt acc ->
  Sorted key_lt (fold_left (fun acc g => insert_by_key g acc) l acc) /\
  Permutation (fold_left (fun acc g => insert_by_key g acc) l acc) (l ++ acc).
Proof.
  induction l as [|x l IH]; intros acc Hnd Hs; cbn [fold_left]; [split; [exact Hs | reflexivity]|].
  change (map fst ((x :: l) ++ acc)) with (fst x :: map fst (l ++ acc)) in Hnd.
  apply NoDup_cons_iff in Hnd as [Hx Hnd].
  destruct (IH (insert_by_key x acc)) as [H1 H2].
  - apply Permutation_NoDup with (map fst (x :: l ++ acc)); [|cbn [map]; constructor; assumption].
    apply Permutation_map. rewrite insert_perm. apply Permutation_middle.
  - apply insert_sorted; [exact Hs|]. intros H. apply Hx. rewrite map_app. apply in_or_app. right. exact H.
  - split; [exact H1|]. rewrite H2, insert_perm. symmetry. apply Permutation_middle.
Qed.

Lemma filter_map_len : forall {A B} (f : A -> B) (p : B -> bool) l,
  List.length (filter p (map f l)) = List.length (filter (fun x => p (f x)) l).
Proof.
  intros A B f p. induction l as [|x r IH]; [reflexivity|]. cbn [map filter].
  destruct (p (f x)); cbn [List.length]; rewrite IH; reflexivity.
Qed.

(** The rows of a [GROUP BY key ORDER BY key] query with [count()]. *)
Lemma execute_spec : forall fmt ts,
  let rows := execute (mkstmt fmt) ts in
  StronglySorted key_lt rows /\
  (forall k c, In (k, c) rows <->
     (exists t, In t ts /\ sqlite_strftime fmt t = k) /\
     c = Z.of_nat (List.length (filter (fun t => str_eqb (sqlite_strftime fmt t) k) ts))) /\
  sum_Z (map snd rows) = Z.of_nat (List.length ts).
Proof.
  intros fmt ts rows.
  set (g := group_count str_eqb (map (sqlite_strftime fmt) ts)).
  assert (Hnd : NoDup (map fst g))
    by exact (group_count_nodup str_eqb InteractionProps.str_eqb_true _).
  destruct (insertion_fold g [] ltac:(rewrite app_nil_r; exact Hnd) (Sorted_nil _)) as [Hs Hp].
  rewrite app_nil_r in Hp. fold rows in Hs, Hp.
  split; [|split].
  - apply Sorted_StronglySorted; [|exact Hs].
    intros a b c H1 H2. exact (str_ltb_trans _ _ _ H1 H2).
  - intros k c. split.
    + intros H. apply (Permutation_in _ Hp) in H.
      apply (group_count_spec str_eqb InteractionProps.str_eqb_true) in H as [H1 H2].
      apply in_map_iff in H1 as (t & Ht & Hin). split; [exists t; split; assumption|].
      rewrite H2, filter_map_len. reflexivity.
    + intros [(t & Hin & Ht) Hc]. apply (Permutation_in _ (Permutation_sym Hp)).
      apply (group_count_spec str_eqb InteractionProps.str_eqb_true). split.
      * apply in_map_iff. exists t. split; assumption.
      * rewrite Hc, filter_map_len. reflexivity.
  - transitivity (sum_Z (map snd g)); [exact (InteractionProps.sum_Z_perm _ _ (Permutation_map snd Hp))|].
    unfold g. rewrite group_count_sum, length_map. reflexivity.
Qed.

Lemma first_last_spec : forall ts,
  (fst (first_last ts) = None <-> ts = []) /\
  (snd (first_last ts) = None <-> ts = []) /\
  (forall f, fst (first_last ts) = Some f -> In f ts /\ forall t, In t ts -> DateTime.ltb t f = false) /\
  (forall l, snd (first_last ts) = Some l -> In l ts /\ forall t, In t ts -> DateTime.ltb l t = false).
Proof.
  intros [|d ds]; cbn [first_last fst snd].
  - repeat split; intros; discriminate.
  - split; [split; discriminate|]. split; [split; discriminate|]. split.
    + intros f Hf. injection Hf as <-. apply ParserProps.py_min_spec.
    + intros l Hl. injection Hl as <-. apply ParserProps.py_max_spec.
Qed.

(** X9: when [get_timeline_data] returns, the granularity was daily, weekly or monthly; its rows are in strictly increasing order of their period key, one per period holding the number of messages in it, and the counts add up to the number of messages. *)
Theorem timeline_rows : forall ts granularity rows,
  get_timeline_data ts granularity = Ok rows ->
  exists fmt,
    ((granularity = str "daily" /\ fmt = str "%Y-%m-%d") \/
     (granularity = str "weekly" /\ fmt = str "%Y-W%U") \/
     (granularity = str "monthly" /\ fmt = str "%Y-%m")) /\
    StronglySorted key_lt rows /\
    (forall k c, In (k, c) rows <->
       (exists t, In t ts /\ sqlite_strftime fmt t = k) /\
       c = Z.of_nat (List.length (filter (fun t => str_eqb (sqlite_strftime fmt t) k) ts))) /\
    sum_Z (map snd rows) = Z.of_nat (List.length ts).
Proof.
  intros ts g rows H. unfold get_timeline_data in H.
  destruct (str_eqb g (str "daily")) eqn:E1;
    [|destruct (str_eqb g (str "weekly")) eqn:E2;
      [|destruct (str_eqb g (str "monthly")) eqn:E3]]; cbn [orb] in H; try discriminate;
    injection H as <-.
  - exists (str "%Y-%m-%d"). split; [left; split; [apply InteractionProps.str_eqb_true, E1 | reflexivity]|].
    apply execute_spec.
  - exists (str "%Y-W%U").
    split; [right; left; split; [apply InteractionProps.str_eqb_true, E2 | reflexivity]|].
    apply execute_spec.
  - exists (str "%Y-%m").
    split; [right; right; split; [apply InteractionProps.str_eqb_true, E3 | reflexivity]|].
    apply execute_spec.
Qed.

Lemma timeline_rows_witness :
  let ts := [mkdatetime 2024 1 3 9 0 0; mkdatetime 2024 1 2 10 0 0; mkdatetime 2024 1 3 22 15 0] in
  get_timeline_data ts (str "daily") = Ok (execute (mkstmt (str "%Y-%m-%d")) ts) /\
  exists fmt,
    ((str "daily" = str "daily" /\ fmt = str "%Y-%m-%d") \/
     (str "daily" = str "weekly" /\ fmt = str "%Y-W%U") \/
     (str "daily" = str "monthly" /\ fmt = str "%Y-%m")) /\
    StronglySorted key_lt (execute (mkstmt (str "%Y-%m-%d")) ts) /\
    (forall k c, In (k, c) (execute (mkstmt (str "%Y-%m-%d")) ts) <->
       (exists t, In t ts /\ sqlite_strftime fmt t = k) /\
       c = Z.of_nat (List.length (filter (fun t => str_eqb (sqlite_strftime fmt t) k) ts))) /\
    sum_Z (map snd (execute (mkstmt (str "%Y-%m-%d")) ts)) = Z.of_nat (List.length ts).
Proof.
  intro ts.
  assert (H : get_timeline_data ts (str "daily") = Ok (execute (mkstmt (str "%Y-%m-%d")) ts))
    by reflexivity.
  split; [exact H | exact (timeline_rows _ _ _ H)].
Defined.

(** X10: when [get_activity_over_time] returns, it echoes the period and holds rows as in [get_timeline_data] for the period's format; the first and last message are [None] exactly for a chat without messages and otherwise the earliest and the latest timestamp. *)
Theorem activity_over_time_rows : forall ts p a,
  get_activity_over_time ts p = Ok a ->
  Timeline.period a = p /\
  (exists fmt,
    ((p = str "daily" /\ fmt = str "%Y-%m-%d") \/
     (p = str "weekly" /\ fmt = str "%Y-W%W") \/
     (p = str "monthly" /\ fmt = str "%Y-%m")) /\
    StronglySorted key_lt (act_data a) /\
    (forall k c, In (k, c) (act_data a) <->
       (exists t, In t ts /\ sqlite_strftime fmt t = k) /\
       c = Z.of_nat (List.length (filter (fun t => str_eqb (sqlite_strftime fmt t) k) ts))) /\
    sum_Z (map snd (act_data a)) = Z.of_nat (List.length ts)) /\
  (first_message a = None <-> ts = []) /\
  (last_message a = None <-> ts = []) /\
  (forall f, first_message a = Some f -> In f ts /\ forall t, In t ts -> DateTime.ltb t f = false) /\
  (forall l, last_message a = Some l -> In l ts /\ forall t, In t ts -> DateTime.ltb l t = false).
Proof.
  intros ts p a H. unfold get_activity_over_time in H.
  pose proof (first_last_spec ts) as FL.
  destruct (first_last ts) as [fst_ts lst_ts]. cbn [fst snd] in FL.
  destruct (str_eqb p (str "daily")) eqn:E1;
    [|destruct (str_eqb p (str "weekly")) eqn:E2;
      [|destruct (str_eqb p (str "monthly")) eqn:E3]]; try discriminate;
    injection H as <-; cbn [Timeline.period act_data first_message last_message];
    (split; [reflexivity|]); (split; [|exact FL]).
  - exists (str "%Y-%m-%d"). split; [left; split; [apply InteractionProps.str_eqb_true, E1 | reflexivity]|].
    apply execute_spec.
  - exists (str "%Y-W%W").
    split; [right; left; split; [apply InteractionProps.str_eqb_true, E2 | reflexivity]|].
    apply execute_spec.
  - exists (str "%Y-%m").
    split; [right; right; split; [apply InteractionProps.str_eqb_true, E3 | reflexivity]|].
    apply execute_spec.
Qed.

Lemma activity_over_time_rows_witness :
  let ts := [mkdatetime 2024 1 3 9 0 0; mkdatetime 2024 1 2 10 0 0; mkdatetime 2024 1 3 22 15 0] in
  let a := mkactivity (str "weekly") (execute (mkstmt (str "%Y-W%W")) ts)
             (Some (mkdatetime 2024 1 2 10 0 0)) (Some (mkdatetime 2024 1 3 22 15 0)) in
  get_activity_over_time ts (str "weekly") = Ok a /\
  (Timeline.period a = str "weekly" /\
  (exists fmt,
    ((str "weekly" = str "daily" /\ fmt = str "%Y-%m-%d") \/
     (str "weekly" = str "weekly" /\ fmt = str "%Y-W%W") \/
     (str "weekly" = str "monthly" /\ fmt = str "%Y-%m")) /\
    StronglySorted key_lt (act_data a) /\
    (forall k c, In (k, c) (act_data a) <->
       (exists t, In t ts /\ sqlite_strftime fmt t = k) /\
       c = Z.of_nat (List.length (filter (fun t => str_eqb (sqlite_strftime fmt t) k) ts))) /\
    sum_Z (map snd (act_data a)) = Z.of_nat (List.length ts)) /\
  (first_message a = None <-> ts = []) /\
  (last_message a = None <-> ts = []) /\
  (forall f, first_message a = Some f -> In f ts /\ forall t, In t ts -> DateTime.ltb t f = false) /\
  (forall l, last_message a = Some l -> In l ts /\ forall t, In t ts -> DateTime.ltb l t = false)).
Proof.
  intros ts a.
  assert (H : get_activity_over_time ts (str "weekly") = Ok a) by (vm_compute; reflexivity).
  split; [exact H | exact (activity_over_time_rows _ _ _ H)].
Defined.

End TimelineProps.

Module InteractionShapeProps.
Import PyStr DateTime Py Interaction InteractionSpec.

Lemma dd_update_keys : forall {V} (dflt : V) k f d j,
  In j (map fst (dd_update dflt k f d)) <-> In j (map fst d) \/ j = k.
Proof.
  intros V dflt k f d j. induction d as [|[k' v] r IH]; cbn [dd_update map fst].
  - cbn. split; [intros [H | []]; right; symmetry; exact H | intros [[] | H]; left; symmetry; exact H].
  - destruct (str_eqb k' k) eqn:E.
    + apply InteractionProps.str_eqb_true in E. subst k'. cbn [map fst In].
      split; [tauto | intros [H | H]; [exact H | left; symmetry; exact H]].
    + cbn [map fst In]. rewrite IH. tauto.
Qed.

Lemma dd_update_nodup : forall {V} (dflt : V) k f d,
  NoDup (map fst d) -> NoDup (map fst (dd_update dflt k f d)).
Proof.
  intros V dflt k f d. induction d as [|[k' v] r IH]; intros Hnd; cbn [dd_update].
  - repeat constructor. intros [].
  - cbn [map fst] in Hnd. apply NoDup_cons_iff in Hnd as [Hk Hnd].
    destruct (str_eqb k' k) eqn:E; cbn [map fst]; constructor; auto.
    rewrite dd_update_keys. intros [H | H]; [exact (Hk H)|].
    subst k'. rewrite (proj2 (InteractionProps.str_eqb_true k k) eq_refl) in E. discriminate.
Qed.

Lemma dd_update_values : forall {V} (P : V -> Prop) (dflt : V) k f d,
  P (f dflt) -> (forall v, P v -> P (f v)) -> (forall kv, In kv d -> P (snd kv)) ->
  forall kv, In kv (dd_update dflt k f d) -> P (snd kv).
Proof.
  intros V P dflt k f d H0 Hf. induction d as [|[k' v] r IH]; intros Hd kv Hin; cbn [dd_update] in Hin.
  - destruct Hin as [<- | []]. exact H0.
  - destruct (str_eqb k' k); destruct Hin as [<- | Hin].
    + apply Hf, (Hd (k', v)). left. reflexivity.
    + apply Hd. right. exact Hin.
    + apply (Hd (k', v)). left. reflexivity.
    + apply IH; [intros kv' H; apply Hd; right; exact H | exact Hin].
Qed.

Lemma steps_shape : forall rest rts st ps prev,
  NoDup (map fst rts) -> NoDup (map fst st) ->
  (forall kv, In kv st -> 1 <= snd kv) ->
  (forall kv, In kv rts -> snd kv <> [] /\ forall t, In t (snd kv) -> 0 < t < 3600) ->
  (forall j, In j (map fst st) -> In j (map fst (let '(_, st', _, _) := fold_left step rest (rts, st, ps, prev) in st'))) /\
  let '(rts', st', _, _) := fold_left step rest (rts, st, ps, prev) in
  NoDup (map fst rts') /\ NoDup (map fst st') /\
  (forall kv, In kv st' -> 1 <= snd kv) /\
  (forall kv, In kv rts' -> snd kv <> [] /\ forall t, In t (snd kv) -> 0 < t < 3600).
Proof.
  induction rest as [|c r IH]; intros rts st ps prev H1 H2 H3 H4.
  - cbn [fold_left]. split; [intros j Hj; exact Hj | exact (conj H1 (conj H2 (conj H3 H4)))].
  - cbn [fold_left]. rewrite InteractionProps.step_eq.
    set (td := time_diff prev c).
    set (rts1 := if negb (str_eqb (sender c) (sender prev)) && (td <? 3600) && (td >? 0)
                 then dd_update [] (sender c) (fun times => times ++ [td]) rts else rts).
    set (st1 := if td >? 14400 then dd_update 0 (sender c) (Z.add 1) st else st).
    set (ps1 := if td >? 14400 then ps ++ [pause_of (prev, c)] else ps).
    assert (G1 : NoDup (map fst rts1))
      by (subst rts1; destruct (_ && _ && _); [apply dd_update_nodup|]; exact H1).
    assert (G2 : NoDup (map fst st1))
      by (subst st1; destruct (td >? 14400); [apply dd_update_nodup|]; exact H2).
    assert (G3 : forall kv, In kv st1 -> 1 <= snd kv).
    { subst st1. destruct (td >? 14400); [|exact H3].
      apply (dd_update_values (fun v => 1 <= v)); [lia | intros; lia | exact H3]. }
    assert (G4 : forall kv, In kv rts1 -> snd kv <> [] /\ forall t, In t (snd kv) -> 0 < t < 3600).
    { subst rts1. destruct (_ && _ && _) eqn:E; [|exact H4].
      apply andb_true_iff in E as [E E3]. apply andb_true_iff in E as [_ E2].
      apply (dd_update_values (fun v => v <> [] /\ forall t, In t v -> 0 < t < 3600)).
      - split; [discriminate|]. intros t [<- | []]. lia.
      - intros v [_ Hv]. split; [destruct v; discriminate|].
        intros t Ht. apply in_app_or in Ht as [Ht | [<- | []]]; [exact (Hv t Ht) | lia].
      - exact H4. }
    destruct (IH rts1 st1 ps1 c G1 G2 G3 G4) as [K1 K2]. split; [|exact K2].
    intros j Hj. apply K1. subst st1. destruct (td >? 14400); [|exact Hj].
    apply dd_update_keys. left. exact Hj.
Qed.

Lemma run_loop_shape : forall first rest,
  let '(rts, st, _, _) := run_loop first rest in
  In (sender first) (map fst st) /\
  NoDup (map fst rts) /\ NoDup (map fst st) /\
  (forall kv, In kv st -> 1 <= snd kv) /\
  (forall kv, In kv rts -> snd kv <> [] /\ forall t, In t (snd kv) -> 0 < t < 3600).
Proof.
  intros first rest. unfold run_loop.
  destruct (steps_shape rest [] (dd_update 0 (sender first) (Z.add 1) []) [] first) as [K1 K2].
  - constructor.
  - repeat constructor. intros [].
  - intros kv [<- | []]. cbn. lia.
  - intros kv [].
  - destruct (fold_left step rest _) as [[[rts st] ps] last].
    split; [apply K1; left; reflexivity | exact K2].
Qed.

(** X11: the [conversation_starters] of [get_interaction_metrics] are sorted by count in decreasing order, with distinct names and counts of at least 1; with two messages or more, the sender of the first message is among them. *)
Theorem starters_ranked : forall msgs,
  let st := conversation_starters (get_interaction_metrics msgs) in
  Sorted (key_ge snd) st /\ NoDup (map fst st) /\ (forall kc, In kc st -> 1 <= snd kc) /\
  (forall first rest, msgs = first :: rest -> rest <> [] -> In (sender first) (map fst st)).
Proof.
  intros [|first [|c r]]; cbn [get_interaction_metrics conversation_starters].
  - split; [constructor|]. split; [constructor|]. split; [intros kc []|]. intros f rest H. discriminate.
  - split; [constructor|]. split; [constructor|]. split; [intros kc []|].
    intros f rest H Hr. injection H as -> <-. congruence.
  - pose proof (run_loop_shape first (c :: r)) as S.
    destruct (run_loop first (c :: r)) as [[[rts st] ps] last].
    destruct S as (S0 & _ & S2 & S3 & _).
    cbn [conversation_starters].
    pose proof (InteractionProps.sort_desc_perm snd st) as Hp.
    split; [apply InteractionProps.sort_desc_sorted|].
    split; [exact (Permutation_NoDup (Permutation_map fst (Permutation_sym Hp)) S2)|].
    split; [intros kc H; apply S3, (Permutation_in _ Hp), H|].
    intros f rest H _. injection H as <- _.
    exact (Permutation_in _ (Permutation_map fst (Permutation_sym Hp)) S0).
Qed.

Lemma starters_ranked_witness :
  let msgs := Samples.interaction_rows in
  let st := conversation_starters (get_interaction_metrics msgs) in
  Sorted (key_ge snd) st /\ NoDup (map fst st) /\ (forall kc, In kc st -> 1 <= snd kc) /\
  (forall first rest, msgs = first :: rest -> rest <> [] -> In (sender first) (map fst st)).
Proof. exact (starters_ranked Samples.interaction_rows). Defined.

Lemma insert_asc_perm : forall x l, Permutation (insert_asc x l) (x :: l).
Proof.
  intros x. induction l as [|y r IH]; cbn [insert_asc]; [reflexivity|].
  destruct (y <=? x); [|reflexivity]. rewrite IH. apply perm_swap.
Qed.

Lemma sort_asc_perm : forall l, Permutation (sort_asc l) l.
Proof.
  intros l. unfold sort_asc.
  assert (G : forall acc, Permutation (fold_left (fun acc x => insert_asc x acc) l acc) (l ++ acc)).
  { induction l as [|x l IH]; intros acc; cbn [fold_left app]; [reflexivity|].
    rewrite IH, insert_asc_perm. apply Permutation_sym, Permutation_middle. }
  rewrite G, app_nil_r. reflexivity.
Qed.

(** X12: the [response_times] of [get_interaction_metrics] have distinct names; each entry comes from a non-empty list of recorded response times, all strictly between 0 and 3600 seconds, its [response_count] is their number and its median (in tenths of a second) is one of them, so it lies between 1 and 3599 seconds. *)
Theorem response_stats_shape : forall msgs,
  let rs := response_times (get_interaction_metrics msgs) in
  NoDup (map rs_name rs) /\
  forall s, In s rs -> exists times,
    In (rs_name s, times) (recorded_response_times msgs) /\
    response_count s = Z.of_nat (List.length times) /\ 1 <= response_count s /\
    (forall t, In t times -> 0 < t < 3600) /\
    (exists t, In t times /\ median_seconds s = 10 * t) /\
    10 <= median_seconds s <= 35990.
Proof.
  intros [|first [|c r]]; cbn [get_interaction_metrics response_times].
  - split; [constructor | intros s []].
  - split; [constructor | intros s []].
  - unfold recorded_response_times.
    pose proof (run_loop_shape first (c :: r)) as S.
    destruct (run_loop first (c :: r)) as [[[rts st] ps] last].
    destruct S as (_ & S1 & _ & _ & S4). cbn [response_times].
    split.
    + rewrite map_map.
      assert (E : map (fun x => rs_name (summarize x))
                      (filter (fun '(_, times) => match times with [] => false | _ => true end) rts) =
                  map fst (filter (fun '(_, times) => match times with [] => false | _ => true end) rts)).
      { apply map_ext. intros [n times]. reflexivity. }
      rewrite E. clear E. revert S1. generalize rts. induction rts0 as [|[n times] l IH]; intros H;
        [constructor|].
      cbn [map fst] in H. apply NoDup_cons_iff in H as [Hn H]. cbn [filter].
      destruct times; [apply IH, H|]. cbn [map fst]. constructor; [|apply IH, H].
      intros Hin. apply Hn. apply in_map_iff in Hin as ([n' t'] & E & Hin). cbn [fst] in E. subst n'.
      apply filter_In in Hin as [Hin _]. apply in_map_iff. exists (n, t'). auto.
    + intros s Hs. apply in_map_iff in Hs as ([n times] & <- & Hin).
      apply filter_In in Hin as [Hin Hne].
      destruct (S4 (n, times) Hin) as [Hne' Hrange]. cbn [snd] in Hne', Hrange.
      exists times. cbn [summarize rs_name response_count median_seconds].
      split; [exact Hin|]. split; [reflexivity|].
      split; [destruct times; [congruence | cbn [List.length]; lia]|].
      split; [exact Hrange|].
      assert (Hk : (Nat.div (List.length times) 2 < List.length (sort_asc times))%nat).
      { rewrite (Permutation_length (sort_asc_perm times)).
        destruct times as [|x xs]; [congruence|]. cbn [List.length].
        apply Nat.Div0.div_lt_upper_bound. lia. }
      assert (Ht : In (nth (Nat.div (List.length times) 2) (sort_asc times) 0) times)
        by exact (Permutation_in _ (sort_asc_perm times) (nth_In _ _ Hk)).
      split; [eexists; split; [exact Ht | reflexivity]|].
      specialize (Hrange _ Ht). lia.
Qed.

Lemma response_stats_shape_witness :
  let msgs := Samples.interaction_rows in
  let rs := response_times (get_interaction_metrics msgs) in
  NoDup (map rs_name rs) /\
  forall s, In s rs -> exists times,
    In (rs_name s, times) (recorded_response_times msgs) /\
    response_count s = Z.of_nat (List.length times) /\ 1 <= response_count s /\
    (forall t, In t times -> 0 < t < 3600) /\
    (exists t, In t times /\ median_seconds s = 10 * t) /\
    10 <= median_seconds s <= 35990.
Proof. exact (response_stats_shape Samples.interaction_rows). Defined.

End InteractionShapeProps.

Module PatternsProps.
Import PyStr DateTime Py Sql Timeline Heatmap Dict Patterns.

Lemma hour_key : forall t,
  sqlite_strftime (str "%H") t = zero_pad 2 (hour t mod 100) /\ 0 <= hour t mod 100 < 100.
Proof.
  intros t. split; [|apply Z.mod_pos_bound; lia].
  change (sqlite_strftime (str "%H") t) with (zero_pad 2 (hour t) ++ []).
  rewrite app_nil_r. unfold zero_pad. cbn [seq rev app map Z.of_nat].
  rewrite !Z.pow_1_r, !Z.pow_0_r.
  f_equal; [f_equal | f_equal; f_equal]; Z.div_mod_to_equations; lia.
Qed.

Lemma day_key : forall t,
  sqlite_strftime (str "%w") t = [48 + strftime_w t] /\ 0 <= strftime_w t < 7.
Proof.
  intros t. assert (B : 0 <= strftime_w t < 7) by (unfold strftime_w; apply Z.mod_pos_bound; lia).
  split; [|exact B].
  change (sqlite_strftime (str "%w") t) with (zero_pad 1 (strftime_w t) ++ []).
  rewrite app_nil_r. unfold zero_pad. cbn [seq rev app map Z.of_nat].
  rewrite Z.pow_0_r, Z.div_1_r, Z.mod_small by lia. reflexivity.
Qed.

Lemma hour_round_trip : forall n, 0 <= n < 100 ->
  py_int (zero_pad 2 n) = Some n /\ format_02d n = zero_pad 2 n.
Proof.
  intros n Hn.
  assert (H : forallb (fun k => let m := Z.of_nat k in
                         match py_int (zero_pad 2 m) with
                         | Some v => (v =? m) && str_eqb (format_02d m) (zero_pad 2 m)
                         | None => false
                         end) (seq 0 100) = true) by (vm_compute; reflexivity).
  rewrite forallb_forall in H. specialize (H (Z.to_nat n)).
  rewrite in_seq, Z2Nat.id in H by lia.
  specialize (H ltac:(lia)). cbv zeta in H.
  destruct (py_int (zero_pad 2 n)) as [v|]; [|discriminate].
  apply andb_true_iff in H as [H1 H2]. apply Z.eqb_eq in H1. subst v.
  split; [reflexivity|]. apply InteractionProps.str_eqb_true. exact H2.
Qed.

Lemma day_round_trip : forall w, 0 <= w < 7 ->
  isdigit [48 + w] = true /\ py_int_e [48 + w] = inr w /\
  day_name_at w = inr (nth (Z.to_nat w) day_names []).
Proof.
  intros w Hw.
  assert (w = 0 \/ w = 1 \/ w = 2 \/ w = 3 \/ w = 4 \/ w = 5 \/ w = 6) as Hc by lia.
  repeat destruct Hc as [-> | Hc]; [..| subst w]; repeat split; reflexivity.
Qed.

Lemma day_name_inj : forall a b, 0 <= a < 7 -> 0 <= b < 7 ->
  nth (Z.to_nat a) day_names [] = nth (Z.to_nat b) day_names [] -> a = b.
Proof.
  intros a b Ha Hb.
  assert (a = 0 \/ a = 1 \/ a = 2 \/ a = 3 \/ a = 4 \/ a = 5 \/ a = 6) as Hca by lia.
  assert (b = 0 \/ b = 1 \/ b = 2 \/ b = 3 \/ b = 4 \/ b = 5 \/ b = 6) as Hcb by lia.
  repeat destruct Hca as [-> | Hca]; try subst a; repeat destruct Hcb as [-> | Hcb]; try subst b;
    cbv; intros H; first [reflexivity | discriminate H].
Qed.

Lemma max_fold_spec : forall (l : list (pystr * Z)) x,
  let b := fold_left (fun best y => if snd best <? snd y then y else best) l x in
  In b (x :: l) /\ forall y, In y (x :: l) -> snd y <= snd b.
Proof.
  induction l as [|y r IH]; intros x; cbn [fold_left].
  - split; [left; reflexivity|]. intros y [<- | []]. lia.
  - destruct (snd x <? snd y) eqn:E.
    + destruct (IH y) as [I1 I2]. split; [right; exact I1|].
      intros z [<- | Hz]; [|apply I2, Hz]. apply Z.ltb_lt in E.
      specialize (I2 y (or_introl eq_refl)). lia.
    + destruct (IH x) as [I1 I2]. split.
      * destruct I1 as [I1 | I1]; [left; exact I1 | right; right; exact I1].
      * intros z [<- | [<- | Hz]].
        -- apply I2. left. reflexivity.
        -- apply Z.ltb_ge in E. specialize (I2 x (or_introl eq_refl)). lia.
        -- apply I2. right. exact Hz.
Qed.

Lemma max_by_count_spec : forall items dflt,
  (items = [] /\ max_by_count items dflt = dflt) \/
  exists c, In (max_by_count items dflt, c) items /\ forall y, In y items -> snd y <= c.
Proof.
  intros [|x l] dflt; [left; split; reflexivity|]. right. cbn [max_by_count].
  destruct (max_fold_spec l x) as [I1 I2].
  destruct (fold_left _ l x) as [k c] eqn:E. exists c. split; [exact I1 | exact I2].
Qed.

Lemma dict_set_absent : forall {V} k (v : V) d, ~ In k (map fst d) -> dict_set k v d = d ++ [(k, v)].
Proof.
  intros V k v. induction d as [|[k' v'] r IH]; intros H; [reflexivity|].
  cbn [dict_set]. destruct (str_eqb k' k) eqn:E.
  - apply InteractionProps.str_eqb_true in E. subst k'. exfalso. apply H. left. reflexivity.
  - rewrite IH; [reflexivity|]. intros Hin. apply H. right. exact Hin.
Qed.

Lemma rows_to_dict_id : forall rows, NoDup (map fst rows) -> rows_to_dict rows = rows.
Proof.
  intros rows. unfold rows_to_dict.
  assert (G : forall acc, NoDup (map fst (acc ++ rows)) ->
    fold_left (fun d row => dict_set (fst row) (snd row) d) rows acc = acc ++ rows).
  { induction rows as [|[k v] r IH]; intros acc H; cbn [fold_left fst snd]; [rewrite app_nil_r; reflexivity|].
    rewrite map_app in H. cbn [map fst] in H.
    rewrite dict_set_absent.
    - rewrite IH, <- app_assoc; [reflexivity|]. rewrite <- app_assoc, map_app. exact H.
    - intros Hin. apply NoDup_remove_2 in H. apply H. apply in_or_app. left. exact Hin. }
  intros H. apply (G []). exact H.
Qed.

Lemma nodup_map_on : forall {A B} (f : A -> B) l,
  NoDup l -> (forall x y, In x l -> In y l -> f x = f y -> x = y) -> NoDup (map f l).
Proof.
  intros A B f. induction l as [|x r IH]; intros Hnd Hinj; [constructor|].
  apply NoDup_cons_iff in Hnd as [Hx Hnd]. cbn [map]. constructor.
  - intros Hin. apply in_map_iff in Hin as (y & E & Hy).
    assert (y = x) by (apply Hinj; [right | left | ]; auto). subst y. exact (Hx Hy).
  - apply IH; [exact Hnd|]. intros a b Ha Hb. apply Hinj; right; assumption.
Qed.

Lemma hourly_comp_eval : forall items acc,
  (forall kc, In kc items -> exists n, 0 <= n < 100 /\ fst kc = zero_pad 2 n) ->
  NoDup (map fst (acc ++ map (fun kc => (fst kc ++ str ":00", snd kc)) items)) ->
  hourly_comp items acc = inr (acc ++ map (fun kc => (fst kc ++ str ":00", snd kc)) items).
Proof.
  induction items as [|[k c] r IH]; intros acc Hk Hnd; cbn [hourly_comp]; [rewrite app_nil_r; reflexivity|].
  destruct (Hk (k, c) (or_introl eq_refl)) as (n & Hn & Ek). cbn [fst] in Ek. subst k.
  destruct (hour_round_trip n Hn) as [P F]. unfold py_int_e. rewrite P. cbn [bind_p].
  rewrite F. cbn [map fst snd] in Hnd |- *. rewrite map_app in Hnd. cbn [map fst] in Hnd.
  rewrite dict_set_absent.
  - rewrite IH, <- app_assoc; [reflexivity | intros kc Hin; apply Hk; right; exact Hin |].
    rewrite <- app_assoc, map_app. exact Hnd.
  - intros Hin. apply NoDup_remove_2 in Hnd. apply Hnd. apply in_or_app. left. exact Hin.
Qed.

Lemma daily_comp_eval : forall items acc,
  (forall kc, In kc items -> exists w, 0 <= w < 7 /\ fst kc = [48 + w]) ->
  NoDup (map fst (acc ++ map (fun kc => (nth (Z.to_nat (hd 0 (fst kc) - 48)) day_names [], snd kc)) items)) ->
  daily_comp items acc =
  inr (acc ++ map (fun kc => (nth (Z.to_nat (hd 0 (fst kc) - 48)) day_names [], snd kc)) items).
Proof.
  induction items as [|[k c] r IH]; intros acc Hk Hnd; cbn [daily_comp]; [rewrite app_nil_r; reflexivity|].
  destruct (Hk (k, c) (or_introl eq_refl)) as (w & Hw & Ek). cbn [fst] in Ek. subst k.
  destruct (day_round_trip w Hw) as (D & P & N). rewrite D, P. cbn [bind_p]. rewrite N. cbn [bind_p].
  cbn [map fst snd hd] in Hnd |- *. replace (48 + w - 48) with w in * by lia.
  rewrite map_app in Hnd. cbn [map fst] in Hnd.
  rewrite dict_set_absent.
  - rewrite IH, <- app_assoc; [reflexivity | intros kc Hin; apply Hk; right; exact Hin |].
    rewrite <- app_assoc, map_app. exact Hnd.
  - intros Hin. apply NoDup_remove_2 in Hnd. apply Hnd. apply in_or_app. left. exact Hin.
Qed.

Lemma query_rows : forall f ts rows q c,
  Permutation rows (group_count str_eqb (map (sqlite_strftime f) ts)) ->
  (In (q, c) rows <-> (exists t, sqlite_strftime f t = q /\ In t ts) /\
     c = Z.of_nat (List.length (filter (fun u => str_eqb (sqlite_strftime f u) q) ts))).
Proof.
  intros f ts rows q c Hp. split.
  - intros Hin. apply (Permutation_in _ Hp) in Hin.
    apply (GroupProps.group_count_spec str_eqb InteractionProps.str_eqb_true) in Hin as [Hq Hc].
    apply in_map_iff in Hq. split; [exact Hq|]. rewrite Hc, TimelineProps.filter_map_len. reflexivity.
  - intros [Hq Hc]. apply (Permutation_in _ (Permutation_sym Hp)).
    apply (GroupProps.group_count_spec str_eqb InteractionProps.str_eqb_true).
    split; [apply in_map_iff; exact Hq|]. rewrite Hc, TimelineProps.filter_map_len. reflexivity.
Qed.

Lemma query_nodup : forall f ts rows,
  Permutation rows (group_count str_eqb (map (sqlite_strftime f) ts)) -> NoDup (map fst rows).
Proof.
  intros f ts rows Hp. apply (Permutation_NoDup (Permutation_map fst (Permutation_sym Hp))).
  apply (GroupProps.group_count_nodup str_eqb InteractionProps.str_eqb_true).
Qed.

Lemma query_sum : forall f ts rows,
  Permutation rows (group_count str_eqb (map (sqlite_strftime f) ts)) ->
  sum_Z (map snd rows) = Z.of_nat (List.length ts).
Proof.
  intros f ts rows Hp. rewrite (InteractionProps.sum_Z_perm _ _ (Permutation_map snd Hp)).
  rewrite (GroupProps.group_count_sum str_eqb), length_map. reflexivity.
Qed.

Lemma hourly_keys : forall ts rows kc, Permutation rows (hourly_query ts) -> In kc rows ->
  exists n, 0 <= n < 100 /\ fst kc = zero_pad 2 n.
Proof.
  intros ts rows [q c] Hp Hin. apply (query_rows _ _ _ _ _ Hp) in Hin as [(t & <- & _) _].
  destruct (hour_key t) as [E B]. exists (hour t mod 100). split; [exact B | exact E].
Qed.

Lemma daily_keys : forall ts rows kc, Permutation rows (daily_query ts) -> In kc rows ->
  exists w, 0 <= w < 7 /\ fst kc = [48 + w].
Proof.
  intros ts rows [q c] Hp Hin. apply (query_rows _ _ _ _ _ Hp) in Hin as [(t & <- & _) _].
  destruct (day_key t) as [E B]. exists (strftime_w t). split; [exact B | exact E].
Qed.

(** The method on the rows of its queries: the two distributions are the
    rows with their keys renamed, the peaks are the keys of a row of
    largest count. *)
Lemma patterns_eval : forall ts hourly_rows daily_rows,
  Permutation hourly_rows (hourly_query ts) -> Permutation daily_rows (daily_query ts) ->
  get_activity_patterns hourly_rows daily_rows =
  inr (mkpatterns
         (map (fun kc => (fst kc ++ str ":00", snd kc)) hourly_rows)
         (map (fun kc => (nth (Z.to_nat (hd 0 (fst kc) - 48)) day_names [], snd kc)) daily_rows)
         (max_by_count hourly_rows (str "00") ++ str ":00")
         (nth (Z.to_nat (hd 0 (max_by_count daily_rows (str "0")) - 48)) day_names [])).
Proof.
  intros ts hr dr Hh Hd. unfold get_activity_patterns.
  rewrite (rows_to_dict_id hr (query_nodup _ _ _ Hh)), (rows_to_dict_id dr (query_nodup _ _ _ Hd)).
  (* peak_day_name *)
  assert (Wd : exists w, 0 <= w < 7 /\ max_by_count dr (str "0") = [48 + w]).
  { destruct (max_by_count_spec dr (str "0")) as [[_ ->] | (c & Hin & _)].
    - exists 0. split; [lia | reflexivity].
    - destruct (daily_keys ts dr _ Hd Hin) as (w & Hw & E). exists w. split; [exact Hw | exact E]. }
  destruct Wd as (w & Hw & Ew). rewrite Ew.
  destruct (day_round_trip w Hw) as (D & P & N). rewrite D, P. cbn [bind_p]. rewrite N. cbn [bind_p].
  (* the comprehensions *)
  rewrite hourly_comp_eval.
  2: { intros kc Hin. exact (hourly_keys ts hr kc Hh Hin). }
  2: { cbn [app]. rewrite map_map. cbn [fst].
       rewrite <- (map_map fst (fun k => k ++ str ":00")).
       apply nodup_map_on; [exact (query_nodup _ _ _ Hh)|].
       intros x y _ _ E. apply app_inv_tail in E. exact E. }
  cbn [bind_p app].
  rewrite daily_comp_eval.
  2: { intros kc Hin. exact (daily_keys ts dr kc Hd Hin). }
  2: { cbn [app]. rewrite map_map. cbn [fst].
       rewrite <- (map_map fst (fun k => nth (Z.to_nat (hd 0 k - 48)) day_names [])).
       apply nodup_map_on; [exact (query_nodup _ _ _ Hd)|].
       intros x y Hx Hy E.
       apply in_map_iff in Hx as ([kx cx] & <- & Hx). apply in_map_iff in Hy as ([ky cy] & <- & Hy).
       destruct (daily_keys ts dr _ Hd Hx) as (a & Ha & Ea).
       destruct (daily_keys ts dr _ Hd Hy) as (b & Hb & Eb).
       cbn [fst] in Ea, Eb, E |- *. subst kx ky. cbn [hd] in E.
       replace (48 + a - 48) with a in E by lia. replace (48 + b - 48) with b in E by lia.
       rewrite (day_name_inj a b Ha Hb E). reflexivity. }
  cbn [bind_p].
  (* peak_hour *)
  assert (Nh : exists n, 0 <= n < 100 /\ max_by_count hr (str "00") = zero_pad 2 n).
  { destruct (max_by_count_spec hr (str "00")) as [[_ ->] | (c & Hin & _)].
    - exists 0. split; [lia | reflexivity].
    - exact (hourly_keys ts hr _ Hh Hin). }
  destruct Nh as (n & Hn & En). rewrite En.
  destruct (hour_round_trip n Hn) as [P' F']. unfold py_int_e at 1. rewrite P'. cbn [bind_p].
  rewrite F'. cbn [hd]. replace (48 + w - 48) with w by lia. reflexivity.
Qed.

Lemma peak_spec : forall f ts rows dflt t0,
  Permutation rows (group_count str_eqb (map (sqlite_strftime f) ts)) -> In t0 ts ->
  exists th, In th ts /\ max_by_count rows dflt = sqlite_strftime f th /\
  forall t, In t ts ->
    (List.length (filter (fun u => str_eqb (sqlite_strftime f u) (sqlite_strftime f t)) ts) <=
     List.length (filter (fun u => str_eqb (sqlite_strftime f u) (sqlite_strftime f th)) ts))%nat.
Proof.
  intros f ts rows dflt t0 Hp H0.
  destruct (max_by_count_spec rows dflt) as [[E _] | (c & Hin & Hmax)].
  - subst rows. exfalso.
    assert (Hin : In (sqlite_strftime f t0,
                      Z.of_nat (List.length (filter (fun u => str_eqb (sqlite_strftime f u)
                                                     (sqlite_strftime f t0)) ts))) []).
    { apply (query_rows _ _ _ _ _ Hp). split; [exists t0; split; [reflexivity | exact H0] | reflexivity]. }
    destruct Hin.
  - pose proof Hin as Hin'. apply (query_rows _ _ _ _ _ Hp) in Hin' as [(th & Eth & Hth) Hc].
    exists th. split; [exact Hth|]. split; [symmetry; exact Eth|].
    intros t Ht.
    assert (Ht' : In (sqlite_strftime f t,
                      Z.of_nat (List.length (filter (fun u => str_eqb (sqlite_strftime f u)
                                                     (sqlite_strftime f t)) ts))) rows).
    { apply (query_rows _ _ _ _ _ Hp). split; [exists t; split; [reflexivity | exact Ht] | reflexivity]. }
    specialize (Hmax _ Ht'). cbn [snd] in Hmax. rewrite Hc, <- Eth in Hmax. lia.
Qed.

(** X13: on the rows of its two queries, in any order, [get_activity_patterns] raises nothing; without messages the peaks are [00:00] and [Sunday], otherwise the peak hour and the peak day are those of messages whose hour, respectively weekday, is shared by no fewer messages than any other. *)
Theorem activity_patterns_peaks : forall ts hourly_rows daily_rows,
  Permutation hourly_rows (hourly_query ts) -> Permutation daily_rows (daily_query ts) ->
  exists r, get_activity_patterns hourly_rows daily_rows = inr r /\
  (ts = [] -> peak_hour r = str "00:00" /\ peak_day r = str "Sunday") /\
  (ts <> [] -> exists th td, In th ts /\ In td ts /\
     peak_hour r = sqlite_strftime (str "%H") th ++ str ":00" /\
     peak_day r = nth (Z.to_nat (strftime_w td)) day_names [] /\
     forall t, In t ts ->
       (List.length (filter (fun u => str_eqb (sqlite_strftime (str "%H") u)
                                              (sqlite_strftime (str "%H") t)) ts) <=
        List.length (filter (fun u => str_eqb (sqlite_strftime (str "%H") u)
                                              (sqlite_strftime (str "%H") th)) ts))%nat /\
       (List.length (filter (fun u => str_eqb (sqlite_strftime (str "%w") u)
                                              (sqlite_strftime (str "%w") t)) ts) <=
        List.length (filter (fun u => str_eqb (sqlite_strftime (str "%w") u)
                                              (sqlite_strftime (str "%w") td)) ts))%nat).
Proof.
  intros ts hr dr Hh Hd. rewrite (patterns_eval ts hr dr Hh Hd).
  eexists. split; [reflexivity|]. cbn [peak_hour peak_day]. split.
  - intros ->.
    assert (E1 : hr = []) by (apply Permutation_nil, Permutation_sym, Hh).
    assert (E2 : dr = []) by (apply Permutation_nil, Permutation_sym, Hd).
    subst hr dr. split; reflexivity.
  - intros Hne. destruct ts as [|t0 ts']; [congruence|].
    destruct (peak_spec _ _ _ (str "00") t0 Hh (or_introl eq_refl)) as (th & Hth & Eh & Mh).
    destruct (peak_spec _ _ _ (str "0") t0 Hd (or_introl eq_refl)) as (td & Htd & Ed & Md).
    exists th, td. split; [exact Hth|]. split; [exact Htd|].
    split; [rewrite Eh; reflexivity|]. split.
    + rewrite Ed. destruct (day_key td) as [E _]. rewrite E. cbn [hd].
      replace (48 + strftime_w td - 48) with (strftime_w td) by lia. reflexivity.
    + intros t Ht. split; [exact (Mh t Ht) | exact (Md t Ht)].
Qed.

Lemma activity_patterns_peaks_witness :
  let ts := [mkdatetime 2024 1 2 10 0 0; mkdatetime 2024 1 3 10 5 0; mkdatetime 2024 1 3 23 0 0] in
  Permutation (hourly_query ts) (hourly_query ts) /\ Permutation (daily_query ts) (daily_query ts) /\
  exists r, get_activity_patterns (hourly_query ts) (daily_query ts) = inr r /\
  (ts = [] -> peak_hour r = str "00:00" /\ peak_day r = str "Sunday") /\
  (ts <> [] -> exists th td, In th ts /\ In td ts /\
     peak_hour r = sqlite_strftime (str "%H") th ++ str ":00" /\
     peak_day r = nth (Z.to_nat (strftime_w td)) day_names [] /\
     forall t, In t ts ->
       (List.length (filter (fun u => str_eqb (sqlite_strftime (str "%H") u)
                                              (sqlite_strftime (str "%H") t)) ts) <=
        List.length (filter (fun u => str_eqb (sqlite_strftime (str "%H") u)
                                              (sqlite_strftime (str "%H") th)) ts))%nat /\
       (List.length (filter (fun u => str_eqb (sqlite_strftime (str "%w") u)
                                              (sqlite_strftime (str "%w") t)) ts) <=
        List.length (filter (fun u => str_eqb (sqlite_strftime (str "%w") u)
                                              (sqlite_strftime (str "%w") td)) ts))%nat).
Proof.
  cbv zeta. split; [apply Permutation_refl|]. split; [apply Permutation_refl|].
  apply activity_patterns_peaks; apply Permutation_refl.
Defined.

(** X14: on the rows of its two queries, in any order, [get_activity_patterns] raises nothing and its hourly and daily distributions hold one entry per hour [HH:00], respectively day name, present among the messages, with the number of messages in it; each distribution adds up to the number of messages. *)
Theorem activity_patterns_distributions : forall ts hourly_rows daily_rows,
  Permutation hourly_rows (hourly_query ts) -> Permutation daily_rows (daily_query ts) ->
  exists r, get_activity_patterns hourly_rows daily_rows = inr r /\
  NoDup (map fst (hourly_distribution r)) /\
  (forall k c, In (k, c) (hourly_distribution r) <->
     exists t, In t ts /\ k = sqlite_strftime (str "%H") t ++ str ":00" /\
       c = Z.of_nat (List.length (filter (fun u => str_eqb (sqlite_strftime (str "%H") u)
                                                           (sqlite_strftime (str "%H") t)) ts))) /\
  sum_Z (map snd (hourly_distribution r)) = Z.of_nat (List.length ts) /\
  NoDup (map fst (daily_distribution r)) /\
  (forall k c, In (k, c) (daily_distribution r) <->
     exists t, In t ts /\ k = nth (Z.to_nat (strftime_w t)) day_names [] /\
       c = Z.of_nat (List.length (filter (fun u => str_eqb (sqlite_strftime (str "%w") u)
                                                           (sqlite_strftime (str "%w") t)) ts))) /\
  sum_Z (map snd (daily_distribution r)) = Z.of_nat (List.length ts).
Proof.
  intros ts hr dr Hh Hd. pose proof (patterns_eval ts hr dr Hh Hd) as Ev.
  eexists. split; [exact Ev|]. cbn [hourly_distribution daily_distribution].
  split; [|split; [|split; [|split; [|split]]]].
  - rewrite map_map. cbn [fst].
    rewrite <- (map_map fst (fun k => k ++ str ":00")).
    apply nodup_map_on; [exact (query_nodup _ _ _ Hh)|].
    intros x y _ _ E. apply app_inv_tail in E. exact E.
  - intros k c. rewrite in_map_iff. split.
    + intros ([q c'] & E & Hin). cbn [fst snd] in E. injection E as <- <-.
      apply (query_rows _ _ _ _ _ Hh) in Hin as [(t & <- & Ht) Hc].
      exists t. split; [exact Ht|]. split; [reflexivity | exact Hc].
    + intros (t & Ht & -> & ->). eexists (_, _). split; [reflexivity|].
      apply (query_rows _ _ _ _ _ Hh). split; [exists t; split; [reflexivity | exact Ht] | reflexivity].
  - rewrite map_map. exact (query_sum _ _ _ Hh).
  - rewrite map_map. cbn [fst].
    rewrite <- (map_map fst (fun k => nth (Z.to_nat (hd 0 k - 48)) day_names [])).
    apply nodup_map_on; [exact (query_nodup _ _ _ Hd)|].
    intros x y Hx Hy E.
    apply in_map_iff in Hx as ([kx cx] & <- & Hx). apply in_map_iff in Hy as ([ky cy] & <- & Hy).
    destruct (daily_keys ts dr _ Hd Hx) as (a & Ha & Ea).
    destruct (daily_keys ts dr _ Hd Hy) as (b & Hb & Eb).
    cbn [fst] in Ea, Eb, E |- *. subst kx ky. cbn [hd] in E.
    replace (48 + a - 48) with a in E by lia. replace (48 + b - 48) with b in E by lia.
    rewrite (day_name_inj a b Ha Hb E). reflexivity.
  - intros k c. rewrite in_map_iff. split.
    + intros ([q c'] & E & Hin). cbn [fst snd] in E. injection E as <- <-.
      apply (query_rows _ _ _ _ _ Hd) in Hin as [(t & <- & Ht) Hc].
      exists t. split; [exact Ht|]. split; [|exact Hc].
      destruct (day_key t) as [Ek _]. rewrite Ek. cbn [hd].
      replace (48 + strftime_w t - 48) with (strftime_w t) by lia. reflexivity.
    + intros (t & Ht & -> & ->). exists (sqlite_strftime (str "%w") t,
        Z.of_nat (List.length (filter (fun u => str_eqb (sqlite_strftime (str "%w") u)
                                                        (sqlite_strftime (str "%w") t)) ts))).
      split.
      * destruct (day_key t) as [Ek _]. cbn [fst snd]. rewrite Ek. cbn [hd].
        replace (48 + strftime_w t - 48) with (strftime_w t) by lia. reflexivity.
      * apply (query_rows _ _ _ _ _ Hd). split; [exists t; split; [reflexivity | exact Ht] | reflexivity].
  - rewrite map_map. exact (query_sum _ _ _ Hd).
Qed.

Lemma activity_patterns_distributions_witness :
  let ts := [mkdatetime 2024 1 2 10 0 0; mkdatetime 2024 1 3 10 5 0; mkdatetime 2024 1 3 23 0 0] in
  Permutation (hourly_query ts) (hourly_query ts) /\ Permutation (daily_query ts) (daily_query ts) /\
  exists r, get_activity_patterns (hourly_query ts) (daily_query ts) = inr r /\
  NoDup (map fst (hourly_distribution r)) /\
  (forall k c, In (k, c) (hourly_distribution r) <->
     exists t, In t ts /\ k = sqlite_strftime (str "%H") t ++ str ":00" /\
       c = Z.of_nat (List.length (filter (fun u => str_eqb (sqlite_strftime (str "%H") u)
                                                           (sqlite_strftime (str "%H") t)) ts))) /\
  sum_Z (map snd (hourly_distribution r)) = Z.of_nat (List.length ts) /\
  NoDup (map fst (daily_distribution r)) /\
  (forall k c, In (k, c) (daily_distribution r) <->
     exists t, In t ts /\ k = nth (Z.to_nat (strftime_w t)) day_names [] /\
       c = Z.of_nat (List.length (filter (fun u => str_eqb (sqlite_strftime (str "%w") u)
                                                           (sqlite_strftime (str "%w") t)) ts))) /\
  sum_Z (map snd (daily_distribution r)) = Z.of_nat (List.length ts).
Proof.
  cbv zeta. split; [apply Permutation_refl|]. split; [apply Permutation_refl|].
  apply activity_patterns_distributions; apply Permutation_refl.
Defined.

End PatternsProps.

Module ParticipantStatsProps.
Import PyStr DateTime Py Parser Dict Store ParticipantStats StoreProps.

Lemma store_participants_ids : forall cid msgs names rows pm nid,
  let '(rows', _, _) :=
    fold_left (fun st participant_name =>
               let '(rows, participant_map, nid) := st in
               (rows ++ [mkprow nid cid participant_name (message_count_of msgs participant_name)],
                dict_set participant_name nid participant_map, nid + 1))
              names (rows, pm, nid) in
  map p_id rows' = map p_id rows ++ map (fun i => nid + Z.of_nat i) (seq 0 (List.length names)).
Proof.
  intros cid msgs names. induction names as [|n ns IH]; intros rows pm nid.
  - cbn [fold_left seq map List.length]. rewrite app_nil_r. reflexivity.
  - cbn [fold_left].
    specialize (IH (rows ++ [mkprow nid cid n (message_count_of msgs n)]) (dict_set n nid pm) (nid + 1)).
    destruct (fold_left _ ns _) as [[rows' pm'] nid']. rewrite IH.
    rewrite map_app, <- app_assoc. f_equal. cbn [List.length seq map p_id app].
    replace (nid + Z.of_nat 0) with nid by lia. f_equal.
    rewrite <- seq_shift, map_map. apply map_ext. intros i. lia.
Qed.

Lemma store_messages_fields : forall cid pm msgs nid rows,
  store_messages cid pm msgs nid = inr rows ->
  Forall2 (fun md r => m_char_count r = char_count md /\ m_word_count r = word_count md /\
                       m_has_emoji r = msg_has_emoji md /\ m_has_link r = msg_has_link md) msgs rows.
Proof.
  intros cid pm. induction msgs as [|md r IH]; intros nid rows H; cbn [store_messages] in H.
  - injection H as <-. constructor.
  - destruct (dict_get (participant md) pm); [|discriminate].
    specialize (IH (nid + 1)). destruct (store_messages cid pm r (nid + 1)) as [k|rows']; [discriminate|].
    injection H as <-. constructor; [|apply IH; reflexivity]. repeat split.
Qed.

Lemma Forall2_and : forall {A B} (P Q : A -> B -> Prop) l1 l2,
  Forall2 P l1 l2 -> Forall2 Q l1 l2 -> Forall2 (fun a b => P a b /\ Q a b) l1 l2.
Proof.
  intros A B P Q l1 l2 HP. induction HP as [|a b l1 l2 Hab HP IH]; intros HQ; [constructor|].
  inversion HQ; subst. constructor; [split; assumption | apply IH; assumption].
Qed.

Lemma Forall2_filter : forall {A B} (R : A -> B -> Prop) (f : A -> bool) (g : B -> bool) l1 l2,
  Forall2 R l1 l2 -> (forall a b, R a b -> f a = g b) -> Forall2 R (filter f l1) (filter g l2).
Proof.
  intros A B R f g l1 l2 H Hfg. induction H as [|a b l1 l2 Hab H IH]; [constructor|].
  cbn [filter]. rewrite (Hfg a b Hab). destruct (g b); [constructor; assumption | exact IH].
Qed.

Lemma nodup_map_eq : forall {A B} (f : A -> B) l x y,
  NoDup (map f l) -> In x l -> In y l -> f x = f y -> x = y.
Proof.
  intros A B f. induction l as [|z r IH]; intros x y Hnd Hx Hy E; [destruct Hx|].
  cbn [map] in Hnd. apply NoDup_cons_iff in Hnd as [Hz Hnd].
  destruct Hx as [<- | Hx]; destruct Hy as [<- | Hy]; [reflexivity | | | apply IH; assumption].
  - exfalso. apply Hz. rewrite E. apply in_map, Hy.
  - exfalso. apply Hz. rewrite <- E. apply in_map, Hx.
Qed.

Lemma store_chat_data_rows : forall cid cd nid prows mrows,
  store_chat_data cid cd nid = inr (prows, mrows) ->
  map p_id prows = map (fun i => nid + Z.of_nat i) (seq 0 (List.length (participants cd))) /\
  Forall2 (fun md r => m_char_count r = char_count md /\ m_word_count r = word_count md /\
                       m_has_emoji r = msg_has_emoji md /\ m_has_link r = msg_has_link md)
          (messages cd) mrows.
Proof.
  intros cid cd nid prows mrows H. unfold store_chat_data, store_participants in H.
  pose proof (store_participants_ids cid (messages cd) (participants cd) [] [] nid) as I.
  destruct (fold_left _ (participants cd) ([], [], nid)) as [[prows' pm] nid'].
  destruct (store_messages cid pm (messages cd) nid') as [k|mrows'] eqn:E; [discriminate|].
  injection H as <- <-. split; [exact I|]. exact (store_messages_fields _ _ _ _ _ E).
Qed.

(** The messages of one participant, as parsed and as stored. *)
Lemma own_rows : forall msgs prows mrows (R : parsed_message -> message_row -> Prop) p,
  NoDup (map p_id prows) -> NoDup (map p_name prows) -> In p prows ->
  Forall2 (fun md r => R md r /\ exists p', In p' prows /\ p_id p' = m_participant_id r /\
                                            p_name p' = participant md) msgs mrows ->
  Forall2 (fun md r => R md r /\ exists p', In p' prows /\ p_id p' = m_participant_id r /\
                                            p_name p' = participant md)
          (filter (fun md => str_eqb (participant md) (p_name p)) msgs)
          (filter (fun r => m_participant_id r =? p_id p) mrows).
Proof.
  intros msgs prows mrows R p Hid Hname Hp H. apply (Forall2_filter _ _ _ _ _ H).
  intros md r [_ (p' & Hp' & Eid & En)].
  destruct (str_eqb (participant md) (p_name p)) eqn:E1; destruct (m_participant_id r =? p_id p) eqn:E2;
    try reflexivity; exfalso.
  - apply InteractionProps.str_eqb_true in E1. rewrite <- En in E1.
    pose proof (nodup_map_eq p_name prows p' p Hname Hp' Hp E1) as ->. lia.
  - apply Z.eqb_eq in E2. rewrite <- Eid in E2.
    pose proof (nodup_map_eq p_id prows p' p Hid Hp' Hp E2) as ->.
    rewrite En, str_eqb_refl in E1. discriminate.
Qed.

Lemma join_rows_chat : forall cid prows mrows,
  (forall p, In p prows -> p_chat_id p = cid) ->
  join_rows cid prows mrows =
  flat_map (fun p => map (fun m => (p, m)) (filter (fun m => m_participant_id m =? p_id p) mrows)) prows.
Proof.
  intros cid prows mrows H. unfold join_rows.
  induction prows as [|p r IH]; [reflexivity|]. cbn [flat_map].
  rewrite (H p (or_introl eq_refl)), Z.eqb_refl, IH; [reflexivity|].
  intros q Hq. apply H. right. exact Hq.
Qed.

Lemma group_add_absent : forall k m g,
  (forall kv, In kv g -> fst (fst kv) <> fst k) -> group_add k m g = g ++ [(k, [m])].
Proof.
  intros k m. induction g as [|[k' ms] r IH]; intros H; [reflexivity|]. cbn [group_add].
  destruct (pkey_eqb k' k) eqn:E.
  - exfalso. apply (H (k', ms) (or_introl eq_refl)). cbn [fst].
    unfold pkey_eqb in E. apply andb_true_iff in E as [E _]. apply Z.eqb_eq, E.
  - rewrite IH; [reflexivity|]. intros kv Hkv. apply H. right. exact Hkv.
Qed.

Lemma group_add_last : forall k m g l,
  (forall kv, In kv g -> fst (fst kv) <> fst k) -> group_add k m (g ++ [(k, l)]) = g ++ [(k, l ++ [m])].
Proof.
  intros k m. induction g as [|[k' ms] r IH]; intros l H; cbn [app group_add].
  - unfold pkey_eqb. rewrite Z.eqb_refl, str_eqb_refl. reflexivity.
  - destruct (pkey_eqb k' k) eqn:E.
    + exfalso. apply (H (k', ms) (or_introl eq_refl)). cbn [fst].
      unfold pkey_eqb in E. apply andb_true_iff in E as [E _]. apply Z.eqb_eq, E.
    + rewrite IH; [reflexivity|]. intros kv Hkv. apply H. right. exact Hkv.
Qed.

Lemma group_one : forall p ms g,
  (forall kv, In kv g -> fst (fst kv) <> p_id p) ->
  fold_left (fun g pm => group_add (p_id (fst pm), p_name (fst pm)) (snd pm) g)
            (map (fun m => (p, m)) ms) g =
  match ms with [] => g | _ => g ++ [((p_id p, p_name p), ms)] end.
Proof.
  intros p [|m ms] g H; [reflexivity|]. cbn [map fold_left fst snd].
  rewrite group_add_absent by exact H.
  assert (G : forall ms l, fold_left (fun g pm => group_add (p_id (fst pm), p_name (fst pm)) (snd pm) g)
                             (map (fun m => (p, m)) ms) (g ++ [((p_id p, p_name p), l)]) =
                           g ++ [((p_id p, p_name p), l ++ ms)]).
  { induction ms0 as [|m' r IH]; intros l; cbn [map fold_left fst snd]; [rewrite app_nil_r; reflexivity|].
    rewrite group_add_last by exact H. rewrite IH, <- app_assoc. reflexivity. }
  rewrite G. reflexivity.
Qed.

Lemma group_by_participant_eq : forall (own : participant_row -> list message_row) prows,
  NoDup (map p_id prows) ->
  group_by_participant (flat_map (fun p => map (fun m => (p, m)) (own p)) prows) =
  map (fun p => ((p_id p, p_name p), own p))
      (filter (fun p => match own p with [] => false | _ => true end) prows).
Proof.
  intros own prows Hnd. unfold group_by_participant.
  assert (G : forall g, (forall kv, In kv g -> ~ In (fst (fst kv)) (map p_id prows)) ->
    fold_left (fun g pm => group_add (p_id (fst pm), p_name (fst pm)) (snd pm) g)
              (flat_map (fun p => map (fun m => (p, m)) (own p)) prows) g =
    g ++ map (fun p => ((p_id p, p_name p), own p))
             (filter (fun p => match own p with [] => false | _ => true end) prows)).
  { induction prows as [|p r IH]; intros g Hg; [cbn; rewrite app_nil_r; reflexivity|].
    cbn [map] in Hnd. apply NoDup_cons_iff in Hnd as [Hp Hnd].
    cbn [flat_map filter]. rewrite fold_left_app, group_one.
    2: { intros kv Hkv E. apply (Hg kv Hkv). rewrite E. left. reflexivity. }
    destruct (own p) as [|m ms] eqn:Eo.
    - apply IH; [exact Hnd|]. intros kv Hkv Hin. apply (Hg kv Hkv). right. exact Hin.
    - rewrite IH, <- app_assoc; [cbn [map app]; rewrite Eo; reflexivity | exact Hnd |]. rewrite <- Eo.
      intros kv Hkv. apply in_app_or in Hkv as [Hkv | [<- | []]].
      + intros Hin. apply (Hg kv Hkv). right. exact Hin.
      + cbn [fst]. exact Hp. }
  rewrite G; [reflexivity|]. intros kv [].
Qed.

Lemma count_true_filter : forall (f : message_row -> bool) ms,
  count_true f ms = Z.of_nat (List.length (filter f ms)).
Proof.
  intros f. unfold count_true, sum_Z. induction ms as [|m r IH]; [reflexivity|].
  cbn [map fold_right filter]. rewrite IH. destruct (f m); cbn [List.length]; lia.
Qed.

Lemma Forall2_sum : forall {A B} (R : A -> B -> Prop) (f : A -> Z) (g : B -> Z) l1 l2,
  Forall2 R l1 l2 -> (forall a b, R a b -> g b = f a) -> sum_Z (map g l2) = sum_Z (map f l1).
Proof.
  intros A B R f g l1 l2 H Hfg. unfold sum_Z. induction H as [|a b l1 l2 Hab H IH]; [reflexivity|].
  cbn [map fold_right]. rewrite IH, (Hfg a b Hab). reflexivity.
Qed.

Lemma Forall2_filter_length : forall {A B} (R : A -> B -> Prop) (f : A -> bool) (g : B -> bool) l1 l2,
  Forall2 R l1 l2 -> (forall a b, R a b -> f a = g b) ->
  List.length (filter g l2) = List.length (filter f l1).
Proof.
  intros A B R f g l1 l2 H Hfg. symmetry. apply (Forall2_length (Forall2_filter R f g l1 l2 H Hfg)).
Qed.

(** The participant statistics of a chat stored by [upload_chat_file]:
    one row per participant, its counts those of its parsed messages. *)
Lemma participant_query_after_upload : forall filename file_content next_id chat prows mrows,
  upload_chat_file filename file_content next_id = inr (chat, prows, mrows) ->
  let msgs := messages (parse_chat file_content filename) in
  map ps_name (participant_query (c_id chat) prows mrows) = participants (parse_chat file_content filename) /\
  forall s, In s (participant_query (c_id chat) prows mrows) ->
    let own := filter (fun md => str_eqb (participant md) (ps_name s)) msgs in
    exists p, In p prows /\ ps_id s = p_id p /\ ps_name s = p_name p /\
      ps_message_count s = p_message_count p /\
      ps_message_count s = Z.of_nat (List.length own) /\
      ps_total_chars s = sum_Z (map char_count own) /\
      ps_total_words s = sum_Z (map word_count own) /\
      ps_emoji_count s = Z.of_nat (List.length (filter msg_has_emoji own)) /\
      ps_link_count s = Z.of_nat (List.length (filter msg_has_link own)).
Proof.
  intros f b nid chat prows mrows H msgs. unfold upload_chat_file in H.
  destruct (endswith (str ".txt") f || endswith (str ".zip") f); cbn [negb] in H; [|discriminate].
  cbv zeta in H. cbn [c_id] in H.
  destruct (store_chat_data nid (parse_chat b f) (nid + 1)) as [k|[prows' mrows']] eqn:Es;
    [discriminate|].
  injection H as <- <- <-. cbn [c_id].
  set (cd := parse_chat b f) in *.
  destruct (parse_chat_participants_spec b f) as [Hnd Hpart]. fold cd in Hnd, Hpart.
  pose proof (store_chat_data_spec nid cd (nid + 1)) as S. rewrite Es in S.
  destruct S as (S1 & S2 & S3).
  destruct (store_chat_data_rows _ _ _ _ _ Es) as [I F].
  assert (Hid : NoDup (map p_id prows')).
  { rewrite I. apply PatternsProps.nodup_map_on; [apply seq_NoDup | intros i j _ _ E; lia]. }
  assert (Hname : NoDup (map p_name prows')) by (rewrite S1; exact Hnd).
  set (R := fun md r => (m_char_count r = char_count md /\ m_word_count r = word_count md /\
                         m_has_emoji r = msg_has_emoji md /\ m_has_link r = msg_has_link md)).
  assert (FR : Forall2 (fun md r => R md r /\ exists p', In p' prows' /\ p_id p' = m_participant_id r /\
                                                         p_name p' = participant md) (messages cd) mrows').
  { apply Forall2_and; [exact F|]. eapply Forall2_impl; [|exact S3]. intros md r (_ & _ & _ & E). exact E. }
  assert (Hne : forall p, In p prows' -> filter (fun m => m_participant_id m =? p_id p) mrows' <> []).
  { intros p Hp E.
    assert (Hn : In (p_name p) (participants cd)) by (rewrite <- S1; apply in_map, Hp).
    apply Hpart in Hn as (m & Hm & Hmn).
    pose proof (Forall2_length (own_rows _ _ _ R p Hid Hname Hp FR)) as L. rewrite E in L.
    assert (In m (filter (fun md => str_eqb (participant md) (p_name p)) (messages cd)))
      by (apply filter_In; split; [exact Hm | rewrite Hmn; apply str_eqb_refl]).
    destruct (filter _ (messages cd)); [destruct H | discriminate]. }
  unfold participant_query. rewrite join_rows_chat by (intros p Hp; apply (S2 p Hp)).
  rewrite (group_by_participant_eq (fun p => filter (fun m => m_participant_id m =? p_id p) mrows') prows' Hid).
  rewrite forallb_filter_id.
  2: { apply forallb_forall. intros p Hp. destruct (filter _ mrows') eqn:E; [destruct (Hne p Hp E) | reflexivity]. }
  split.
  - rewrite <- S1, !map_map. apply map_ext. intros p. reflexivity.
  - intros s Hs. apply in_map_iff in Hs as (g & <- & Hg). apply in_map_iff in Hg as (p & <- & Hp).
    pose proof (own_rows _ _ _ R p Hid Hname Hp FR) as O.
    cbn [aggregate ps_id ps_name ps_message_count ps_total_chars ps_total_words ps_emoji_count ps_link_count].
    exists p. split; [exact Hp|]. split; [reflexivity|]. split; [reflexivity|].
    assert (Lc : Z.of_nat (List.length (filter (fun m => m_participant_id m =? p_id p) mrows')) =
                 Z.of_nat (List.length (filter (fun md => str_eqb (participant md) (p_name p)) (messages cd))))
      by (f_equal; symmetry; exact (Forall2_length O)).
    split; [rewrite Lc, (proj2 (S2 p Hp)); reflexivity|].
    split; [exact Lc|].
    split; [apply (Forall2_sum _ _ _ _ _ O); intros md r [(E & _) _]; exact E|].
    split; [apply (Forall2_sum _ _ _ _ _ O); intros md r [(_ & E & _) _]; exact E|].
    split; rewrite count_true_filter; f_equal; apply (Forall2_filter_length _ _ _ _ _ O).
    + intros md r [(_ & _ & E & _) _]. symmetry. exact E.
    + intros md r [(_ & _ & _ & E) _]. symmetry. exact E.
Qed.

(** X15: after [upload_chat_file] has stored a chat, [get_participant_statistics] on the rows of its query, in any order, ranks the participants by message count in decreasing order, lists every participant once, and reports for each the stored [message_count] of its row, which is its number of parsed messages, and the totals of characters, words, messages with an emoji and messages with a link over its parsed messages. *)
Theorem participant_statistics_after_upload :
  forall filename file_content next_id chat prows mrows stats,
  upload_chat_file filename file_content next_id = inr (chat, prows, mrows) ->
  Permutation stats (participant_query (c_id chat) prows mrows) ->
  let res := get_participant_statistics stats in
  let msgs := messages (parse_chat file_content filename) in
  Sorted (InteractionSpec.key_ge ps_message_count) res /\
  Permutation (map ps_name res) (participants (parse_chat file_content filename)) /\
  forall s, In s res ->
    let own := filter (fun md => str_eqb (participant md) (ps_name s)) msgs in
    exists p, In p prows /\ ps_id s = p_id p /\ ps_name s = p_name p /\
      ps_message_count s = p_message_count p /\
      ps_message_count s = Z.of_nat (List.length own) /\
      ps_total_chars s = sum_Z (map char_count own) /\
      ps_total_words s = sum_Z (map word_count own) /\
      ps_emoji_count s = Z.of_nat (List.length (filter msg_has_emoji own)) /\
      ps_link_count s = Z.of_nat (List.length (filter msg_has_link own)).
Proof.
  intros f b nid chat prows mrows stats H Hp res msgs.
  destruct (participant_query_after_upload f b nid chat prows mrows H) as [Q1 Q2].
  assert (P : Permutation res (participant_query (c_id chat) prows mrows))
    by (unfold res, get_participant_statistics; rewrite InteractionProps.sort_desc_perm; exact Hp).
  split; [apply InteractionProps.sort_desc_sorted|].
  split; [rewrite <- Q1; apply Permutation_map, P|].
  intros s Hs. apply Q2. exact (Permutation_in _ P Hs).
Qed.

Lemma participant_statistics_after_upload_witness :
  exists chat prows mrows,
  upload_chat_file (str "chat.txt") Samples.round_trip_transcript 1 = inr (chat, prows, mrows) /\
  Permutation (participant_query (c_id chat) prows mrows) (participant_query (c_id chat) prows mrows) /\
  let filename := str "chat.txt" in
  let file_content := Samples.round_trip_transcript in
  let res := get_participant_statistics (participant_query (c_id chat) prows mrows) in
  let msgs := messages (parse_chat file_content filename) in
  Sorted (InteractionSpec.key_ge ps_message_count) res /\
  Permutation (map ps_name res) (participants (parse_chat file_content filename)) /\
  forall s, In s res ->
    let own := filter (fun md => str_eqb (participant md) (ps_name s)) msgs in
    exists p, In p prows /\ ps_id s = p_id p /\ ps_name s = p_name p /\
      ps_message_count s = p_message_count p /\
      ps_message_count s = Z.of_nat (List.length own) /\
      ps_total_chars s = sum_Z (map char_count own) /\
      ps_total_words s = sum_Z (map word_count own) /\
      ps_emoji_count s = Z.of_nat (List.length (filter msg_has_emoji own)) /\
      ps_link_count s = Z.of_nat (List.length (filter msg_has_link own)).
Proof.
  destruct (upload_chat_file (str "chat.txt") Samples.round_trip_transcript 1)
    as [e|[[chat prows] mrows]] eqn:E; [vm_compute in E; discriminate E|].
  exists chat, prows, mrows. split; [reflexivity|]. split; [apply Permutation_refl|].
  exact (participant_statistics_after_upload (str "chat.txt") Samples.round_trip_transcript 1
           chat prows mrows _ E (Permutation_refl _)).
Defined.

End ParticipantStatsProps.

